(** * FFFF flash images: element records and the ROM image

    A shallow embedding of [ffff_element.py] and [ffff_romimage.py]
    (bootrom-tools).  Python integers are [Z]; a [bytearray] and a Python 2
    [str] obtained from [struct] are [list byte]; file names and messages are
    [string]; an attribute that may hold [None] is an [option].  A method
    that can raise returns a [result]; a method that mutates [self] returns
    the new [self]. *)

From Stdlib Require Import ZArith Lia Strings.Byte Strings.Ascii Strings.String.
From Stdlib Require Import HexString DecimalString.
From stdpp Require Import gmap strings list.

Local Open Scope string_scope.
Local Open Scope Z_scope.

(** ** The Python runtime the sources rely on *)

Module Py.

(** The exceptions the sources raise themselves or let escape. *)
Inductive exn : Type :=
| ValueError (msg : string)
| IOError (msg : string)
| StructError (msg : string)
| AttributeError (msg : string)
| TypeError (msg : string)
| ZeroDivisionError (msg : string)
| OverflowError (msg : string)
| MemoryError (msg : string).

Inductive result (A : Type) : Type :=
| Ok (a : A)
| Raise (e : exn).
Arguments Ok {A} a.
Arguments Raise {A} e.

Definition bind {A B} (m : result A) (k : A -> result B) : result B :=
  match m with
  | Ok a => k a
  | Raise e => Raise e
  end.

Definition is_ok {A} (m : result A) : bool :=
  match m with Ok _ => true | Raise _ => false end.

(** [a % b]: floored, sign of the divisor; a zero divisor raises. *)
Definition py_mod (a b : Z) : result Z :=
  if b =? 0 then Raise (ZeroDivisionError "integer division or modulo by zero")
  else Ok (a mod b).

(** [l[start:stop]] for integer bounds: a negative bound counts from the
    end and every bound is clamped to the sequence. *)
Definition slice_bound (len i : Z) : Z :=
  if i <? 0 then Z.max (i + len) 0 else Z.min i len.

Definition py_slice {A} (l : list A) (start stop : Z) : list A :=
  let len := Z.of_nat (length l) in
  let s := slice_bound len start in
  let e := slice_bound len stop in
  take (Z.to_nat (e - s)) (drop (Z.to_nat s) l).

(** [format(n, "#x")]. *)
Definition format_hex (n : Z) : string := HexString.of_Z n.

(** [rfind(s, c)] for a one-character needle: the highest index of [c] in
    [s], or [-1]. *)
Fixpoint rfind_from (i : Z) (s : string) (c : ascii) (found : Z) : Z :=
  match s with
  | EmptyString => found
  | String a s' =>
      rfind_from (i + 1) s' c (if Ascii.eqb a c then i else found)
  end.

Definition rfind (s : string) (c : ascii) : Z := rfind_from 0 s c (-1).

(** [sys.maxsize], the largest index, of a 64-bit build. *)
Definition maxsize : Z := 2 ^ 63 - 1.

(** The machine the interpreter runs on: the bytes its allocator can give
    to one object. *)
Class Machine : Type := { available : N }.

(** [bytearray(n)]: [n] zero bytes.  A count that does not fit an index
    raises [OverflowError], a negative count [ValueError], and a count the
    allocator cannot give [MemoryError]. *)
Definition bytearray `{Machine} (n : Z) : result (list byte) :=
  if (n <? - maxsize - 1) || (maxsize <? n)
  then Raise (OverflowError
                "cannot fit 'long' into an index-sized integer")
  else if n <? 0 then Raise (ValueError "negative count")
  else if Z.of_N available <? n then Raise (MemoryError "")
  else Ok (replicate (Z.to_nat n) x00).

(** A machine to run the methods on with concrete inputs: one mebibyte
    can be allocated. *)
Definition small_machine : Machine := {| available := 2 ^ 20 |}.

End Py.
Export Py.

#[global] Instance result_ret : MRet result := @Ok.
#[global] Instance result_bind : MBind result :=
  fun A B k m => Py.bind m k.

(** ** The [struct] module, for the formats the sources use *)

Module Struct.

Definition Z_of_byte (b : byte) : Z := Z.of_N (Byte.to_N b).

Definition byte_of_Z (z : Z) : byte :=
  match Byte.of_N (Z.to_N (z mod 256)) with
  | Some b => b
  | None => x00
  end.

(** An unsigned little-endian integer of any width. *)
Fixpoint le_uint (bs : list byte) : Z :=
  match bs with
  | [] => 0
  | b :: bs' => Z_of_byte b + 256 * le_uint bs'
  end.

(** The four bytes of format code [<L]. *)
Definition le_bytes4 (v : Z) : list byte :=
  [byte_of_Z v; byte_of_Z (Z.shiftr v 8);
   byte_of_Z (Z.shiftr v 16); byte_of_Z (Z.shiftr v 24)].

Definition fits_L (v : Z) : bool := (0 <=? v) && (v <=? 0xffffffff).

(** The window [size] bytes wide at [offset]: a negative offset counts
    from the end of the buffer, and a window that does not fit raises
    [struct.error]. *)
Definition window (buf : list byte) (offset size : Z) : result Z :=
  let len := Z.of_nat (length buf) in
  let off := if offset <? 0 then offset + len else offset in
  if (off <? 0) || (len - off <? size)
  then Raise (StructError "requires a buffer of at least the struct size")
  else Ok off.

Definition read (buf : list byte) (off size : Z) : list byte :=
  take (Z.to_nat size) (drop (Z.to_nat off) buf).

Definition splice (buf : list byte) (off : Z) (bs : list byte) : list byte :=
  (take (Z.to_nat off) buf ++ bs
     ++ drop (Z.to_nat off + length bs) buf)%list.

(** A field of format code [s]: the bytes as a (Python 2) [str]. *)
Definition read_str (buf : list byte) (off size : Z) : string :=
  string_of_list_byte (read buf off size).

(** [unpack_from("<16s", buf, offset)[0]]. *)
Definition unpack_from_16s (buf : list byte) (offset : Z)
  : result string :=
  off ← window buf offset 16;
  Ok (read_str buf off 16).

(** [unpack_from("<LLLLL", buf, offset)]. *)
Definition unpack_from_5L (buf : list byte) (offset : Z)
  : result (Z * Z * Z * Z * Z) :=
  off ← window buf offset 20;
  Ok (le_uint (read buf off 4),
      le_uint (read buf (off + 4) 4),
      le_uint (read buf (off + 8) 4),
      le_uint (read buf (off + 12) 4),
      le_uint (read buf (off + 16) 4)).

(** The fixed part of a header, [unpack_from("<16s16s48sLLLLL", buf)]. *)
Record fixed_part : Type := FixedPart {
  fp_sentinel : string;
  fp_timestamp : string;
  fp_flash_image_name : string;
  fp_flash_capacity : Z;
  fp_erase_block_size : Z;
  fp_header_size : Z;
  fp_flash_image_length : Z;
  fp_header_generation_number : Z
}.

Definition unpack_from_fixed_part (buf : list byte) : result fixed_part :=
  off ← window buf 0 100;
  Ok (FixedPart (read_str buf off 16) (read_str buf (off + 16) 16)
        (read_str buf (off + 32) 48)
        (le_uint (read buf (off + 80) 4))
        (le_uint (read buf (off + 84) 4))
        (le_uint (read buf (off + 88) 4))
        (le_uint (read buf (off + 92) 4))
        (le_uint (read buf (off + 96) 4))).

(** [pack_into("<LLLLL", buf, offset, v0, v1, v2, v3, v4)]: every value
    must fit an unsigned 32-bit word. *)
Definition pack_into_5L (buf : list byte) (offset : Z) (v0 v1 v2 v3 v4 : Z)
  : result (list byte) :=
  off ← window buf offset 20;
  if fits_L v0 && fits_L v1 && fits_L v2 && fits_L v3 && fits_L v4
  then Ok (splice buf off
             (le_bytes4 v0 ++ le_bytes4 v1 ++ le_bytes4 v2
                ++ le_bytes4 v3 ++ le_bytes4 v4)%list)
  else Raise (StructError "'L' format requires 0 <= number <= 4294967295").

End Struct.

(** ** [util.py] *)

Module Util.

(** Modelled from the spec: [util.error] is not among the sources; a
    diagnostic is emitted, here as one more line of the diagnostics the
    caller collects. *)
Definition error (msg : string) : list string := [msg].

(** Modelled from the spec: [util.block_aligned] is not among the
    sources; the location is a multiple of the block size. *)
Definition block_aligned (location block_size : Z) : bool :=
  location mod block_size =? 0.

(** Modelled from the spec: [util.is_power_of_2] is not among the
    sources; the number is a power of two. *)
Definition is_power_of_2 (x : Z) : bool :=
  (0 <? x) && (x =? 2 ^ Z.log2 x).

End Util.

(** ** [tftf.py] *)

Module Tftf.

(** Modelled from the spec: the payload blob ([tftf.py]) is not among the
    sources; an element consumes it only as a view of the buffer span it
    was loaded from, which is all that is kept here. *)
Record Tftf : Type := { tftf_buf : list byte }.

Definition load_tftf_from_buffer (span : list byte) : Tftf :=
  {| tftf_buf := span |}.

End Tftf.

(** ** [ffff_element.py] *)

Module FfffElement.

Definition FFFF_SENTINEL : string := "FlashFormatForFW".

Definition FFFF_MAX_HEADER_BLOCK_SIZE : Z := 64 * 1024.
Definition FFFF_MAX_HEADER_BLOCK_OFFSET : Z := 512 * 1024.

Definition FFFF_ELEMENT_STAGE2_FIRMWARE_PACKAGE : Z := 0x01.
Definition FFFF_ELEMENT_STAGE3_FIRMWARE_PACKAGE : Z := 0x02.
Definition FFFF_ELEMENT_IMS_CERTIFICATE : Z := 0x03.
Definition FFFF_ELEMENT_CMS_CERTIFICATE : Z := 0x04.
Definition FFFF_ELEMENT_DATA : Z := 0x05.
Definition FFFF_ELEMENT_END_OF_ELEMENT_TABLE : Z := 0xfe.

Definition FFFF_ELT_LEN_TYPE : Z := 1.
Definition FFFF_ELT_LEN_CLASS : Z := 3.
Definition FFFF_ELT_LEN_ID : Z := 4.
Definition FFFF_ELT_LEN_LENGTH : Z := 4.
Definition FFFF_ELT_LEN_LOCATION : Z := 4.
Definition FFFF_ELT_LEN_GENERATION : Z := 4.
Definition FFFF_ELT_LENGTH : Z :=
  FFFF_ELT_LEN_TYPE + FFFF_ELT_LEN_CLASS + FFFF_ELT_LEN_ID
  + FFFF_ELT_LEN_LENGTH + FFFF_ELT_LEN_LOCATION + FFFF_ELT_LEN_GENERATION.

Definition FFFF_HEADER_SIZE_MIN : Z := 512.
Definition FFFF_HEADER_SIZE_MAX : Z := 32768.
Definition FFFF_HEADER_SIZE_DEFAULT : Z := 4096.
Definition FFFF_HDR_LENGTH : Z := 512.
Definition FFFF_SENTINEL_LENGTH : Z := 16.
Definition FFFF_TIMESTAMP_LENGTH : Z := 16.
Definition FFFF_FLASH_IMAGE_NAME_LENGTH : Z := 48.
Definition FFFF_HDR_NUM_RESERVED : Z := 4.
Definition FFFF_RSVD_SIZE : Z := 4.

Definition FFFF_HDR_LEN_SENTINEL : Z := FFFF_SENTINEL_LENGTH.
Definition FFFF_HDR_LEN_TIMESTAMP : Z := FFFF_TIMESTAMP_LENGTH.
Definition FFFF_HDR_LEN_FLASH_IMAGE_NAME : Z := FFFF_FLASH_IMAGE_NAME_LENGTH.
Definition FFFF_HDR_LEN_FLASH_CAPACITY : Z := 4.
Definition FFFF_HDR_LEN_ERASE_BLOCK_SIZE : Z := 4.
Definition FFFF_HDR_LEN_HEADER_SIZE : Z := 4.
Definition FFFF_HDR_LEN_FLASH_IMAGE_LENGTH : Z := 4.
Definition FFFF_HDR_LEN_HEADER_GENERATION_NUM : Z := 4.
Definition FFFF_HDR_LEN_TAIL_SENTINEL : Z := FFFF_SENTINEL_LENGTH.
Definition FFFF_HDR_LEN_RESERVED : Z :=
  FFFF_HDR_NUM_RESERVED * FFFF_RSVD_SIZE.
Definition FFFF_HDR_LEN_FIXED_PART : Z :=
  FFFF_HDR_LEN_SENTINEL + FFFF_HDR_LEN_TIMESTAMP
  + FFFF_HDR_LEN_FLASH_IMAGE_NAME + FFFF_HDR_LEN_FLASH_CAPACITY
  + FFFF_HDR_LEN_ERASE_BLOCK_SIZE + FFFF_HDR_LEN_HEADER_SIZE
  + FFFF_HDR_LEN_FLASH_IMAGE_LENGTH + FFFF_HDR_LEN_HEADER_GENERATION_NUM
  + FFFF_HDR_LEN_RESERVED + FFFF_HDR_LEN_TAIL_SENTINEL.

Definition FFFF_HDR_NUM_ELEMENTS : Z :=
  (FFFF_HDR_LENGTH - FFFF_HDR_LEN_FIXED_PART) / FFFF_ELT_LENGTH.
Definition FFFF_HDR_LEN_ELEMENT_TBL : Z :=
  FFFF_HDR_NUM_ELEMENTS * FFFF_ELT_LENGTH.

Definition FFFF_HDR_OFF_SENTINEL : Z := 0.
Definition FFFF_HDR_OFF_TIMESTAMP : Z :=
  FFFF_HDR_OFF_SENTINEL + FFFF_HDR_LEN_SENTINEL.
Definition FFFF_HDR_OFF_FLASH_IMAGE_NAME : Z :=
  FFFF_HDR_OFF_TIMESTAMP + FFFF_HDR_LEN_TIMESTAMP.
Definition FFFF_HDR_OFF_FLASH_CAPACITY : Z :=
  FFFF_HDR_OFF_FLASH_IMAGE_NAME + FFFF_HDR_LEN_FLASH_IMAGE_NAME.
Definition FFFF_HDR_OFF_ERASE_BLOCK_SIZE : Z :=
  FFFF_HDR_OFF_FLASH_CAPACITY + FFFF_HDR_LEN_FLASH_CAPACITY.
Definition FFFF_HDR_OFF_HEADER_SIZE : Z :=
  FFFF_HDR_OFF_ERASE_BLOCK_SIZE + FFFF_HDR_LEN_ERASE_BLOCK_SIZE.
Definition FFFF_HDR_OFF_FLASH_IMAGE_LENGTH : Z :=
  FFFF_HDR_OFF_HEADER_SIZE + FFFF_HDR_LEN_HEADER_SIZE.
Definition FFFF_HDR_OFF_HEADER_GENERATION_NUM : Z :=
  FFFF_HDR_OFF_FLASH_IMAGE_LENGTH + FFFF_HDR_LEN_FLASH_IMAGE_LENGTH.
Definition FFFF_HDR_OFF_RESERVED : Z :=
  FFFF_HDR_OFF_HEADER_GENERATION_NUM + FFFF_HDR_LEN_HEADER_GENERATION_NUM.
Definition FFFF_HDR_OFF_ELEMENT_TBL : Z :=
  FFFF_HDR_OFF_RESERVED + FFFF_HDR_LEN_RESERVED.
Definition FFFF_HDR_OFF_TAIL_SENTINEL : Z :=
  FFFF_HEADER_SIZE_DEFAULT - FFFF_HDR_LEN_TAIL_SENTINEL.

Definition FFFF_FILE_EXTENSION : string := ".ffff".

Definition FFFF_HDR_VALID : Z := 0.
Definition FFFF_HDR_ERASED : Z := 1.
Definition FFFF_HDR_INVALID : Z := 2.

(** The attributes of an element but [self.buf], the shared image buffer
    the constructor is given: [unpack] and [pack] take the buffer they work
    on as an argument, and [write], the one method that reads [self.buf],
    is modelled with it in [FfffElementIO]. *)
Record FfffElement : Type := mkElement {
  filename : option string;
  tftf_blob : option Tftf.Tftf;
  buf_size : Z;
  index : Z;
  erase_block_size : Z;
  collisions : list Z;
  duplicates : list Z;
  in_range : bool;
  aligned : bool;
  valid_type : bool;
  element_type : Z;
  element_class : Z;
  element_id : Z;
  element_length : Z;
  element_location : Z;
  element_generation : Z
}.

(** Assignments to attributes of [self]. *)
Definition set_fields (self : FfffElement) (ty cl id len loc gen : Z)
  : FfffElement :=
  mkElement (filename self) (tftf_blob self) (buf_size self) (index self)
    (erase_block_size self) (collisions self) (duplicates self)
    (in_range self) (aligned self) (valid_type self)
    ty cl id len loc gen.

Definition set_tftf_blob (self : FfffElement) (blob : option Tftf.Tftf)
  : FfffElement :=
  mkElement (filename self) blob (buf_size self) (index self)
    (erase_block_size self) (collisions self) (duplicates self)
    (in_range self) (aligned self) (valid_type self)
    (element_type self) (element_class self) (element_id self)
    (element_length self) (element_location self) (element_generation self).

Definition set_in_range (self : FfffElement) (b : bool) : FfffElement :=
  mkElement (filename self) (tftf_blob self) (buf_size self) (index self)
    (erase_block_size self) (collisions self) (duplicates self)
    b (aligned self) (valid_type self)
    (element_type self) (element_class self) (element_id self)
    (element_length self) (element_location self) (element_generation self).

Definition set_aligned (self : FfffElement) (b : bool) : FfffElement :=
  mkElement (filename self) (tftf_blob self) (buf_size self) (index self)
    (erase_block_size self) (collisions self) (duplicates self)
    (in_range self) b (valid_type self)
    (element_type self) (element_class self) (element_id self)
    (element_length self) (element_location self) (element_generation self).

Definition set_valid_type (self : FfffElement) (b : bool) : FfffElement :=
  mkElement (filename self) (tftf_blob self) (buf_size self) (index self)
    (erase_block_size self) (collisions self) (duplicates self)
    (in_range self) (aligned self) b
    (element_type self) (element_class self) (element_id self)
    (element_length self) (element_location self) (element_generation self).

Definition set_collisions (self : FfffElement) (l : list Z) : FfffElement :=
  mkElement (filename self) (tftf_blob self) (buf_size self) (index self)
    (erase_block_size self) l (duplicates self)
    (in_range self) (aligned self) (valid_type self)
    (element_type self) (element_class self) (element_id self)
    (element_length self) (element_location self) (element_generation self).

Definition set_duplicates (self : FfffElement) (l : list Z) : FfffElement :=
  mkElement (filename self) (tftf_blob self) (buf_size self) (index self)
    (erase_block_size self) (collisions self) l
    (in_range self) (aligned self) (valid_type self)
    (element_type self) (element_class self) (element_id self)
    (element_length self) (element_location self) (element_generation self).

(** [self.in_range = True; self.aligned = True; self.valid_type = True] *)
Definition mark_valid (self : FfffElement) : FfffElement :=
  set_valid_type (set_aligned (set_in_range self true) true) true.

(** [FfffElement.__init__] *)
Definition __init__ (index buf_size erase_block_size : Z)
    (element_type element_class element_id element_length
       element_location element_generation : Z)
    (filename : option string) : FfffElement :=
  let eot := element_type =? FFFF_ELEMENT_END_OF_ELEMENT_TABLE in
  mkElement filename None buf_size index erase_block_size [] []
    eot eot eot
    element_type element_class element_id element_length
    element_location element_generation.

(** [FfffElement.unpack]: the new [self] and the end-of-table flag. *)
Definition unpack (self : FfffElement) (buf : list byte) (offset : Z)
  : result (FfffElement * bool) :=
  '(type_class, w1, w2, w3, w4) ← Struct.unpack_from_5L buf offset;
  let self :=
    set_fields self
      (Z.land type_class 0x000000ff)
      (Z.land (Z.shiftr type_class 8) 0x00ffffff)
      w1 w2 w3 w4 in
  if negb (element_type self =? FFFF_ELEMENT_END_OF_ELEMENT_TABLE) then
    let span_start := element_location self in
    let span_end := span_start + element_length self in
    let blob :=
      Tftf.load_tftf_from_buffer (py_slice buf span_start span_end) in
    Ok (set_tftf_blob self (Some blob), false)
  else
    Ok (mark_valid self, true).

(** [FfffElement.pack]: the new buffer and the offset of the next
    element. *)
Definition pack (self : FfffElement) (buf : list byte) (offset : Z)
  : result (list byte * Z) :=
  let type_class :=
    Z.lor (Z.shiftl (element_class self) 8) (element_type self) in
  buf' ← Struct.pack_into_5L buf offset type_class
           (element_id self) (element_length self)
           (element_location self) (element_generation self);
  Ok (buf', offset + FFFF_ELT_LENGTH).

(** [FfffElement.validate]: the returned flag, the new [self] and the
    diagnostics emitted through [error], in order. *)
Definition validate (self : FfffElement)
    (address_range_low address_range_high : Z)
  : bool * FfffElement * list string :=
  if element_type self =? FFFF_ELEMENT_END_OF_ELEMENT_TABLE then
    (true, mark_valid self, [])
  else
    let self :=
      set_in_range self
        ((element_location self >=? address_range_low)
         && (element_location self <? address_range_high)) in
    let diag1 :=
      if negb (in_range self) then
        Util.error ("Element location "
                    +:+ format_hex (element_location self)
                    +:+ " falls outside address range "
                    +:+ format_hex address_range_low
                    +:+ "-" +:+ format_hex address_range_high)
      else [] in
    let self :=
      set_aligned self
        (Util.block_aligned (element_location self)
           (erase_block_size self)) in
    let diag2 :=
      if negb (aligned self) then
        Util.error ("Element location "
                    +:+ format_hex (element_location self)
                    +:+ " unaligned to block size "
                    +:+ format_hex (erase_block_size self))
      else [] in
    let self :=
      set_valid_type self
        ((element_type self >=? FFFF_ELEMENT_STAGE2_FIRMWARE_PACKAGE)
         && (element_type self <=? FFFF_ELEMENT_DATA)) in
    (in_range self && aligned self && valid_type self,
     self, (diag1 ++ diag2)%list).

(** [FfffElement.validate_against]: the new [self]. *)
Definition validate_against (self other : FfffElement) : FfffElement :=
  let start_a := element_location self in
  let end_a := start_a + element_length self - 1 in
  let start_b := element_location other in
  let end_b := start_b + element_length other - 1 in
  let self :=
    if (end_b >=? start_a) && (start_b <=? end_a)
    then set_collisions self (collisions self ++ [index other])%list
    else self in
  if (element_type self =? element_type other)
     && (element_id self =? element_id other)
     && (element_generation self =? element_generation other)
  then set_duplicates self (duplicates self ++ [index other])%list
  else self.

(** [FfffElement.same_as] *)
Definition same_as (self other : FfffElement) : bool :=
  (element_type self =? element_type other)
  && (element_class self =? element_class other)
  && (element_id self =? element_id other)
  && (element_length self =? element_length other)
  && (element_location self =? element_location other)
  && (element_generation self =? element_generation other).

End FfffElement.

(** ** [ffff.py] *)

Module Ffff.

(** Modelled from the spec: the header-block class [Ffff] ([ffff.py]) is
    not among the sources.  A header records where it starts in the
    shared image buffer, the metadata it was built with, its element
    table and its validity assessment. *)
Record Ffff : Type := mkFfff {
  header_offset : Z;
  flash_image_name : option string;
  flash_capacity : Z;
  erase_block_size : Z;
  flash_image_length : Z;
  header_generation_number : Z;
  header_size : Z;
  elements : list FfffElement.FfffElement;
  header_validity : Z
}.

(** What the ROM image consumes of the absent class and the spec leaves
    open: the validity a freshly built header reports, and [Ffff.unpack],
    which parses the header at its offset of the shared buffer and may
    raise. *)
Class HeaderBlock : Type := {
  initial_validity : Z;
  unpack : list byte -> Ffff -> result Ffff
}.

(** Modelled from the spec: the constructor keeps its arguments and
    starts with an empty element table. *)
Definition __init__ `{HeaderBlock} (header_offset : Z)
    (flash_image_name : option string)
    (flash_capacity erase_block_size image_length
       header_generation_number header_size : Z) : Ffff :=
  mkFfff header_offset flash_image_name flash_capacity erase_block_size
    image_length header_generation_number header_size [] initial_validity.

Fixpoint header_block_search (fuel : nat) (size header_size : Z) : Z :=
  match fuel with
  | O => size
  | S fuel' =>
      if size <? header_size
      then header_block_search fuel' (2 * size) header_size
      else size
  end.

(** Modelled from the spec: [ffff.get_header_block_size] is not among the
    sources; the smallest power-of-two multiple of the erase-block size
    that is at least the header size (for an erase-block size of at least
    one, the only ones a ROM image accepts). *)
Definition get_header_block_size (erase_block_size header_size : Z) : Z :=
  header_block_search (Z.to_nat (Z.log2_up header_size))
    erase_block_size header_size.

(** A header block to run the methods with on concrete inputs: built
    valid, and unpacked as it was built. *)
Definition plain_header : HeaderBlock :=
  {| initial_validity := FfffElement.FFFF_HDR_VALID;
     unpack := fun _ h => Ok h |}.

End Ffff.

(** ** [ffff_romimage.py] *)

Module FfffRomimage.
Import FfffElement.

(** The attributes of a ROM image ([self.mv] is never assigned anything
    but [None] and is left out).  [timestamp] and [reserved] do not exist
    until a file has been parsed. *)
Record FfffRomimage : Type := mkRomimage {
  header_size : Z;
  ffff0 : option Ffff.Ffff;
  ffff1 : option Ffff.Ffff;
  ffff_buf : option (list byte);
  flash_image_name : option string;
  flash_capacity : Z;
  erase_block_size : Z;
  flash_image_length : Z;
  header_generation_number : Z;
  element_location_min : Z;
  element_location_max : Z;
  timestamp : option string;
  reserved : option (list Z)
}.

(** The module-level names [recalculate_header_offsets] rebinds. *)
Record Globals : Type := mkGlobals {
  g_FFFF_HDR_NUM_ELEMENTS : option Z;
  g_FFFF_HDR_LEN_ELEMENT_TBL : option Z;
  g_FFFF_HDR_OFF_TAIL_SENTINEL : Z
}.

(** The names as bound when the module has been imported. *)
Definition module_globals : Globals :=
  mkGlobals None None FfffElement.FFFF_HDR_OFF_TAIL_SENTINEL.

(** The file system and the standard output.  A path of [readonly] cannot
    be opened for writing. *)
Record World : Type := mkWorld {
  files : gmap string (list byte);
  readonly : gset string;
  stdout : list string
}.

Record State : Type := mkState {
  self : FfffRomimage;
  globals : Globals;
  world : World
}.

(** A method: it runs on a state and returns or raises, leaving the
    state as it was when it stopped. *)
Definition M (A : Type) : Type := State -> result A * State.

Definition ret {A} (a : A) : M A := fun s => (Ok a, s).
Definition raise {A} (e : exn) : M A := fun s => (Raise e, s).
Definition lift {A} (r : result A) : M A := fun s => (r, s).
Definition seq {A B} (m : M A) (k : A -> M B) : M B :=
  fun s =>
    match m s with
    | (Ok a, s') => k a s'
    | (Raise e, s') => (Raise e, s')
    end.
Definition get : M State := fun s => (Ok s, s).
Definition update (f : FfffRomimage -> FfffRomimage) : M unit :=
  fun s => (Ok tt, mkState (f (self s)) (globals s) (world s)).
Definition update_globals (f : Globals -> Globals) : M unit :=
  fun s => (Ok tt, mkState (self s) (f (globals s)) (world s)).
Definition update_world (f : World -> World) : M unit :=
  fun s => (Ok tt, mkState (self s) (globals s) (f (world s))).

#[global] Instance M_ret : MRet M := @ret.
#[global] Instance M_bind : MBind M := fun A B k m => seq m k.

(** Assignments to attributes of [self]. *)
Definition set_characteristics (r : FfffRomimage)
    (hs : Z) (name : option string) (cap ebs len gen : Z) : FfffRomimage :=
  mkRomimage hs (ffff0 r) (ffff1 r) (ffff_buf r) name cap ebs len gen
    (element_location_min r) (element_location_max r)
    (timestamp r) (reserved r).

Definition set_element_location (r : FfffRomimage) (lo hi : Z)
  : FfffRomimage :=
  mkRomimage (header_size r) (ffff0 r) (ffff1 r) (ffff_buf r)
    (flash_image_name r) (flash_capacity r) (erase_block_size r)
    (flash_image_length r) (header_generation_number r) lo hi
    (timestamp r) (reserved r).

Definition set_ffff_buf (r : FfffRomimage) (b : option (list byte))
  : FfffRomimage :=
  mkRomimage (header_size r) (ffff0 r) (ffff1 r) b
    (flash_image_name r) (flash_capacity r) (erase_block_size r)
    (flash_image_length r) (header_generation_number r)
    (element_location_min r) (element_location_max r)
    (timestamp r) (reserved r).

Definition set_ffff0 (r : FfffRomimage) (h : option Ffff.Ffff)
  : FfffRomimage :=
  mkRomimage (header_size r) h (ffff1 r) (ffff_buf r)
    (flash_image_name r) (flash_capacity r) (erase_block_size r)
    (flash_image_length r) (header_generation_number r)
    (element_location_min r) (element_location_max r)
    (timestamp r) (reserved r).

Definition set_ffff1 (r : FfffRomimage) (h : option Ffff.Ffff)
  : FfffRomimage :=
  mkRomimage (header_size r) (ffff0 r) h (ffff_buf r)
    (flash_image_name r) (flash_capacity r) (erase_block_size r)
    (flash_image_length r) (header_generation_number r)
    (element_location_min r) (element_location_max r)
    (timestamp r) (reserved r).

Definition set_timestamp (r : FfffRomimage) (t : option string)
  : FfffRomimage :=
  mkRomimage (header_size r) (ffff0 r) (ffff1 r) (ffff_buf r)
    (flash_image_name r) (flash_capacity r) (erase_block_size r)
    (flash_image_length r) (header_generation_number r)
    (element_location_min r) (element_location_max r)
    t (reserved r).

Definition set_reserved (r : FfffRomimage) (l : option (list Z))
  : FfffRomimage :=
  mkRomimage (header_size r) (ffff0 r) (ffff1 r) (ffff_buf r)
    (flash_image_name r) (flash_capacity r) (erase_block_size r)
    (flash_image_length r) (header_generation_number r)
    (element_location_min r) (element_location_max r)
    (timestamp r) l.

(** [FfffRomimage.__init__] *)
Definition __init__ : FfffRomimage :=
  mkRomimage FFFF_HEADER_SIZE_DEFAULT None None None None 0 0 0 0 0 0
    None None.

(** [FfffRomimage.get_header_block_size] *)
Definition get_header_block_size (r : FfffRomimage) : Z :=
  Ffff.get_header_block_size (erase_block_size r) (header_size r).

Section Methods.
Context `{HB : Ffff.HeaderBlock} `{MC : Machine}.

(** [FfffRomimage.init] *)
Definition init (flash_image_name : string)
    (flash_capacity erase_block_size image_length
       header_generation_number header_size : Z) : M bool :=
  if (header_size <? FFFF_HEADER_SIZE_MIN)
     || (header_size >? FFFF_HEADER_SIZE_MAX)
  then raise (ValueError "header_size is out of range")
  else if negb (Util.is_power_of_2 erase_block_size)
  then raise (ValueError "Erase block size must be 2**n")
  else
    rem ← lift (py_mod image_length erase_block_size);
    if negb (rem =? 0)
    then raise (ValueError
                  "Image length must be a multiple of erase bock size")
    else
      update (fun r =>
        set_characteristics r header_size (Some flash_image_name)
          flash_capacity erase_block_size image_length
          header_generation_number);;
      update (fun r =>
        set_element_location r (2 * get_header_block_size r)
          image_length);;
      buf ← lift (bytearray image_length);
      update (fun r => set_ffff_buf r (Some buf));;
      update (fun r =>
        set_ffff0 r
          (Some (Ffff.__init__ 0 (Some flash_image_name) flash_capacity
                   erase_block_size image_length
                   header_generation_number header_size)));;
      update (fun r =>
        set_ffff1 r
          (Some (Ffff.__init__ (get_header_block_size r)
                   (Some flash_image_name) flash_capacity
                   erase_block_size image_length
                   header_generation_number header_size)));;
      ret true.

(** [FfffRomimage.recalculate_header_offsets] *)
Definition recalculate_header_offsets : M unit :=
  s ← get;
  let num_elements :=
    (header_size (self s) - FFFF_HDR_LEN_FIXED_PART) / FFFF_ELT_LENGTH in
  update_globals (fun g =>
    mkGlobals (Some num_elements) (Some (num_elements * FFFF_ELT_LENGTH))
      (g_FFFF_HDR_OFF_TAIL_SENTINEL g));;
  update (fun r =>
    set_reserved r
      (Some (replicate (Z.to_nat FFFF_HDR_NUM_RESERVED) 0)));;
  update_globals (fun g =>
    mkGlobals (g_FFFF_HDR_NUM_ELEMENTS g) (g_FFFF_HDR_LEN_ELEMENT_TBL g)
      (header_size (self s) - FFFF_HDR_LEN_TAIL_SENTINEL)).

(** The image buffer as [unpack_from] receives it: [None] is no
    buffer. *)
Definition the_buffer : M (list byte) :=
  s ← get;
  match ffff_buf (self s) with
  | Some buf => ret buf
  | None => raise (TypeError "unpack_from: no buffer")
  end.

(** [FfffRomimage.get_romimage_characteristics] *)
Definition get_romimage_characteristics : M unit :=
  buf ← the_buffer;
  ffff_hdr ← lift (Struct.unpack_from_fixed_part buf);
  let sentinel := Struct.fp_sentinel ffff_hdr in
  update (fun r => set_timestamp r (Some (Struct.fp_timestamp ffff_hdr)));;
  update (fun r =>
    set_characteristics r
      (Struct.fp_header_size ffff_hdr)
      (Some (Struct.fp_flash_image_name ffff_hdr))
      (Struct.fp_flash_capacity ffff_hdr)
      (Struct.fp_erase_block_size ffff_hdr)
      (Struct.fp_flash_image_length ffff_hdr)
      (Struct.fp_header_generation_number ffff_hdr));;
  (* a local name of this method, not the module-level one *)
  let FFFF_HDR_OFF_TAIL_SENTINEL :=
    Struct.fp_header_size ffff_hdr - FFFF_HDR_LEN_TAIL_SENTINEL in
  recalculate_header_offsets;;
  tail_sentinel ←
    lift (Struct.unpack_from_16s buf FFFF_HDR_OFF_TAIL_SENTINEL);
  if negb (String.eqb sentinel FFFF_SENTINEL)
  then raise (ValueError "invalid sentinel")
  else if negb (String.eqb sentinel tail_sentinel)
          && negb (String.eqb tail_sentinel FFFF_SENTINEL)
  then raise (ValueError
                ("invalid tail sentinel '" +:+ tail_sentinel +:+ "'"))
  else
    s ← get;
    if negb (Util.is_power_of_2 (erase_block_size (self s)))
    then raise (ValueError "Erase block size must be 2**n")
    else
      rem ← lift (py_mod (flash_image_length (self s))
                    (erase_block_size (self s)));
      if negb (rem =? 0)
      then raise (ValueError
                    "Image length must be a multiple of erase bock size")
      else
        update (fun r =>
          set_element_location r (2 * get_header_block_size r)
            (flash_capacity r)).

(** [Ffff(self.ffff_buf, offset, ..., 0)] on the attributes of [self]. *)
Definition header_at (r : FfffRomimage) (offset : Z) : Ffff.Ffff :=
  Ffff.__init__ offset (flash_image_name r) (flash_capacity r)
    (erase_block_size r) (flash_image_length r)
    (header_generation_number r) 0.

(** [io.open(name, 'rb')] for each candidate name in turn, then the
    whole file read into a fresh buffer. *)
Definition read_file (filename : string) : M (list byte) :=
  s ← get;
  match files (world s) !! filename with
  | Some content => ret content
  | None =>
      match files (world s) !! (filename +:+ FFFF_FILE_EXTENSION) with
      | Some content => ret content
      | None => raise (IOError (" can't find FFFF file" +:+ filename))
      end
  end.

(** [init_from_file] from opening the file to the first header
    unpacked: the buffer read. *)
Definition read_first_header (filename : string) : M (list byte) :=
  buf ← read_file filename;
  update (fun r => set_ffff_buf r (Some buf));;
  get_romimage_characteristics;;
  update (fun r => set_ffff0 r (Some (header_at r 0)));;
  s0 ← get;
  match ffff0 (self s0) with
  | Some h0 =>
      h ← lift (Ffff.unpack buf h0);
      update (fun r => set_ffff0 r (Some h));;
      ret buf
  | None =>
      raise (AttributeError
               "'NoneType' object has no attribute 'unpack'")
  end.

(** The second header created at an accepted offset, and unpacked. *)
Definition create_second_header (buf : list byte) (offset : Z)
  : M unit :=
  update (fun r => set_ffff1 r (Some (header_at r offset)));;
  s ← get;
  match ffff1 (self s) with
  | Some h1 =>
      h ← lift (Ffff.unpack buf h1);
      update (fun r => set_ffff1 r (Some h))
  | None =>
      raise (AttributeError
               "'NoneType' object has no attribute 'unpack'")
  end.

(** The scan for the second header, one round of the [while] loop per
    unit of [fuel]; [None] when the loop has not left within [fuel]
    rounds. *)
Fixpoint scan_second_header (fuel : nat) (buf : list byte) (offset : Z)
    (s : State) : option (result unit * State) :=
  match fuel with
  | O => None
  | S fuel' =>
      if offset <? FFFF_MAX_HEADER_BLOCK_OFFSET then
        match Struct.unpack_from_16s buf offset with
        | Raise e => Some (Raise e, s)
        | Ok nose_sentinel =>
            match Struct.unpack_from_16s buf
                    (offset + g_FFFF_HDR_OFF_TAIL_SENTINEL (globals s))
            with
            | Raise e => Some (Raise e, s)
            | Ok tail_sentinel =>
                if String.eqb nose_sentinel FFFF_SENTINEL
                   && String.eqb tail_sentinel FFFF_SENTINEL
                then Some (create_second_header buf offset s)
                else
                  scan_second_header fuel' buf (Z.shiftl offset 1) s
            end
        end
      else Some (Ok tt, s)
  end.

(** Rounds that let the scan leave from any first offset of at least
    one: the offset doubles and the ceiling is [2 ^ 19]. *)
Definition scan_rounds : nat := 21.

(** [FfffRomimage.init_from_file]; [None] when the scan for the second
    header has not left within [scan_rounds] rounds. *)
Definition init_from_file (filename : string) (s : State)
  : option (result bool * State) :=
  if negb (String.eqb filename "") then
    match read_first_header filename s with
    | (Raise e, s') => Some (Raise e, s')
    | (Ok buf, s') =>
        match scan_second_header scan_rounds buf
                (get_header_block_size (self s')) s'
        with
        | None => None
        | Some (Raise e, s'') => Some (Raise e, s'')
        | Some (Ok _, s'') => Some (Ok true, s'')
        end
    end
  else Some (Raise (ValueError "no file specified"), s).

(** [header.header_validity] of an attribute that may hold [None]. *)
Definition validity_of (h : option Ffff.Ffff) : M Z :=
  match h with
  | Some h => ret (Ffff.header_validity h)
  | None =>
      raise (AttributeError
               "'NoneType' object has no attribute 'header_validity'")
  end.

(** [open(name, 'wb')]: the file is created or truncated. *)
Definition open_wb (name : string) : M unit :=
  s ← get;
  if bool_decide (name ∈ readonly (world s))
  then raise (IOError ("cannot open " +:+ name))
  else update_world (fun w =>
         mkWorld (<[name := []]> (files w)) (readonly w) (stdout w)).

(** [wf.write(buf)] on the file just opened. *)
Definition file_write (name : string) (buf : option (list byte))
  : M unit :=
  match buf with
  | Some b =>
      update_world (fun w =>
        mkWorld (<[name := b]> (files w)) (readonly w) (stdout w))
  | None => raise (TypeError "write: no buffer")
  end.

Definition print (line : string) : M unit :=
  update_world (fun w =>
    mkWorld (files w) (readonly w) (stdout w ++ [line])%list).

(** [FfffRomimage.write] *)
Definition write (out_filename : string) : M bool :=
  s ← get;
  v0 ← validity_of (ffff0 (self s));
  if negb (v0 =? FFFF_HDR_VALID)
  then raise (ValueError "Invalid FFFF header 0")
  else
    v1 ← validity_of (ffff1 (self s));
    if negb (v1 =? FFFF_HDR_VALID)
    then raise (ValueError "Invalid FFFF header 1")
    else
      let out_filename :=
        if rfind out_filename "." =? -1
        then out_filename +:+ FFFF_FILE_EXTENSION
        else out_filename in
      open_wb out_filename;;
      file_write out_filename (ffff_buf (self s));;
      print ("Wrote " +:+ out_filename);;
      ret true.

End Methods.

End FfffRomimage.

(** ** The terms of the specification *)

Module Spec.
Import FfffElement.

(** The fields of a record fit the widths of the on-disk layout. *)
Definition fits_widths (e : FfffElement) : Prop :=
  0 <= element_type e <= 0xff
  /\ 0 <= element_class e < 2 ^ 24
  /\ 0 <= element_id e < 2 ^ 32
  /\ 0 <= element_length e < 2 ^ 32
  /\ 0 <= element_location e < 2 ^ 32
  /\ 0 <= element_generation e < 2 ^ 32.

(** The six persisted fields. *)
Definition fields_of (e : FfffElement) : Z * Z * Z * Z * Z * Z :=
  (element_type e, element_class e, element_id e,
   element_length e, element_location e, element_generation e).

(** The closed byte span [[location, location + length - 1]] of an
    element, and two spans sharing a byte. *)
Definition in_span (e : FfffElement) (x : Z) : Prop :=
  element_location e <= x <= element_location e + element_length e - 1.

Definition spans_intersect (a b : FfffElement) : Prop :=
  exists x, in_span a x /\ in_span b x.

(** An element whose span starts at [location] and is [length] bytes
    long, everything else blank. *)
Definition span_element (index location length : Z) : FfffElement :=
  __init__ index 0 1 FFFF_ELEMENT_DATA 0 index length location 0 None.

Definition power_of_two (x : Z) : Prop := exists k, 0 <= k /\ x = 2 ^ k.

(** [bytearray] gives a buffer of the length: the length is not negative,
    fits an index, and the allocator has as many bytes. *)
Definition allocatable `{Machine} (n : Z) : Prop :=
  0 <= n <= maxsize /\ n <= Z.of_N available.

(** The three checks of [init], as one test. *)
Definition init_rejects (erase_block_size image_length header_size : Z)
  : bool :=
  (header_size <? FFFF_HEADER_SIZE_MIN)
  || (header_size >? FFFF_HEADER_SIZE_MAX)
  || negb (Util.is_power_of_2 erase_block_size)
  || negb (image_length mod erase_block_size =? 0).

(** A header attribute holds a header that reports [VALID]. *)
Definition reports_valid (h : option Ffff.Ffff) : Prop :=
  exists hdr, h = Some hdr /\ Ffff.header_validity hdr = FFFF_HDR_VALID.

(** The name [write] writes to. *)
Definition written_name (path : string) : string :=
  if rfind path "." =? -1 then path +:+ FFFF_FILE_EXTENSION else path.

(** Both sentinel reads of a candidate offset lie inside the buffer. *)
Definition in_buffer (buf : list byte) (header_size offset : Z) : Prop :=
  0 <= offset /\ offset + 16 <= Z.of_nat (length buf)
  /\ 0 <= offset + (header_size - 16)
  /\ offset + (header_size - 16) + 16 <= Z.of_nat (length buf).

(** The sixteen bytes at the offset and the sixteen bytes at
    [offset + (header_size - 16)] are both the sentinel. *)
Definition accepted (buf : list byte) (header_size offset : Z) : Prop :=
  Struct.read_str buf offset 16 = FFFF_SENTINEL
  /\ Struct.read_str buf (offset + (header_size - 16)) 16 = FFFF_SENTINEL.

(** A header as it lies in a file: both sentinels, blank timestamp and
    name, the five words, and zero bytes between. *)
Definition header_image (capacity erase_block_size header_size
                           image_length generation : Z) : list byte :=
  (list_byte_of_string FFFF_SENTINEL ++ replicate 64 x00
   ++ Struct.le_bytes4 capacity ++ Struct.le_bytes4 erase_block_size
   ++ Struct.le_bytes4 header_size ++ Struct.le_bytes4 image_length
   ++ Struct.le_bytes4 generation
   ++ replicate (Z.to_nat (header_size - 116)) x00
   ++ list_byte_of_string FFFF_SENTINEL)%list.

(** A state with one file and a fresh ROM image. *)
Definition fresh_state (name : string) (content : list byte)
  : FfffRomimage.State :=
  FfffRomimage.mkState FfffRomimage.__init__ FfffRomimage.module_globals
    (FfffRomimage.mkWorld {[ name := content ]} ∅ []).

(** The outcome of [init_from_file] once the scan has stopped. *)
Definition finish (out : result unit * FfffRomimage.State)
  : result bool * FfffRomimage.State :=
  match out with
  | (Ok _, s') => (Ok true, s')
  | (Raise e, s') => (Raise e, s')
  end.

(** Sample inputs. *)

(** A stage-3 firmware element. *)
Definition sample_element : FfffElement :=
  __init__ 0 0 4096 FFFF_ELEMENT_STAGE3_FIRMWARE_PACKAGE 0x123456 7
    0x2000 0x8000 1 None.

(** An end-of-table marker with every other field at its largest. *)
Definition sample_end_of_table : FfffElement :=
  __init__ 3 0 4096 FFFF_ELEMENT_END_OF_ELEMENT_TABLE 0xffffff 0xffffffff
    0xffffffff 0xffffffff 0xffffffff None.

(** A file of 2048 bytes with both headers, for a flash of 4096 bytes. *)
Definition two_header_image : list byte :=
  (header_image 4096 512 512 2048 1 ++ header_image 4096 512 512 2048 1
   ++ replicate 1024 x00)%list.

(** A file of 1024 bytes whose second header block is blank. *)
Definition one_header_image : list byte :=
  (header_image 4096 512 512 1024 1 ++ replicate 512 x00)%list.

(** A ROM image of eight bytes as [init] builds it. *)
Definition built_state : FfffRomimage.State :=
  snd (FfffRomimage.init (HB := Ffff.plain_header) (MC := small_machine)
         "img" 8 4 8 0 512 (fresh_state "a" [])).

End Spec.

(** ** Records as they lie in a header, and elements checked in turn *)

Module Layout.
Import FfffElement.

(** The first word [pack] writes. *)
Definition type_class (e : FfffElement) : Z :=
  Z.lor (Z.shiftl (element_class e) 8) (element_type e).

(** The twenty bytes [pack] writes. *)
Definition record_bytes (e : FfffElement) : list byte :=
  (Struct.le_bytes4 (type_class e) ++ Struct.le_bytes4 (element_id e)
   ++ Struct.le_bytes4 (element_length e)
   ++ Struct.le_bytes4 (element_location e)
   ++ Struct.le_bytes4 (element_generation e))%list.

(** Each of the five words [pack] writes fits format code [<L]. *)
Definition packable (e : FfffElement) : Prop :=
  0 <= type_class e < 2 ^ 32
  /\ 0 <= element_id e < 2 ^ 32
  /\ 0 <= element_length e < 2 ^ 32
  /\ 0 <= element_location e < 2 ^ 32
  /\ 0 <= element_generation e < 2 ^ 32.

(** The validation state of an element. *)
Definition flags_of (e : FfffElement) : bool * bool * bool :=
  (in_range e, aligned e, valid_type e).

(** The two tests of [validate_against]. *)
Definition overlaps (a b : FfffElement) : Prop :=
  element_location a <= element_location b + element_length b - 1
  /\ element_location b <= element_location a + element_length a - 1.

Definition same_identity (a b : FfffElement) : Prop :=
  element_type a = element_type b
  /\ element_id a = element_id b
  /\ element_generation a = element_generation b.

#[global] Instance overlaps_dec (a b : FfffElement) : Decision (overlaps a b).
Proof. unfold overlaps. apply _. Defined.

#[global] Instance same_identity_dec (a b : FfffElement)
  : Decision (same_identity a b).
Proof. unfold same_identity. apply _. Defined.

(** [self.validate_against(other)] for each [other] of a list in turn. *)
Definition validate_against_each (self : FfffElement)
    (others : list FfffElement) : FfffElement :=
  fold_left validate_against others self.

End Layout.

(** ** The fixed part of the first header, as parsing leaves it *)

Module Parsing.
Import FfffElement FfffRomimage.

(** The state when [get_romimage_characteristics] has stored the fixed
    part and the offsets have been recalculated, before any check. *)
Definition characteristics_stored (s : State) (fp : Struct.fixed_part)
  : State :=
  let n := (Struct.fp_header_size fp - FFFF_HDR_LEN_FIXED_PART)
           / FFFF_ELT_LENGTH in
  mkState
    (mkRomimage (Struct.fp_header_size fp) (ffff0 (self s)) (ffff1 (self s))
       (ffff_buf (self s)) (Some (Struct.fp_flash_image_name fp))
       (Struct.fp_flash_capacity fp) (Struct.fp_erase_block_size fp)
       (Struct.fp_flash_image_length fp)
       (Struct.fp_header_generation_number fp)
       (element_location_min (self s)) (element_location_max (self s))
       (Some (Struct.fp_timestamp fp)) (Some [0; 0; 0; 0]))
    (mkGlobals (Some n) (Some (n * FFFF_ELT_LENGTH))
       (Struct.fp_header_size fp - FFFF_HDR_LEN_TAIL_SENTINEL))
    (world s).

(** The fixed part of a header that passes the checks of
    [get_romimage_characteristics] in a buffer. *)
Definition header_accepted (buf : list byte) (fp : Struct.fixed_part)
  : Prop :=
  Struct.unpack_from_fixed_part buf = Ok fp
  /\ Struct.fp_sentinel fp = FFFF_SENTINEL
  /\ Struct.unpack_from_16s buf (Struct.fp_header_size fp - 16)
     = Ok FFFF_SENTINEL
  /\ Spec.power_of_two (Struct.fp_erase_block_size fp)
  /\ (Struct.fp_erase_block_size fp | Struct.fp_flash_image_length fp).

(** The state when [get_romimage_characteristics] has returned. *)
Definition characteristics_done (s : State) (fp : Struct.fixed_part)
  : State :=
  let s1 := characteristics_stored s fp in
  mkState
    (set_element_location (self s1) (2 * get_header_block_size (self s1))
       (Struct.fp_flash_capacity fp))
    (globals s1) (world s1).

(** The content [init_from_file] reads for a name: that of the file of this
    name, or else that of the file with the default extension added. *)
Definition resolved (s : State) (filename : string) (content : list byte)
  : Prop :=
  files (world s) !! filename = Some content
  \/ (files (world s) !! filename = None
      /\ files (world s) !! (filename +:+ FFFF_FILE_EXTENSION)
         = Some content).

End Parsing.

(** ** Python text: integers under [format], subscripts and [rindex] *)

Module PyText.

(** The digits of the absolute value. *)
Definition hex_digits (n : Z) : string :=
  match Z.abs n with
  | Zpos p => HexString.Raw.of_pos p ""
  | _ => "0"
  end.

Definition decimal_digits (n : Z) : string :=
  NilZero.string_of_uint (N.to_uint (Z.abs_N n)).

Definition sign (n : Z) : string := if n <? 0 then "-" else "".

Definition fill (c : ascii) (n : nat) : string :=
  string_of_list_ascii (replicate n c).

(** [format(n, "Wd")]: the number flush right in [width] columns. *)
Definition format_d (width : nat) (n : Z) : string :=
  let body := sign n +:+ decimal_digits n in
  fill " " (width - String.length body) +:+ body.

(** [format(n, "0Wx")]: zeros between the sign and the digits up to
    [width] columns. *)
Definition format_0x (width : nat) (n : Z) : string :=
  let digits := hex_digits n in
  sign n
  +:+ fill "0" (width - String.length (sign n) - String.length digits)
  +:+ digits.

(** ["{0:x}".format(s)] for a [str]: there is no such format code. *)
Definition format_x_str (s : string) : result string :=
  Raise (ValueError "Unknown format code 'x' for object of type 'str'").

(** What a [for] loop over [l[i]] raises when [l] is a list of integers:
    [IndexError] from the subscript, or else [TypeError], an integer not
    being iterable. *)
Inductive loop_exn : Type :=
| IndexError (msg : string)
| NotIterable (msg : string).

(** [l[i]]: a negative index counts from the end. *)
Definition subscript {A} (l : list A) (i : Z) : option A :=
  let len := Z.of_nat (length l) in
  let k := if i <? 0 then i + len else i in
  if (k <? 0) || (len <=? k) then None else l !! Z.to_nat k.

Definition iterate_subscript (l : list Z) (i : Z) : loop_exn :=
  match subscript l i with
  | None => IndexError "list index out of range"
  | Some _ => NotIterable "'int' object is not iterable"
  end.

(** [s.rindex(c)] for a one-character needle. *)
Definition rindex (s : string) (c : ascii) : result Z :=
  if rfind s c =? -1 then Raise (ValueError "substring not found")
  else Ok (rfind s c).

(** [s[:stop]] *)
Definition str_prefix (s : string) (stop : Z) : string :=
  string_of_list_ascii (py_slice (list_ascii_of_string s) 0 stop).

End PyText.

(** ** [ffff_element.py]: names, loading, writing and display *)

Module FfffElementIO.
Import FfffElement FfffRomimage PyText.

Definition element_names : gmap Z string :=
  {[ FFFF_ELEMENT_END_OF_ELEMENT_TABLE := "end of elements";
     FFFF_ELEMENT_STAGE2_FIRMWARE_PACKAGE := "stage 2 firmware";
     FFFF_ELEMENT_STAGE3_FIRMWARE_PACKAGE := "stage 3 firmware";
     FFFF_ELEMENT_IMS_CERTIFICATE := "IMS certificate";
     FFFF_ELEMENT_CMS_CERTIFICATE := "CMS certificate";
     FFFF_ELEMENT_DATA := "data" ]}.

Definition element_short_names : gmap Z string :=
  {[ FFFF_ELEMENT_END_OF_ELEMENT_TABLE := "eot";
     FFFF_ELEMENT_STAGE2_FIRMWARE_PACKAGE := "2fw";
     FFFF_ELEMENT_STAGE3_FIRMWARE_PACKAGE := "3fw";
     FFFF_ELEMENT_IMS_CERTIFICATE := "ims_cert";
     FFFF_ELEMENT_CMS_CERTIFICATE := "cms_cert";
     FFFF_ELEMENT_DATA := "data" ]}.

(** [FfffElement.element_name] *)
Definition element_name (element_type : Z) : string :=
  match element_names !! element_type with
  | Some name => name
  | None => "?"
  end.

(** [FfffElement.element_short_name]: [None] for a type without one. *)
Definition element_short_name (element_type : Z) : option string :=
  element_short_names !! element_type.

(** Modelled from the spec: the payload blob ([tftf.py]) is not among the
    sources; an element loading itself from a file consumes the blob
    through its constructor, "load from a file", "is well-formed" and its
    total length. *)
Class TftfFile : Type := {
  Tftf_of_file : string -> Tftf.Tftf;
  load_tftf_file : Tftf.Tftf -> string -> bool * Tftf.Tftf;
  is_good : Tftf.Tftf -> bool;
  tftf_length : Tftf.Tftf -> Z
}.

Definition set_element_length (self : FfffElement) (len : Z)
  : FfffElement :=
  set_fields self (element_type self) (element_class self)
    (element_id self) len (element_location self)
    (element_generation self).

(** [FfffElement.init]: the outcome and the new [self].  A file name is
    taken when it is neither [None] nor empty, a blob when it is not
    [None]. *)
Definition init `{TftfFile} (self : FfffElement)
  : result bool * FfffElement :=
  match filename self, tftf_blob self with
  | Some name, None =>
      if negb (String.eqb name "") then
        let blob := Tftf_of_file name in
        let '(success, blob) := load_tftf_file blob name in
        let self := set_tftf_blob self (Some blob) in
        if success && is_good blob then
          (Ok true, set_element_length self (tftf_length blob))
        else
          (text ← format_x_str name;
           Raise (ValueError ("Bad TFTF file: " +:+ text)),
           self)
      else (Ok true, self)
  | _, _ => (Ok true, self)
  end.

(** The [bytearray] objects of a run, by name, with what each holds at
    present: the image buffer is one object that the ROM image, its
    headers and their elements share. *)
Definition Buffers : Type := nat -> list byte.

(** An element with its attribute [self.buf]: the [bytearray] the
    constructor was given, or [None]. *)
Record Stored : Type := mkStored {
  element : FfffElement;
  buf : option nat
}.

(** [FfffElement.__init__], the buffer included. *)
Definition __init__ (index : Z) (buf : option nat)
    (buf_size erase_block_size : Z)
    (element_type element_class element_id element_length
       element_location element_generation : Z)
    (filename : option string) : Stored :=
  mkStored
    (FfffElement.__init__ index buf_size erase_block_size element_type
       element_class element_id element_length element_location
       element_generation filename)
    buf.

(** [FfffElement.write]: the file is opened, then [self.buf] is sliced as
    it is at that time.  Of the state it touches the file system and the
    output only. *)
Definition write (self : Stored) (filename : string) (heap : Buffers)
  : M unit :=
  open_wb filename;;
  match buf self with
  | Some b =>
      file_write filename
        (Some (py_slice (heap b) (element_location (element self))
                 (element_location (element self)
                  + element_length (element self))));;
      print ("Wrote " +:+ filename)
  | None =>
      raise (TypeError "'NoneType' object has no attribute '__getitem__'")
  end.

(** [FfffElement.display_table_header]: the line printed. *)
Definition display_table_header : list string :=
  ["     Type Class  ID       Length   Location Generation"].

(** The line [display] prints first. *)
Definition element_string (self : FfffElement) (expand_type : bool)
  : string :=
  "  " +:+ format_d 2 (index self)
  +:+ " " +:+ format_0x 2 (element_type self) +:+ "  "
  +:+ " " +:+ format_0x 6 (element_class self)
  +:+ " " +:+ format_0x 8 (element_id self)
  +:+ " " +:+ format_0x 8 (element_length self)
  +:+ " " +:+ format_0x 8 (element_location self)
  +:+ " " +:+ format_0x 8 (element_generation self)
  +:+ (if expand_type
       then " (" +:+ element_name (element_type self) +:+ ")"
       else "").

(** The text [display] builds from the three flags. *)
Definition flags_string (self : FfffElement) : string :=
  (if negb (in_range self) then "Out-of-range " else "")
  +:+ (if negb (aligned self) then "Misaligned " else "")
  +:+ (if negb (valid_type self) then "Invalid-type " else "").

(** [FfffElement.display]: the lines printed, the diagnostics emitted
    through [error], and the exception raised, if any. *)
Definition display (self : FfffElement) (expand_type : bool)
  : list string * list string * option loop_exn :=
  let printed := [element_string self expand_type] in
  if 0 <? Z.of_nat (length (collisions self)) then
    (* [for collision in self.collisions[self.index]] *)
    (printed, [], Some (iterate_subscript (collisions self) (index self)))
  else if 0 <? Z.of_nat (length (duplicates self)) then
    (* [for duplicate in self.duplicates[self.index]] *)
    (printed, [], Some (iterate_subscript (duplicates self) (index self)))
  else
    let element_string := flags_string self in
    (printed,
     if 0 <? Z.of_nat (String.length element_string)
     then Util.error element_string
     else [],
     None).

(** A loader under which every file holds a well-formed blob of 4096
    bytes, and one under which no file can be loaded. *)
Definition good_files : TftfFile :=
  {| Tftf_of_file := fun _ => Tftf.load_tftf_from_buffer [];
     load_tftf_file := fun blob _ => (true, blob);
     is_good := fun _ => true;
     tftf_length := fun _ => 4096 |}.

Definition bad_files : TftfFile :=
  {| Tftf_of_file := fun _ => Tftf.load_tftf_from_buffer [];
     load_tftf_file := fun blob _ => (false, blob);
     is_good := fun _ => true;
     tftf_length := fun _ => 4096 |}.

End FfffElementIO.

(** ** [ffff_romimage.py]: the map file *)

Module FfffRomimageHeaders.
Import FfffElement FfffRomimage PyText.

(** Modelled from the spec: the header-block class [Ffff] ([ffff.py]) is
    not among the sources.  [Ffff.same_as] compares two headers;
    [Ffff.write_map] and [Ffff.write_map_elements] give the text they
    write to the map file. *)
Class HeaderMethods : Type := {
  Ffff_same_as : Ffff.Ffff -> Ffff.Ffff -> bool;
  Ffff_write_map : Ffff.Ffff -> Z -> string -> list byte;
  Ffff_write_map_elements : Ffff.Ffff -> Z -> string -> list byte
}.

Section Methods.
Context `{HM : HeaderMethods}.

(** [wf.write(text)] on a file opened before: the text is appended. *)
Definition file_append (name : string) (text : list byte) : M unit :=
  update_world (fun w =>
    mkWorld (<[name := (default [] (files w !! name) ++ text)%list]>
               (files w))
      (readonly w) (stdout w)).

(** [FfffRomimage.write_map], on the name of the file [wf] writes to. *)
Definition write_map (wf : string) (base_offset : Z) : M unit :=
  s ← get;
  match ffff0 (self s), ffff1 (self s) with
  | Some h0, Some h1 =>
      file_append wf (Ffff_write_map h0 0 "ffff[0]");;
      file_append wf
        (Ffff_write_map h1 (get_header_block_size (self s)) "ffff[1]");;
      if Ffff_same_as h0 h1 then
        file_append wf (Ffff_write_map_elements h0 0 "ffff")
      else
        file_append wf (Ffff_write_map_elements h0 0 "ffff[0]");;
        file_append wf (Ffff_write_map_elements h1 0 "ffff[1]")
  | _, _ => raise (ValueError "No FFFF to display")
  end.

(** [FfffRomimage.create_map_file] *)
Definition create_map_file (base_name : string) (base_offset : Z)
  : M unit :=
  index ← lift (rindex base_name ".");
  let base_name :=
    if negb (index =? -1) then str_prefix base_name index
    else base_name in
  let map_name := base_name +:+ ".map" in
  open_wb map_name;;
  write_map map_name base_offset.

End Methods.

(** Headers that compare by their generation and write one line each to
    a map. *)
Definition one_line_maps : HeaderMethods :=
  {| Ffff_same_as := fun h0 h1 =>
       Ffff.header_generation_number h0
       =? Ffff.header_generation_number h1;
     Ffff_write_map := fun h offset prefix =>
       list_byte_of_string (prefix +:+ " " +:+ format_0x 8 offset);
     Ffff_write_map_elements := fun h offset prefix =>
       list_byte_of_string (prefix +:+ ".elements") |}.

End FfffRomimageHeaders.

(** ** Further sample inputs *)

Module Inputs.
Import FfffElement FfffRomimage Spec Layout.

(** A buffer of 32 bytes holding the stage-3 record at offset 4. *)
Definition packed_buffer : list byte :=
  (replicate 4 x00 ++ record_bytes sample_element ++ replicate 8 x00)%list.

(** An element whose type does not fit one byte. *)
Definition sample_wide_type : FfffElement :=
  FfffElement.__init__ 0 0 4096 0x102 0 7 0x2000 0x8000 1 None.

(** The stage-3 element again, under another index and with a file. *)
Definition sample_copy : FfffElement :=
  FfffElement.__init__ 9 64 512 FFFF_ELEMENT_STAGE3_FIRMWARE_PACKAGE
    0x123456 7 0x2000 0x8000 1 (Some "copy.tftf").

(** A fresh ROM image holding a buffer, with no file around. *)
Definition buffered_state (buf : list byte) : State :=
  mkState (set_ffff_buf FfffRomimage.__init__ (Some buf)) module_globals
    (mkWorld ∅ ∅ []).

(** A header whose erase-block size, 3, is not a power of two. *)
Definition odd_block_image : list byte := header_image 4096 3 512 2048 1.


(** A data element of six bytes at location 24, and a buffer of 32 bytes
    holding its record at offset 4 and eight payload bytes from 24 on. *)
Definition sample_data : FfffElement :=
  FfffElement.__init__ 0 0 4 FFFF_ELEMENT_DATA 0 1 6 24 0 None.

Definition payload_buffer : list byte :=
  (replicate 4 x00 ++ record_bytes sample_data
   ++ [x01; x02; x03; x04; x05; x06; x07; x08])%list.

End Inputs.

(** * Properties *)

(** ** Bytes and little-endian words *)

Section StructFacts.
Import Struct.

Lemma Z_of_byte_range (b : byte) : 0 <= Z_of_byte b < 256.
Proof.
  unfold Z_of_byte. pose proof (Byte.to_N_bounded b). lia.
Qed.

Lemma Z_of_byte_of_Z (z : Z) : Z_of_byte (byte_of_Z z) = z mod 256.
Proof.
  unfold Z_of_byte, byte_of_Z.
  assert (Hr : 0 <= z mod 256 < 256) by (apply Z.mod_pos_bound; lia).
  destruct (Byte.of_N (Z.to_N (z mod 256))) as [b|] eqn:E.
  - apply Byte.to_of_N in E. rewrite E. lia.
  - apply Byte.of_N_None_iff in E. lia.
Qed.

Lemma le_uint_bytes4 (v : Z) :
  0 <= v < 2 ^ 32 -> le_uint (le_bytes4 v) = v.
Proof.
  intros Hv. unfold le_bytes4. cbn [le_uint].
  rewrite !Z_of_byte_of_Z, !Z.shiftr_div_pow2 by lia.
  change (2 ^ 8) with 256. change (2 ^ 16) with 65536.
  change (2 ^ 24) with 16777216. change (2 ^ 32) with 4294967296 in Hv.
  Z.to_euclidean_division_equations. lia.
Qed.

Lemma le_uint_app (a b : list byte) :
  le_uint (a ++ b) = le_uint a + 256 ^ Z.of_nat (length a) * le_uint b.
Proof.
  induction a as [|x a IH]; cbn [app le_uint length].
  - change (256 ^ Z.of_nat 0) with 1. lia.
  - rewrite IH, Nat2Z.inj_succ, Z.pow_succ_r by lia. lia.
Qed.

Lemma le_uint_bound (bs : list byte) :
  0 <= le_uint bs < 256 ^ Z.of_nat (length bs).
Proof.
  induction bs as [|x bs IH]; cbn [le_uint length].
  - change (256 ^ Z.of_nat 0) with 1. lia.
  - rewrite Nat2Z.inj_succ, Z.pow_succ_r by lia.
    pose proof (Z_of_byte_range x). lia.
Qed.

Lemma fits_L_iff (v : Z) : fits_L v = true <-> 0 <= v < 2 ^ 32.
Proof.
  unfold fits_L. change (2 ^ 32) with 4294967296.
  rewrite andb_true_iff, Z.leb_le, Z.leb_le. lia.
Qed.

Lemma length_read (buf : list byte) (off n : Z) :
  0 <= off -> 0 <= n -> off + n <= Z.of_nat (length buf) ->
  length (read buf off n) = Z.to_nat n.
Proof.
  intros Ho Hn Hl. unfold read. rewrite length_take, length_drop. lia.
Qed.

Lemma read_split (buf : list byte) (off n m : Z) :
  0 <= off -> 0 <= n -> 0 <= m ->
  read buf off (n + m) = (read buf off n ++ read buf (off + n) m)%list.
Proof.
  intros Ho Hn Hm. unfold read.
  rewrite Z2Nat.inj_add by lia.
  rewrite <- take_take_drop, drop_drop.
  rewrite (Z2Nat.inj_add off n) by lia. reflexivity.
Qed.

Lemma length_splice (buf : list byte) (off : Z) (bs : list byte) :
  0 <= off -> off + Z.of_nat (length bs) <= Z.of_nat (length buf) ->
  length (splice buf off bs) = length buf.
Proof.
  intros Ho Hl. unfold splice.
  rewrite !length_app, length_take, length_drop. lia.
Qed.

Lemma read_splice (buf : list byte) (off : Z) (bs : list byte) (i n : Z) :
  0 <= off -> off + Z.of_nat (length bs) <= Z.of_nat (length buf) ->
  0 <= i -> 0 <= n -> i + n <= Z.of_nat (length bs) ->
  read (splice buf off bs) (off + i) n
  = take (Z.to_nat n) (drop (Z.to_nat i) bs).
Proof.
  intros Ho Hl Hi Hn Hin. unfold read, splice.
  rewrite Z2Nat.inj_add by lia.
  rewrite drop_app_add' by (rewrite length_take; lia).
  rewrite drop_app_le by lia.
  rewrite take_app_le by (rewrite length_drop; lia).
  reflexivity.
Qed.

Lemma window_ok (buf : list byte) (offset size off : Z) :
  window buf offset size = Ok off ->
  0 <= off /\ off + size <= Z.of_nat (length buf)
  /\ off = (if offset <? 0 then offset + Z.of_nat (length buf) else offset).
Proof.
  unfold window. intros H.
  destruct (_ || _) eqn:E; [discriminate|].
  apply orb_false_iff in E as [E1 E2].
  apply Z.ltb_ge in E1, E2. inversion H; subst. lia.
Qed.

Lemma window_fits (buf : list byte) (offset size : Z) :
  0 <= offset -> offset + size <= Z.of_nat (length buf) ->
  window buf offset size = Ok offset.
Proof.
  intros Ho Hl. unfold window.
  destruct (offset <? 0) eqn:E; [apply Z.ltb_lt in E; lia|].
  destruct (_ || _) eqn:E'; [|reflexivity].
  apply orb_true_iff in E' as [E'|E']; apply Z.ltb_lt in E'; lia.
Qed.

Lemma window_same_length (buf buf' : list byte) (offset size : Z) :
  length buf' = length buf ->
  window buf' offset size = window buf offset size.
Proof. intros H. unfold window. rewrite H. reflexivity. Qed.

End StructFacts.

(** ** Element records: pack and unpack *)

Section PackUnpack.
Import Struct FfffElement.

Lemma land_shiftl8_small (cl ty : Z) :
  0 <= ty < 256 -> Z.land (Z.shiftl cl 8) ty = 0.
Proof.
  intros Hty. apply Z.bits_inj'. intros n Hn.
  rewrite Z.land_spec, Z.bits_0.
  destruct (Z.lt_ge_cases n 8) as [Hlt|Hge].
  - rewrite Z.shiftl_spec_low by lia. reflexivity.
  - assert (Hbit : Z.testbit ty n = false).
    { apply Z.testbit_false; [lia|].
      rewrite Z.div_small; [reflexivity|].
      split; [lia|].
      apply Z.lt_le_trans with (2 ^ 8); [change (2 ^ 8) with 256; lia|].
      apply Z.pow_le_mono_r; lia. }
    rewrite Hbit. apply andb_false_r.
Qed.

Lemma type_class_word (cl ty : Z) :
  0 <= ty < 256 -> Z.lor (Z.shiftl cl 8) ty = cl * 256 + ty.
Proof.
  intros Hty.
  rewrite <- Z.add_nocarry_lor by (apply land_shiftl8_small; exact Hty).
  rewrite Z.shiftl_mul_pow2 by lia. reflexivity.
Qed.

Lemma low_byte (w : Z) : Z.land w 0x000000ff = w mod 256.
Proof. change 0x000000ff with (Z.ones 8). apply Z.land_ones. lia. Qed.

Lemma upper_bytes (w : Z) :
  Z.land (Z.shiftr w 8) 0x00ffffff = (w / 256) mod 2 ^ 24.
Proof.
  change 0x00ffffff with (Z.ones 24).
  rewrite Z.land_ones, Z.shiftr_div_pow2 by lia. reflexivity.
Qed.

(** The first word of a record read as one type byte and three class
    bytes. *)
Lemma word0_bytes (buf : list byte) (off : Z) :
  0 <= off -> off + 4 <= Z.of_nat (length buf) ->
  let w := le_uint (read buf off 4) in
  w mod 256 = le_uint (read buf off 1)
  /\ (w / 256) mod 2 ^ 24 = le_uint (read buf (off + 1) 3).
Proof.
  intros Ho Hl w. subst w.
  change (read buf off 4) with (read buf off (1 + 3)).
  rewrite read_split, le_uint_app by lia.
  rewrite length_read by lia.
  pose proof (le_uint_bound (read buf off 1)) as H1.
  pose proof (le_uint_bound (read buf (off + 1) 3)) as H3.
  rewrite length_read in H1, H3 by lia.
  change (256 ^ Z.of_nat (Z.to_nat 1)) with 256 in *.
  change (256 ^ Z.of_nat (Z.to_nat 3)) with 16777216 in *.
  change (2 ^ 24) with 16777216.
  Z.to_euclidean_division_equations. lia.
Qed.

End PackUnpack.

Section PackUnpackRoundTrip.
Import Struct FfffElement Spec.

(** What [unpack] makes of the five words of a record. *)
Lemma unpack_words (e0 : FfffElement) (buf : list byte) (offset off : Z) :
  window buf offset 20 = Ok off ->
  let w0 := le_uint (read buf off 4) in
  exists e' eot,
    unpack e0 buf offset = Ok (e', eot)
    /\ fields_of e'
       = (w0 mod 256, (w0 / 256) mod 2 ^ 24,
          le_uint (read buf (off + 4) 4), le_uint (read buf (off + 8) 4),
          le_uint (read buf (off + 12) 4), le_uint (read buf (off + 16) 4))
    /\ eot = (w0 mod 256 =? FFFF_ELEMENT_END_OF_ELEMENT_TABLE).
Proof.
  intros Hw w0. unfold unpack, unpack_from_5L. rewrite Hw.
  cbn [mbind result_bind Py.bind].
  fold w0. rewrite low_byte, upper_bytes.
  cbn [set_fields element_type].
  destruct (w0 mod 256 =? FFFF_ELEMENT_END_OF_ELEMENT_TABLE) eqn:E;
    cbn [negb]; eexists; eexists; (split; [reflexivity|]);
    split; reflexivity.
Qed.

Lemma pack_ok (e : FfffElement) (buf : list byte) (offset off : Z) :
  fits_widths e ->
  window buf offset 20 = Ok off ->
  pack e buf offset
  = Ok (splice buf off
          (le_bytes4 (element_class e * 256 + element_type e)
           ++ le_bytes4 (element_id e) ++ le_bytes4 (element_length e)
           ++ le_bytes4 (element_location e)
           ++ le_bytes4 (element_generation e)),
        offset + 20).
Proof.
  intros (Hty & Hcl & Hid & Hlen & Hloc & Hgen) Hw.
  unfold pack, pack_into_5L. rewrite Hw.
  cbn [mbind result_bind Py.bind].
  rewrite type_class_word by lia.
  assert (H0 : fits_L (element_class e * 256 + element_type e) = true).
  { apply fits_L_iff. change (2 ^ 24) with 16777216 in Hcl.
    change (2 ^ 32) with 4294967296. lia. }
  rewrite H0.
  rewrite (proj2 (fits_L_iff _) Hid), (proj2 (fits_L_iff _) Hlen),
    (proj2 (fits_L_iff _) Hloc), (proj2 (fits_L_iff _) Hgen).
  reflexivity.
Qed.

(** C3: a record whose fields fit their widths, packed where its twenty
    bytes fit the buffer, is unpacked from the same buffer and offset with
    its six fields unchanged; and [unpack] reads five little-endian 32-bit
    words, the low byte of the first being the type, its three upper bytes
    the class, and the next four the id, length, location and
    generation. *)
Theorem pack_unpack_roundtrip :
  (forall (e e0 : FfffElement) (buf : list byte) (offset off : Z),
      fits_widths e ->
      window buf offset 20 = Ok off ->
      exists buf' e' eot,
        pack e buf offset = Ok (buf', offset + FFFF_ELT_LENGTH)
        /\ unpack e0 buf' offset = Ok (e', eot)
        /\ fields_of e' = fields_of e)
  /\ (forall (e0 : FfffElement) (buf : list byte) (offset off : Z),
        window buf offset 20 = Ok off ->
        exists e' eot,
          unpack e0 buf offset = Ok (e', eot)
          /\ element_type e' = le_uint (read buf off 1)
          /\ element_class e' = le_uint (read buf (off + 1) 3)
          /\ element_id e' = le_uint (read buf (off + 4) 4)
          /\ element_length e' = le_uint (read buf (off + 8) 4)
          /\ element_location e' = le_uint (read buf (off + 12) 4)
          /\ element_generation e' = le_uint (read buf (off + 16) 4)
          /\ eot = (element_type e' =? FFFF_ELEMENT_END_OF_ELEMENT_TABLE)).
Proof.
  split.
  - intros e e0 buf offset off Hfit Hw.
    pose proof (window_ok _ _ _ _ Hw) as (Ho & Hl & _).
    rewrite (pack_ok e buf offset off Hfit Hw).
    set (bs := (le_bytes4 _ ++ _)%list).
    assert (Hlen : length (splice buf off bs) = length buf).
    { apply length_splice; [lia|]. subst bs. cbn [length app le_bytes4]. lia. }
    assert (Hw' : window (splice buf off bs) offset 20 = Ok off).
    { rewrite (window_same_length buf) by exact Hlen. exact Hw. }
    destruct (unpack_words e0 _ _ _ Hw') as (e' & eot & Hu & Hf & _).
    exists (splice buf off bs), e', eot.
    split; [reflexivity|]. split; [exact Hu|].
    rewrite Hf. clear Hu Hf Hw'.
    assert (Hrd : forall i v,
               0 <= i -> i + 4 <= 20 ->
               take 4 (drop (Z.to_nat i) bs) = le_bytes4 v ->
               le_uint (read (splice buf off bs) (off + i) 4)
               = le_uint (le_bytes4 v)).
    { intros i v Hi Hi' Hb. rewrite read_splice; try lia.
      - change (Z.to_nat 4) with 4%nat. rewrite Hb. reflexivity.
      - subst bs. cbn [length app le_bytes4]. lia.
      - subst bs. cbn [length app le_bytes4]. lia. }
    destruct Hfit as (Hty & Hcl & Hid & Hlen' & Hloc & Hgen).
    change (2 ^ 24) with 16777216 in *. change (2 ^ 32) with 4294967296 in *.
    replace (read (splice buf off bs) off 4)
      with (read (splice buf off bs) (off + 0) 4) by (f_equal; lia).
    rewrite (Hrd 0 (element_class e * 256 + element_type e)),
      (Hrd 4 (element_id e)), (Hrd 8 (element_length e)),
      (Hrd 12 (element_location e)), (Hrd 16 (element_generation e))
      by (lia || reflexivity).
    rewrite !le_uint_bytes4 by (change (2 ^ 32) with 4294967296; lia).
    unfold fields_of. repeat f_equal.
    + Z.to_euclidean_division_equations; lia.
    + Z.to_euclidean_division_equations; lia.
  - intros e0 buf offset off Hw.
    pose proof (window_ok _ _ _ _ Hw) as (Ho & Hl & _).
    destruct (unpack_words e0 _ _ _ Hw) as (e' & eot & Hu & Hf & He).
    exists e', eot. split; [exact Hu|].
    destruct (word0_bytes buf off) as [Hb0 Hb1]; [lia|lia|].
    cbv zeta in Hb0, Hb1. rewrite Hb0, Hb1 in Hf.
    unfold fields_of in Hf. injection Hf as H1 H2 H3 H4 H5 H6.
    repeat (split; [assumption|]).
    rewrite He, Hb0, H1. reflexivity.
Qed.

End PackUnpackRoundTrip.

(** ** Element records: validation *)

Section Validate.
Import FfffElement Spec.

Lemma block_aligned_iff (location block_size : Z) :
  Util.block_aligned location block_size = true
  <-> (block_size | location).
Proof.
  unfold Util.block_aligned. rewrite Z.eqb_eq.
  destruct (Z.eq_dec block_size 0) as [->|Hnz].
  - rewrite Z.mod_0_r. split.
    + intros ->. apply Z.divide_0_r.
    + intros H. apply Z.divide_0_l in H. exact H.
  - apply Z.mod_divide. exact Hnz.
Qed.

(** C4: for an element that is not the end-of-table marker, [validate]
    sets each of the three flags from its own check, whatever the other
    two give, and returns their conjunction: in range is
    [range_low <= location < range_high], aligned is that the location is
    a multiple of the erase-block size, and a valid type is one from 1 to
    5, so that every type from 6 to 0xfd is invalid. *)
Theorem validate_three_checks (e : FfffElement) (range_low range_high : Z) :
  element_type e <> FFFF_ELEMENT_END_OF_ELEMENT_TABLE ->
  exists e' diagnostics,
    validate e range_low range_high
    = (in_range e' && aligned e' && valid_type e', e', diagnostics)
    /\ (in_range e' = true
        <-> range_low <= element_location e < range_high)
    /\ (aligned e' = true
        <-> (erase_block_size e | element_location e))
    /\ (valid_type e' = true <-> 1 <= element_type e <= 5)
    /\ (6 <= element_type e <= 0xfd -> valid_type e' = false)
    /\ fields_of e' = fields_of e
    /\ collisions e' = collisions e /\ duplicates e' = duplicates e.
Proof.
  intros Hne. unfold validate.
  destruct (element_type e =? FFFF_ELEMENT_END_OF_ELEMENT_TABLE) eqn:E;
    [apply Z.eqb_eq in E; contradiction|].
  eexists. eexists. split; [reflexivity|].
  cbn [set_valid_type set_aligned set_in_range in_range aligned valid_type
         element_location element_type erase_block_size fields_of
         element_class element_id element_length element_generation
         collisions duplicates].
  unfold FFFF_ELEMENT_STAGE2_FIRMWARE_PACKAGE, FFFF_ELEMENT_DATA.
  split; [|split; [|split; [|split; [|repeat split]]]].
  - rewrite andb_true_iff, Z.geb_le, Z.ltb_lt. reflexivity.
  - apply block_aligned_iff.
  - rewrite andb_true_iff, Z.geb_le, Z.leb_le. reflexivity.
  - intros [H1 H2]. apply andb_false_iff. right.
    apply Z.leb_gt. lia.
Qed.

(** C5: the end-of-table marker always validates: [validate] returns true
    and sets the three flags, whatever the other fields and the range
    are. *)
Theorem validate_end_of_table (e : FfffElement) (range_low range_high : Z) :
  element_type e = FFFF_ELEMENT_END_OF_ELEMENT_TABLE ->
  exists e',
    validate e range_low range_high = (true, e', [])
    /\ in_range e' = true /\ aligned e' = true /\ valid_type e' = true
    /\ fields_of e' = fields_of e.
Proof.
  intros He. unfold validate. rewrite He, Z.eqb_refl.
  eexists. split; [reflexivity|].
  repeat split; reflexivity.
Qed.

(** The collision test of [validate_against]. *)
Lemma validate_against_collisions (a b : FfffElement) :
  collisions (validate_against a b)
  = if (element_location b + element_length b - 1 >=? element_location a)
       && (element_location b
           <=? element_location a + element_length a - 1)
    then (collisions a ++ [index b])%list
    else collisions a.
Proof.
  unfold validate_against.
  destruct (_ && _); cbn [element_type element_id element_generation
                            set_collisions];
    destruct (_ && _); reflexivity.
Qed.

Lemma app_one_neq {A} (l : list A) (x : A) : (l ++ [x])%list <> l.
Proof.
  intros H. apply (f_equal (@length A)) in H.
  rewrite length_app in H. cbn in H. lia.
Qed.

Lemma collision_test_iff (a b : FfffElement) :
  collisions (validate_against a b) = (collisions a ++ [index b])%list
  <-> element_location a <= element_location b + element_length b - 1
      /\ element_location b <= element_location a + element_length a - 1.
Proof.
  rewrite validate_against_collisions.
  destruct (_ && _) eqn:E.
  - apply andb_true_iff in E as [E1 E2].
    apply Z.geb_le in E1. apply Z.leb_le in E2. tauto.
  - split.
    + intros H. symmetry in H. apply app_one_neq in H. contradiction.
    + intros [H1 H2]. apply andb_false_iff in E as [E|E].
      * apply Z.geb_le in H1. congruence.
      * apply Z.leb_le in H2. congruence.
Qed.

(** C6, as the code has it: spans that share a byte are always recorded
    as a collision, and between two elements of at least one byte a
    collision is recorded exactly when the closed spans
    [[location, location + length - 1]] share a byte; spans [[10, 20)] and
    [[15, 25)] collide, the abutting [[10, 20)] and [[20, 30)] do not. *)
Theorem collision_iff_spans_intersect :
  (forall a b : FfffElement,
      spans_intersect a b ->
      collisions (validate_against a b)
      = (collisions a ++ [index b])%list)
  /\ (forall a b : FfffElement,
        1 <= element_length a -> 1 <= element_length b ->
        (collisions (validate_against a b)
         = (collisions a ++ [index b])%list
         <-> spans_intersect a b))
  /\ collisions (validate_against (span_element 0 10 10)
                   (span_element 1 15 10)) = [1]
  /\ collisions (validate_against (span_element 1 15 10)
                   (span_element 0 10 10)) = [0]
  /\ collisions (validate_against (span_element 0 10 10)
                   (span_element 1 20 10)) = []
  /\ collisions (validate_against (span_element 1 20 10)
                   (span_element 0 10 10)) = [].
Proof.
  split; [|split].
  - intros a b (x & Ha & Hb). apply collision_test_iff.
    unfold in_span in *. lia.
  - intros a b Hla Hlb. rewrite collision_test_iff. split.
    + intros [H1 H2].
      exists (Z.max (element_location a) (element_location b)).
      unfold in_span. lia.
    + intros (x & Ha & Hb). unfold in_span in *. lia.
  - repeat split; reflexivity.
Qed.

(** C6 as stated fails: an empty span lying inside another span shares no
    byte with it, yet the collision is recorded. *)
Lemma collision_iff_spans_intersect_fails :
  ~ (forall a b : FfffElement,
        collisions (validate_against a b)
        = (collisions a ++ [index b])%list
        <-> spans_intersect a b).
Proof.
  intros H.
  destruct (H (span_element 0 10 0) (span_element 1 5 16)) as [H1 _].
  destruct (H1 eq_refl) as (x & Ha & _).
  unfold in_span in Ha. cbn in Ha. lia.
Qed.

(** C7: [validate_against] appends the index of the other element to the
    duplicate list exactly when type, id and generation are equal,
    whatever the locations and lengths are; otherwise the list is
    unchanged. *)
Theorem duplicate_iff_same_identity (a b : FfffElement) :
  (duplicates (validate_against a b) = (duplicates a ++ [index b])%list
   <-> element_type a = element_type b
       /\ element_id a = element_id b
       /\ element_generation a = element_generation b)
  /\ (duplicates (validate_against a b) = (duplicates a ++ [index b])%list
      \/ duplicates (validate_against a b) = duplicates a).
Proof.
  unfold validate_against.
  set (a' := if _ && _ then _ else a).
  assert (Ha' : element_type a' = element_type a
                /\ element_id a' = element_id a
                /\ element_generation a' = element_generation a
                /\ duplicates a' = duplicates a).
  { subst a'. destruct (_ && _); repeat split; reflexivity. }
  destruct Ha' as (-> & -> & -> & Hd).
  destruct ((element_type a =? element_type b)
            && (element_id a =? element_id b)
            && (element_generation a =? element_generation b)) eqn:E.
  - apply andb_true_iff in E as [E E3]. apply andb_true_iff in E as [E1 E2].
    apply Z.eqb_eq in E1, E2, E3.
    cbn [duplicates set_duplicates]. rewrite Hd. tauto.
  - rewrite Hd. split; [|right; reflexivity]. split.
    + intros H. symmetry in H. apply app_one_neq in H. contradiction.
    + intros (H1 & H2 & H3). apply Z.eqb_eq in H1, H2, H3.
      rewrite H1, H2, H3 in E. discriminate.
Qed.

(** C10: two elements of length zero never collide, wherever they are,
    even at the same location: the end of an empty span precedes its
    start. *)
Theorem zero_length_never_collide (a b : FfffElement) :
  element_length a = 0 -> element_length b = 0 ->
  collisions (validate_against a b) = collisions a.
Proof.
  intros Ha Hb. rewrite validate_against_collisions, Ha, Hb.
  destruct (_ && _) eqn:E; [|reflexivity].
  apply andb_true_iff in E as [E1 E2].
  apply Z.geb_le in E1. apply Z.leb_le in E2. lia.
Qed.

End Validate.

(** ** The helpers of [util.py] and [ffff.py] against the words of the
    specification *)

Section Helpers.
Import Spec.

Lemma is_power_of_2_iff (x : Z) :
  Util.is_power_of_2 x = true <-> power_of_two x.
Proof.
  unfold Util.is_power_of_2, power_of_two.
  rewrite andb_true_iff, Z.ltb_lt, Z.eqb_eq. split.
  - intros [_ Hx]. exists (Z.log2 x). split; [apply Z.log2_nonneg|exact Hx].
  - intros (k & Hk & ->). split.
    + apply Z.pow_pos_nonneg; lia.
    + rewrite Z.log2_pow2 by exact Hk. reflexivity.
Qed.

Lemma power_of_two_pos (x : Z) : power_of_two x -> 1 <= x.
Proof.
  intros (k & Hk & ->).
  pose proof (Z.pow_pos_nonneg 2 k ltac:(lia) Hk). lia.
Qed.

Lemma header_block_search_spec (fuel : nat) (size header_size : Z) :
  1 <= size ->
  header_size <= size * 2 ^ Z.of_nat fuel ->
  exists k,
    0 <= k
    /\ Ffff.header_block_search fuel size header_size = size * 2 ^ k
    /\ header_size <= size * 2 ^ k
    /\ (forall j, 0 <= j < k -> size * 2 ^ j < header_size).
Proof.
  revert size. induction fuel as [|fuel IH]; intros size Hs Hh.
  - exists 0. cbn [Ffff.header_block_search].
    change (2 ^ Z.of_nat 0) with 1 in Hh. change (2 ^ 0) with 1.
    repeat split; try lia.
  - cbn [Ffff.header_block_search].
    destruct (size <? header_size) eqn:E.
    + apply Z.ltb_lt in E.
      destruct (IH (2 * size)) as (k & Hk & Hr & Hge & Hmin); [lia| |].
      { rewrite Nat2Z.inj_succ, Z.pow_succ_r in Hh by lia. lia. }
      exists (k + 1).
      rewrite Z.pow_add_r by lia. change (2 ^ 1) with 2.
      repeat split; try lia.
      intros j Hj. destruct (Z.eq_dec j 0) as [->|Hj0].
      * change (2 ^ 0) with 1. lia.
      * specialize (Hmin (j - 1) ltac:(lia)).
        replace j with (j - 1 + 1) by lia.
        rewrite Z.pow_add_r by lia. change (2 ^ 1) with 2. lia.
    + apply Z.ltb_ge in E. exists 0. change (2 ^ 0) with 1.
      repeat split; try lia.
Qed.

(** [get_header_block_size] is the smallest power-of-two multiple of the
    erase-block size that is at least the header size. *)
Lemma get_header_block_size_spec (erase_block_size header_size : Z) :
  1 <= erase_block_size ->
  exists k,
    0 <= k
    /\ Ffff.get_header_block_size erase_block_size header_size
       = erase_block_size * 2 ^ k
    /\ header_size <= erase_block_size * 2 ^ k
    /\ (forall j, 0 <= j < k -> erase_block_size * 2 ^ j < header_size).
Proof.
  intros He. apply header_block_search_spec; [exact He|].
  rewrite Z2Nat.id by apply Z.log2_up_nonneg.
  assert (Hp : header_size <= 2 ^ Z.log2_up header_size).
  { destruct (Z.le_gt_cases header_size 1) as [Hle|Hgt].
    - rewrite Z.log2_up_eqn0 by exact Hle. change (2 ^ 0) with 1. exact Hle.
    - apply Z.log2_up_spec. lia. }
  assert (0 < 2 ^ Z.log2_up header_size)
    by (apply Z.pow_pos_nonneg; [lia|apply Z.log2_up_nonneg]).
  nia.
Qed.

Lemma get_header_block_size_pos (erase_block_size header_size : Z) :
  1 <= erase_block_size ->
  1 <= Ffff.get_header_block_size erase_block_size header_size.
Proof.
  intros He.
  destruct (get_header_block_size_spec erase_block_size header_size He)
    as (k & Hk & -> & _ & _).
  pose proof (Z.pow_pos_nonneg 2 k ltac:(lia) Hk). nia.
Qed.

End Helpers.

(** ** The ROM image: [init] *)

(** Runs the sequencing of a method. *)
Ltac run_method :=
  unfold mbind, mret, FfffRomimage.M_bind, FfffRomimage.M_ret,
    FfffRomimage.seq, FfffRomimage.lift, FfffRomimage.raise,
    FfffRomimage.ret, FfffRomimage.update, FfffRomimage.update_globals,
    FfffRomimage.update_world, FfffRomimage.get.

Section Init.
Import FfffElement FfffRomimage Spec.
Context `{HB : Ffff.HeaderBlock} `{MC : Machine}.

Lemma init_rejects_iff (erase_block_size image_length header_size : Z) :
  init_rejects erase_block_size image_length header_size = true
  <-> header_size < 512 \/ header_size > 32768
      \/ ~ power_of_two erase_block_size
      \/ ~ (erase_block_size | image_length).
Proof.
  unfold init_rejects, FFFF_HEADER_SIZE_MIN, FFFF_HEADER_SIZE_MAX.
  rewrite !orb_true_iff, !negb_true_iff, Z.ltb_lt, Z.gtb_gt.
  rewrite <- (is_power_of_2_iff erase_block_size).
  rewrite <- not_true_iff_false.
  destruct (Util.is_power_of_2 erase_block_size) eqn:Ep.
  - apply is_power_of_2_iff, power_of_two_pos in Ep.
    rewrite <- Z.mod_divide by lia. rewrite Z.eqb_neq.
    intuition congruence.
  - intuition congruence.
Qed.

Lemma init_rejected (name : string)
    (capacity erase_block_size image_length generation header_size : Z)
    (s : State) :
  init_rejects erase_block_size image_length header_size = true ->
  exists msg,
    init name capacity erase_block_size image_length generation
      header_size s = (Raise (ValueError msg), s).
Proof.
  unfold init_rejects, init. intros H.
  destruct ((header_size <? FFFF_HEADER_SIZE_MIN)
            || (header_size >? FFFF_HEADER_SIZE_MAX)) eqn:E1;
    [eexists; reflexivity|].
  destruct (Util.is_power_of_2 erase_block_size) eqn:E2;
    [|eexists; reflexivity].
  cbn [orb negb] in H |- *.
  apply is_power_of_2_iff, power_of_two_pos in E2.
  unfold py_mod. destruct (erase_block_size =? 0) eqn:E0;
    [apply Z.eqb_eq in E0; lia|].
  run_method. rewrite H. eexists; reflexivity.
Qed.

(** [bytearray] returns exactly for a length that can be allocated, and
    then gives that many zero bytes. *)
Lemma bytearray_allocatable (n : Z) :
  allocatable n -> bytearray n = Ok (replicate (Z.to_nat n) x00).
Proof.
  unfold allocatable, bytearray, maxsize. intros [[H0 H1] H2].
  destruct (Z.ltb_spec n (- (2 ^ 63 - 1) - 1)); [lia|].
  destruct (Z.ltb_spec (2 ^ 63 - 1) n); [lia|]. cbn [orb].
  destruct (Z.ltb_spec n 0); [lia|].
  destruct (Z.ltb_spec (Z.of_N available) n); [lia|]. reflexivity.
Qed.

Lemma bytearray_ok_iff (n : Z) :
  is_ok (bytearray n) = true <-> allocatable n.
Proof.
  split.
  - unfold allocatable, bytearray, maxsize.
    destruct (Z.ltb_spec n (- (2 ^ 63 - 1) - 1)); [discriminate|].
    destruct (Z.ltb_spec (2 ^ 63 - 1) n); [discriminate|]. cbn [orb].
    destruct (Z.ltb_spec n 0); [discriminate|].
    destruct (Z.ltb_spec (Z.of_N available) n); [discriminate|].
    intros _. lia.
  - intros H. rewrite (bytearray_allocatable n H). reflexivity.
Qed.

(** [init] past the three checks: the characteristics and the element
    window are stored, and then the buffer is asked for. *)
Lemma init_passed (name : string)
    (capacity erase_block_size image_length generation header_size : Z)
    (s : State) :
  init_rejects erase_block_size image_length header_size = false ->
  let hbs := Ffff.get_header_block_size erase_block_size header_size in
  init name capacity erase_block_size image_length generation
    header_size s
  = match bytearray image_length with
    | Ok buf =>
        (Ok true,
         mkState
           (mkRomimage header_size
              (Some (Ffff.__init__ 0 (Some name) capacity erase_block_size
                       image_length generation header_size))
              (Some (Ffff.__init__ hbs (Some name) capacity
                       erase_block_size image_length generation
                       header_size))
              (Some buf)
              (Some name) capacity erase_block_size image_length
              generation (2 * hbs) image_length
              (timestamp (self s)) (reserved (self s)))
           (globals s) (world s))
    | Raise e =>
        (Raise e,
         mkState
           (mkRomimage header_size (ffff0 (self s)) (ffff1 (self s))
              (ffff_buf (self s))
              (Some name) capacity erase_block_size image_length
              generation (2 * hbs) image_length
              (timestamp (self s)) (reserved (self s)))
           (globals s) (world s))
    end.
Proof.
  intros H. cbv zeta. unfold init_rejects, init in *.
  apply orb_false_iff in H as [H H3].
  apply orb_false_iff in H as [H H2].
  rewrite H. apply negb_false_iff in H2. rewrite H2. cbn [negb].
  apply is_power_of_2_iff, power_of_two_pos in H2.
  unfold py_mod.
  destruct (erase_block_size =? 0) eqn:E0;
    [apply Z.eqb_eq in E0; lia|].
  run_method. rewrite H3.
  destruct (bytearray image_length); reflexivity.
Qed.

Lemma init_accepted (name : string)
    (capacity erase_block_size image_length generation header_size : Z)
    (s : State) :
  init_rejects erase_block_size image_length header_size = false ->
  allocatable image_length ->
  let hbs := Ffff.get_header_block_size erase_block_size header_size in
  init name capacity erase_block_size image_length generation
    header_size s
  = (Ok true,
     mkState
       (mkRomimage header_size
          (Some (Ffff.__init__ 0 (Some name) capacity erase_block_size
                   image_length generation header_size))
          (Some (Ffff.__init__ hbs (Some name) capacity erase_block_size
                   image_length generation header_size))
          (Some (replicate (Z.to_nat image_length) x00))
          (Some name) capacity erase_block_size image_length generation
          (2 * hbs) image_length
          (timestamp (self s)) (reserved (self s)))
       (globals s) (world s)).
Proof.
  intros H Hlen. cbv zeta.
  rewrite (init_passed name capacity erase_block_size image_length
             generation header_size s H).
  rewrite (bytearray_allocatable image_length Hlen). reflexivity.
Qed.

(** C8, as the code has it: [init] raises when the header size is below
    512 or above 32768, or the erase-block size is not a power of two, or
    the image length is not a multiple of the erase-block size, with a
    [ValueError] and the ROM image as it was; it raises exactly when one
    of these holds or a buffer of [image_length] bytes cannot be
    allocated, the length being negative, too large for an index, or more
    than the allocator has; whenever it raises, the buffer and the headers
    are as before, so that a fresh ROM image has none; otherwise it
    returns true with a buffer of [image_length] zero bytes and two
    headers at offsets 0 and [header_block_size]. *)
Theorem init_checks (name : string)
    (capacity erase_block_size image_length generation header_size : Z)
    (s : State) :
  let out := init name capacity erase_block_size image_length generation
               header_size s in
  let rejected :=
    header_size < 512 \/ header_size > 32768
    \/ ~ power_of_two erase_block_size
    \/ ~ (erase_block_size | image_length) in
  (rejected -> exists msg, out = (Raise (ValueError msg), s))
  /\ (is_ok (fst out) = false
      <-> rejected \/ ~ allocatable image_length)
  /\ (is_ok (fst out) = false ->
      ffff_buf (self (snd out)) = ffff_buf (self s)
      /\ ffff0 (self (snd out)) = ffff0 (self s)
      /\ ffff1 (self (snd out)) = ffff1 (self s)
      /\ world (snd out) = world s
      /\ (self s = __init__ ->
          ffff_buf (self (snd out)) = None
          /\ ffff0 (self (snd out)) = None
          /\ ffff1 (self (snd out)) = None))
  /\ (is_ok (fst out) = true ->
      fst out = Ok true
      /\ ffff_buf (self (snd out))
         = Some (replicate (Z.to_nat image_length) x00)
      /\ Z.of_nat (length (replicate (Z.to_nat image_length) x00))
         = image_length
      /\ exists h0 h1,
          ffff0 (self (snd out)) = Some h0
          /\ ffff1 (self (snd out)) = Some h1
          /\ Ffff.header_offset h0 = 0
          /\ Ffff.header_offset h1
             = Ffff.get_header_block_size erase_block_size header_size
          /\ Ffff.elements h0 = [] /\ Ffff.elements h1 = []).
Proof.
  intros out rejected. subst out rejected.
  rewrite <- init_rejects_iff.
  destruct (init_rejects erase_block_size image_length header_size) eqn:E.
  - destruct (init_rejected name capacity erase_block_size image_length
                generation header_size s E) as [msg ->].
    cbn [fst snd is_ok].
    split; [intros _; exists msg; reflexivity|].
    split; [split; [intros _; left; reflexivity|reflexivity]|].
    split; [|discriminate].
    intros _. do 4 (split; [reflexivity|]). intros ->. repeat split.
  - rewrite (init_passed name capacity erase_block_size image_length
               generation header_size s E).
    split; [discriminate|].
    pose proof (bytearray_ok_iff image_length) as Hok.
    destruct (bytearray image_length) as [buf|e] eqn:Eb;
      cbn [fst snd is_ok self ffff_buf ffff0 ffff1 world] in *.
    + assert (Hlen : allocatable image_length) by (apply Hok; reflexivity).
      rewrite (bytearray_allocatable image_length Hlen) in Eb.
      injection Eb as <-.
      split; [split; [discriminate|]|].
      { intros [H|H]; [discriminate|contradiction]. }
      split; [discriminate|].
      intros _. split; [reflexivity|]. split; [reflexivity|].
      split; [rewrite length_replicate; destruct Hlen; lia|].
      eexists. eexists. repeat split.
    + split; [split; [intros _; right|reflexivity]|].
      { intros H. apply Hok in H. discriminate. }
      split; [|discriminate].
      intros _. do 4 (split; [reflexivity|]). intros ->. repeat split.
Qed.

(** C8 as stated fails: a negative image length that is a multiple of the
    erase-block size passes the three checks, and [init] raises all the
    same, from [bytearray]. *)
Lemma init_checks_fails :
  is_ok (fst (init (HB := Ffff.plain_header) (MC := small_machine) "img"
                8192 4096 (-4096) 0 4096 (fresh_state "a" []))) = false
  /\ ~ (4096 < 512 \/ 4096 > 32768 \/ ~ power_of_two 4096
        \/ ~ (4096 | -4096)).
Proof.
  split; [reflexivity|].
  intros [H|[H|[H|H]]]; try lia.
  - apply H. exists 12. split; [lia|reflexivity].
  - apply H. exists (-1). reflexivity.
Qed.

(** On the build path the element window is
    [[2 * header_block_size, image_length)]. *)
Lemma init_element_window (name : string)
    (capacity erase_block_size image_length generation header_size : Z)
    (s s' : State) :
  init name capacity erase_block_size image_length generation
    header_size s = (Ok true, s') ->
  element_location_min (self s') = 2 * get_header_block_size (self s')
  /\ element_location_max (self s') = flash_image_length (self s')
  /\ flash_image_length (self s') = image_length.
Proof.
  intros H.
  destruct (init_rejects erase_block_size image_length header_size) eqn:E.
  - destruct (init_rejected name capacity erase_block_size image_length
                generation header_size s E) as [msg Hr].
    rewrite Hr in H. discriminate.
  - rewrite (init_passed name capacity erase_block_size image_length
               generation header_size s E) in H.
    destruct (bytearray image_length); [|discriminate].
    injection H as <-. repeat split.
Qed.

End Init.

(** ** The ROM image: [write] *)

Section Write.
Import FfffElement FfffRomimage Spec.

Lemma validity_gate (h : option Ffff.Ffff) :
  {reports_valid h} + {~ reports_valid h}.
Proof.
  destruct h as [hdr|].
  - destruct (Z.eq_dec (Ffff.header_validity hdr) FFFF_HDR_VALID) as [E|E].
    + left. exists hdr. split; [reflexivity|exact E].
    + right. intros (hdr' & [= <-] & Hv). contradiction.
  - right. intros (hdr' & [=] & _).
Qed.

(** [write] when a header does not report [VALID]: it raises and nothing
    has changed. *)
Lemma write_refused (path : string) (s : State) :
  ~ (reports_valid (ffff0 (self s)) /\ reports_valid (ffff1 (self s))) ->
  exists e, write path s = (Raise e, s).
Proof.
  intros Hnot. unfold write, validity_of. run_method.
  destruct (ffff0 (self s)) as [h0|] eqn:E0; [|eexists; reflexivity].
  destruct (Ffff.header_validity h0 =? FFFF_HDR_VALID) eqn:V0;
    cbn [negb]; [|eexists; reflexivity].
  destruct (ffff1 (self s)) as [h1|] eqn:E1; [|eexists; reflexivity].
  destruct (Ffff.header_validity h1 =? FFFF_HDR_VALID) eqn:V1;
    cbn [negb]; [|eexists; reflexivity].
  exfalso. apply Hnot. apply Z.eqb_eq in V0, V1.
  split; eexists; (split; [reflexivity|assumption]).
Qed.

(** [write] past the gate: the file is opened, written and reported. *)
Lemma write_passed (path : string) (s : State) :
  reports_valid (ffff0 (self s)) -> reports_valid (ffff1 (self s)) ->
  let name := written_name path in
  write path s
  = if bool_decide (name ∈ readonly (world s))
    then (Raise (IOError ("cannot open " +:+ name)), s)
    else
      match ffff_buf (self s) with
      | Some buf =>
          (Ok true,
           mkState (self s) (globals s)
             (mkWorld (<[name := buf]> (<[name := []]> (files (world s))))
                (readonly (world s))
                (stdout (world s) ++ ["Wrote " +:+ name])))
      | None =>
          (Raise (TypeError "write: no buffer"),
           mkState (self s) (globals s)
             (mkWorld (<[name := []]> (files (world s)))
                (readonly (world s)) (stdout (world s))))
      end.
Proof.
  intros (h0 & E0 & V0) (h1 & E1 & V1) name.
  unfold write, validity_of, open_wb, file_write, print. run_method.
  rewrite E0, E1, V0, V1. cbn [negb Z.eqb FFFF_HDR_VALID].
  fold (written_name path). fold name.
  destruct (bool_decide (name ∈ readonly (world s))); [reflexivity|].
  cbn [self globals world]. destruct (ffff_buf (self s)); reflexivity.
Qed.

(** C1: [write] returns only when both headers report [VALID]; with a
    header that does not, it raises and nothing has changed; it never
    changes the buffer and the headers; and with both headers [VALID] and
    a file that can be opened, it writes the whole buffer to the file and
    returns true. *)
Theorem write_gate (path : string) (s : State) :
  let out := write path s in
  (is_ok (fst out) = true ->
   reports_valid (ffff0 (self s)) /\ reports_valid (ffff1 (self s)))
  /\ (~ (reports_valid (ffff0 (self s))
         /\ reports_valid (ffff1 (self s))) ->
      is_ok (fst out) = false /\ snd out = s)
  /\ self (snd out) = self s
  /\ (reports_valid (ffff0 (self s)) ->
      reports_valid (ffff1 (self s)) ->
      forall buf,
        ffff_buf (self s) = Some buf ->
        written_name path ∉ readonly (world s) ->
        fst out = Ok true
        /\ files (world (snd out)) !! written_name path = Some buf
        /\ (forall other, other <> written_name path ->
              files (world (snd out)) !! other
              = files (world s) !! other)).
Proof.
  intros out. subst out.
  destruct (validity_gate (ffff0 (self s))) as [V0|V0];
    [destruct (validity_gate (ffff1 (self s))) as [V1|V1]|].
  - rewrite (write_passed path s V0 V1). cbv zeta.
    split; [intros _; split; assumption|].
    split; [intros H; exfalso; apply H; split; assumption|].
    split.
    + destruct (bool_decide _); [reflexivity|].
      destruct (ffff_buf (self s)); reflexivity.
    + intros _ _ buf Hbuf Hrw.
      rewrite bool_decide_eq_false_2 by exact Hrw. rewrite Hbuf.
      cbn [fst snd world files]. split; [reflexivity|]. split.
      * apply lookup_insert_eq.
      * intros other Hne. rewrite !lookup_insert_ne by congruence.
        reflexivity.
  - destruct (write_refused path s) as [e ->]; [tauto|].
    cbn [fst snd is_ok]. repeat split; try discriminate; tauto.
  - destruct (write_refused path s) as [e ->]; [tauto|].
    cbn [fst snd is_ok]. repeat split; try discriminate; tauto.
Qed.

End Write.

(** ** The ROM image: parsing a file *)

Section Parse.
Import FfffElement FfffRomimage Spec.

(** What a run of [get_romimage_characteristics] that returns has
    established. *)
Lemma characteristics_ok (s s' : State) :
  get_romimage_characteristics s = (Ok tt, s') ->
  exists buf fp,
    ffff_buf (self s) = Some buf
    /\ Struct.unpack_from_fixed_part buf = Ok fp
    /\ header_size (self s') = Struct.fp_header_size fp
    /\ flash_capacity (self s') = Struct.fp_flash_capacity fp
    /\ erase_block_size (self s') = Struct.fp_erase_block_size fp
    /\ flash_image_length (self s') = Struct.fp_flash_image_length fp
    /\ g_FFFF_HDR_OFF_TAIL_SENTINEL (globals s')
       = header_size (self s') - 16
    /\ power_of_two (erase_block_size (self s'))
    /\ element_location_min (self s')
       = 2 * get_header_block_size (self s')
    /\ element_location_max (self s') = flash_capacity (self s')
    /\ ffff_buf (self s') = ffff_buf (self s)
    /\ ffff0 (self s') = ffff0 (self s)
    /\ ffff1 (self s') = ffff1 (self s)
    /\ world s' = world s.
Proof.
  unfold get_romimage_characteristics, the_buffer,
    recalculate_header_offsets.
  run_method. intros H.
  destruct (ffff_buf (self s)) as [buf|] eqn:Eb; [|discriminate].
  destruct (Struct.unpack_from_fixed_part buf) as [fp|] eqn:Ef;
    [|discriminate].
  cbn [self globals world set_timestamp set_characteristics set_reserved
         header_size erase_block_size flash_image_length] in H.
  destruct (Struct.unpack_from_16s buf _) as [tail|]; [|discriminate].
  destruct (negb (String.eqb (Struct.fp_sentinel fp) FFFF_SENTINEL));
    [discriminate|].
  destruct (negb (String.eqb (Struct.fp_sentinel fp) tail) && _);
    [discriminate|].
  cbv beta in H.
  cbn [self globals world set_timestamp set_characteristics set_reserved
         header_size erase_block_size flash_image_length] in H.
  destruct (Util.is_power_of_2 (Struct.fp_erase_block_size fp)) eqn:Ep;
    cbn [negb] in H; [|discriminate].
  destruct (py_mod _ _) as [rem|]; [|discriminate].
  destruct (negb (rem =? 0)); [discriminate|].
  inversion H; subst; clear H.
  exists buf, fp. cbn.
  rewrite Eb. apply is_power_of_2_iff in Ep.
  repeat split; assumption.
Qed.

End Parse.

Section Scan.
Import FfffElement FfffRomimage Spec.
Context `{HB : Ffff.HeaderBlock}.

Lemma seq_ok {A B} (m : M A) (k : A -> M B) (s s' : State) (b : B) :
  seq m k s = (Ok b, s') ->
  exists a s0, m s = (Ok a, s0) /\ k a s0 = (Ok b, s').
Proof.
  unfold seq. destruct (m s) as [[a|e] s0]; [|discriminate].
  intros H. exists a, s0. split; [reflexivity|exact H].
Qed.

(** What a run of [read_first_header] that returns has established. *)
Lemma read_first_header_ok (filename : string) (s s1 : State)
    (buf : list byte) :
  read_first_header filename s = (Ok buf, s1) ->
  ffff_buf (self s1) = Some buf
  /\ g_FFFF_HDR_OFF_TAIL_SENTINEL (globals s1) = header_size (self s1) - 16
  /\ power_of_two (erase_block_size (self s1))
  /\ element_location_min (self s1) = 2 * get_header_block_size (self s1)
  /\ element_location_max (self s1) = flash_capacity (self s1)
  /\ ffff1 (self s1) = ffff1 (self s)
  /\ world s1 = world s.
Proof.
  unfold read_first_header, mbind, M_bind. intros H.
  apply seq_ok in H as (buf0 & s2 & Hread & H).
  apply seq_ok in H as ([] & s3 & Hset & H).
  apply seq_ok in H as ([] & s4 & Hchar & H).
  apply seq_ok in H as ([] & s5 & Hh0 & H).
  apply seq_ok in H as (s6 & s6' & Hget & H).
  assert (Hs2 : s2 = s).
  { revert Hread. unfold read_file, mbind, M_bind, seq, get.
    destruct (files (world s) !! filename);
      [|destruct (files (world s) !! (filename +:+ FFFF_FILE_EXTENSION))];
      unfold ret, raise; congruence. }
  subst s2. unfold update in Hset, Hh0. unfold get in Hget.
  inversion Hset; subst s3; clear Hset.
  inversion Hh0; subst s5; clear Hh0.
  inversion Hget; subst s6 s6'; clear Hget.
  apply characteristics_ok in Hchar
    as (b & fp & Hb & _ & _ & _ & _ & _ & Htail & Hpow & Hmin & Hmax
        & Hbuf & _ & Hf1 & Hw).
  cbn [self globals world set_ffff_buf set_ffff0 ffff_buf ffff0 ffff1]
    in *.
  apply seq_ok in H as (h & s7 & Hun & H).
  apply seq_ok in H as ([] & s8 & Hup & H).
  unfold lift in Hun. unfold update in Hup. unfold ret in H.
  inversion Hun; subst s7; clear Hun.
  inversion Hup; subst s8; clear Hup.
  inversion H; subst; clear H.
  cbn [self globals world set_ffff0 ffff_buf ffff1 header_size
         erase_block_size element_location_min element_location_max
         flash_capacity get_header_block_size] in *.
  inversion Hb; subst b.
  repeat split; assumption.
Qed.

(** The test of a candidate whose reads lie inside the buffer. *)
Lemma candidate_reads (buf : list byte) (hs off : Z) :
  in_buffer buf hs off ->
  Struct.unpack_from_16s buf off = Ok (Struct.read_str buf off 16)
  /\ Struct.unpack_from_16s buf (off + (hs - 16))
     = Ok (Struct.read_str buf (off + (hs - 16)) 16).
Proof.
  intros (H1 & H2 & H3 & H4). unfold Struct.unpack_from_16s.
  rewrite !window_fits by lia. split; reflexivity.
Qed.

Lemma accepted_test (buf : list byte) (hs off : Z) :
  (String.eqb (Struct.read_str buf off 16) FFFF_SENTINEL
   && String.eqb (Struct.read_str buf (off + (hs - 16)) 16) FFFF_SENTINEL)
  = true
  <-> accepted buf hs off.
Proof.
  unfold accepted. rewrite andb_true_iff, !String.eqb_eq. reflexivity.
Qed.

Lemma scan_round (fuel : nat) (buf : list byte) (offset : Z) (s : State) :
  scan_second_header (S fuel) buf offset s
  = if offset <? FFFF_MAX_HEADER_BLOCK_OFFSET then
      match Struct.unpack_from_16s buf offset with
      | Raise e => Some (Raise e, s)
      | Ok nose_sentinel =>
          match Struct.unpack_from_16s buf
                  (offset + g_FFFF_HDR_OFF_TAIL_SENTINEL (globals s))
          with
          | Raise e => Some (Raise e, s)
          | Ok tail_sentinel =>
              if String.eqb nose_sentinel FFFF_SENTINEL
                 && String.eqb tail_sentinel FFFF_SENTINEL
              then Some (create_second_header buf offset s)
              else scan_second_header fuel buf (Z.shiftl offset 1) s
          end
      end
    else Some (Ok tt, s).
Proof. reflexivity. Qed.

Section Loop.
Variables (buf : list byte) (hs : Z) (s : State).
Hypothesis tail_offset :
  g_FFFF_HDR_OFF_TAIL_SENTINEL (globals s) = hs - 16.

(** The scan stops at the first accepted candidate. *)
Lemma scan_accepts (k : nat) :
  forall (fuel : nat) (off : Z),
    (k < fuel)%nat ->
    1 <= off ->
    off * 2 ^ Z.of_nat k < FFFF_MAX_HEADER_BLOCK_OFFSET ->
    in_buffer buf hs (off * 2 ^ Z.of_nat k) ->
    accepted buf hs (off * 2 ^ Z.of_nat k) ->
    (forall j, 0 <= j < Z.of_nat k ->
               in_buffer buf hs (off * 2 ^ j)
               /\ ~ accepted buf hs (off * 2 ^ j)) ->
    scan_second_header fuel buf off s
    = Some (create_second_header buf (off * 2 ^ Z.of_nat k) s).
Proof.
  induction k as [|k IH]; intros fuel off Hfuel Hoff Hmax Hin Hacc Hbefore.
  - destruct fuel as [|fuel]; [lia|].
    change (2 ^ Z.of_nat 0) with 1 in *. rewrite Z.mul_1_r in *.
    rewrite scan_round.
    apply Z.ltb_lt in Hmax. rewrite Hmax.
    destruct (candidate_reads buf hs off Hin) as [-> Ht].
    rewrite tail_offset, Ht.
    apply accepted_test in Hacc. rewrite Hacc. reflexivity.
  - destruct fuel as [|fuel]; [lia|].
    assert (Hpow : 0 < 2 ^ Z.of_nat k) by (apply Z.pow_pos_nonneg; lia).
    rewrite Nat2Z.inj_succ, Z.pow_succ_r in Hmax, Hin, Hacc by lia.
    rewrite scan_round.
    assert (Hlt : (off <? FFFF_MAX_HEADER_BLOCK_OFFSET) = true)
      by (apply Z.ltb_lt; nia).
    rewrite Hlt.
    destruct (Hbefore 0 ltac:(lia)) as [Hin0 Hno0].
    change (2 ^ 0) with 1 in Hin0, Hno0. rewrite Z.mul_1_r in Hin0, Hno0.
    destruct (candidate_reads buf hs off Hin0) as [-> Ht].
    rewrite tail_offset, Ht.
    destruct (_ && _) eqn:E; [apply accepted_test in E; contradiction|].
    rewrite Z.shiftl_mul_pow2 by lia. change (2 ^ 1) with 2.
    rewrite (Nat2Z.inj_succ k), Z.pow_succ_r by lia.
    replace (off * (2 * 2 ^ Z.of_nat k))
      with (off * 2 * 2 ^ Z.of_nat k) by lia.
    apply IH; try lia.
    + replace (off * 2 * 2 ^ Z.of_nat k)
        with (off * (2 * 2 ^ Z.of_nat k)) by lia. exact Hin.
    + replace (off * 2 * 2 ^ Z.of_nat k)
        with (off * (2 * 2 ^ Z.of_nat k)) by lia. exact Hacc.
    + intros j Hj.
      replace (off * 2 * 2 ^ j) with (off * 2 ^ (j + 1))
        by (rewrite Z.pow_add_r by lia; change (2 ^ 1) with 2; lia).
      apply Hbefore. lia.
Qed.

(** With no candidate accepted below the ceiling and every read inside
    the buffer, the scan leaves the state as it is. *)
Lemma scan_finds_none (fuel : nat) :
  forall off : Z,
    1 <= off ->
    FFFF_MAX_HEADER_BLOCK_OFFSET <= off * 2 ^ Z.of_nat fuel ->
    (forall j, 0 <= j ->
               off * 2 ^ j < FFFF_MAX_HEADER_BLOCK_OFFSET ->
               in_buffer buf hs (off * 2 ^ j)
               /\ ~ accepted buf hs (off * 2 ^ j)) ->
    scan_second_header (S fuel) buf off s = Some (Ok tt, s).
Proof.
  induction fuel as [|fuel IH]; intros off Hoff Hmax Hall.
  - change (2 ^ Z.of_nat 0) with 1 in Hmax. rewrite Z.mul_1_r in Hmax.
    cbn [scan_second_header].
    apply Z.ltb_ge in Hmax. rewrite Hmax. reflexivity.
  - rewrite scan_round.
    destruct (off <? FFFF_MAX_HEADER_BLOCK_OFFSET) eqn:Hlt;
      [|reflexivity].
    apply Z.ltb_lt in Hlt.
    destruct (Hall 0 ltac:(lia)) as [Hin0 Hno0];
      [change (2 ^ 0) with 1; lia|].
    change (2 ^ 0) with 1 in Hin0, Hno0. rewrite Z.mul_1_r in Hin0, Hno0.
    destruct (candidate_reads buf hs off Hin0) as [-> Ht].
    rewrite tail_offset, Ht.
    destruct (_ && _) eqn:E; [apply accepted_test in E; contradiction|].
    rewrite Z.shiftl_mul_pow2 by lia. change (2 ^ 1) with 2.
    apply IH; try lia.
    + rewrite Nat2Z.inj_succ, Z.pow_succ_r in Hmax by lia. lia.
    + intros j Hj Hjmax.
      replace (off * 2 * 2 ^ j) with (off * 2 ^ (j + 1)) in *
        by (rewrite Z.pow_add_r by lia; change (2 ^ 1) with 2; lia).
      apply Hall; lia.
Qed.

End Loop.

End Scan.

Section SecondHeader.
Import FfffElement FfffRomimage Spec.
Context `{HB : Ffff.HeaderBlock}.

Lemma init_from_file_scan (filename : string) (s s1 : State)
    (buf : list byte) :
  filename <> "" ->
  read_first_header filename s = (Ok buf, s1) ->
  init_from_file filename s
  = option_map finish
      (scan_second_header scan_rounds buf
         (get_header_block_size (self s1)) s1).
Proof.
  intros Hname Hread. unfold init_from_file.
  apply String.eqb_neq in Hname. rewrite Hname, Hread. cbn [negb].
  destruct (scan_second_header _ _ _ _) as [[[[]|e] s2]|]; reflexivity.
Qed.

(** The scan for the second header while its reads stay inside the
    buffer: the candidates are [header_block_size * 2 ^ k] below 512 KiB;
    while both sentinel reads of the candidates lie inside the buffer, the
    first candidate whose
    sixteen bytes at the offset and at [offset + (header_size - 16)] both
    are the sentinel becomes header 1, and when there is none below the
    ceiling [init_from_file] returns with header 1 as it was, absent for
    a fresh ROM image. *)
Theorem second_header_scan (filename : string) (s s1 : State)
    (buf : list byte) :
  filename <> "" ->
  read_first_header filename s = (Ok buf, s1) ->
  let hs := header_size (self s1) in
  let candidate k := get_header_block_size (self s1) * 2 ^ k in
  (forall k,
      0 <= k ->
      candidate k < FFFF_MAX_HEADER_BLOCK_OFFSET ->
      in_buffer buf hs (candidate k) ->
      accepted buf hs (candidate k) ->
      (forall j, 0 <= j < k ->
                 in_buffer buf hs (candidate j)
                 /\ ~ accepted buf hs (candidate j)) ->
      init_from_file filename s
      = Some (finish (create_second_header buf (candidate k) s1))
      /\ exists h1,
          ffff1 (self (snd (create_second_header buf (candidate k) s1)))
          = Some h1
          /\ (h1 = header_at (self s1) (candidate k)
              \/ Ffff.unpack buf (header_at (self s1) (candidate k))
                 = Ok h1))
  /\ ((forall j, 0 <= j ->
                 candidate j < FFFF_MAX_HEADER_BLOCK_OFFSET ->
                 in_buffer buf hs (candidate j)
                 /\ ~ accepted buf hs (candidate j)) ->
      init_from_file filename s = Some (Ok true, s1)
      /\ ffff1 (self s1) = ffff1 (self s)).
Proof.
  intros Hname Hread hs candidate.
  pose proof (read_first_header_ok filename s s1 buf Hread)
    as (_ & Htail & Hpow & _ & _ & Hf1 & _).
  assert (Hhbs : 1 <= get_header_block_size (self s1)).
  { apply get_header_block_size_pos, power_of_two_pos, Hpow. }
  rewrite (init_from_file_scan filename s s1 buf Hname Hread).
  split.
  - intros k Hk Hmax Hin Hacc Hbefore. subst candidate. cbv beta in *.
    assert (Hk19 : k < 19).
    { destruct (Z.lt_ge_cases k 19) as [|Hge]; [assumption|exfalso].
      assert (2 ^ 19 <= 2 ^ k) by (apply Z.pow_le_mono_r; lia).
      unfold FFFF_MAX_HEADER_BLOCK_OFFSET in Hmax.
      change (2 ^ 19) with 524288 in *. nia. }
    rewrite <- (Z2Nat.id k) in Hmax, Hin, Hacc |- * by lia.
    rewrite (scan_accepts buf hs s1 Htail (Z.to_nat k) scan_rounds);
      try assumption.
    + split; [reflexivity|].
      unfold create_second_header. run_method.
      cbn [self ffff1 set_ffff1].
      destruct (Ffff.unpack buf _) as [h|e] eqn:E.
      * exists h. cbn [snd self ffff1 set_ffff1]. split; [reflexivity|].
        right. reflexivity.
      * eexists. cbn [snd self ffff1 set_ffff1]. split; [reflexivity|].
        left. reflexivity.
    + unfold scan_rounds. lia.
    + intros j Hj. apply Hbefore. lia.
  - intros Hall. split; [|exact Hf1].
    unfold scan_rounds.
    rewrite (scan_finds_none buf hs s1 Htail 20); try assumption.
    + reflexivity.
    + unfold FFFF_MAX_HEADER_BLOCK_OFFSET.
      change (2 ^ Z.of_nat 20) with 1048576.
      lia.
Qed.

End SecondHeader.

(** ** Parsed images *)

Section Parsed.
Import FfffElement FfffRomimage Spec.

Lemma read_beyond (buf : list byte) (off n : Z) :
  Z.of_nat (length buf) <= off -> Struct.read buf off n = [].
Proof.
  intros H. unfold Struct.read.
  rewrite drop_ge by lia. apply take_nil.
Qed.

(** C9 on a short file: a file of 1024 bytes, as long as its first header
    says, with a blank second header block.  No candidate is accepted, and
    [init_from_file], instead of returning with header 1 absent, raises
    [struct.error] from the sentinel read of the candidate at 1024, at the
    end of the buffer: the loop bounds the candidate by 512 KiB and not by
    the length of the buffer.  Header 1 is absent all the same. *)
Lemma second_header_scan_fails :
  exists s1 msg s2,
    read_first_header (HB := Ffff.plain_header) "image.ffff"
      (fresh_state "image.ffff" one_header_image)
    = (Ok one_header_image, s1)
    /\ flash_image_length (self s1)
       = Z.of_nat (length one_header_image)
    /\ (forall k, 0 <= k ->
          ~ accepted one_header_image (header_size (self s1))
              (get_header_block_size (self s1) * 2 ^ k))
    /\ init_from_file (HB := Ffff.plain_header) "image.ffff"
         (fresh_state "image.ffff" one_header_image)
       = Some (Raise (StructError msg), s2)
    /\ ffff1 (self s2) = None.
Proof.
  eexists. eexists. eexists.
  split; [vm_compute; reflexivity|].
  split; [vm_compute; reflexivity|].
  split; [|split; vm_compute; reflexivity].
  intros k Hk [Hnose _].
  change (get_header_block_size _) with 512 in Hnose.
  destruct (Z.eq_dec k 0) as [->|Hk0].
  - vm_compute in Hnose. discriminate.
  - unfold Struct.read_str in Hnose.
    rewrite read_beyond in Hnose; [discriminate|].
    change (Z.of_nat (length one_header_image)) with 1024.
    assert (2 ^ 1 <= 2 ^ k) by (apply Z.pow_le_mono_r; lia).
    change (2 ^ 1) with 2 in *. lia.
Qed.

(** The scan changes nothing of the ROM image but header 1. *)
Lemma create_second_header_keeps `{HB : Ffff.HeaderBlock}
    (buf : list byte) (offset : Z) (s : State) :
  let out := create_second_header buf offset s in
  set_ffff1 (self (snd out)) None = set_ffff1 (self s) None.
Proof.
  unfold create_second_header. run_method.
  cbn [self ffff1 set_ffff1].
  destruct (Ffff.unpack buf _); reflexivity.
Qed.

Lemma scan_keeps `{HB : Ffff.HeaderBlock} (fuel : nat) (buf : list byte) :
  forall (offset : Z) (s : State) (out : result unit * State),
    scan_second_header fuel buf offset s = Some out ->
    set_ffff1 (self (snd out)) None = set_ffff1 (self s) None.
Proof.
  induction fuel as [|fuel IH]; intros offset s out H; [discriminate|].
  rewrite scan_round in H.
  destruct (offset <? _); [|inversion H; reflexivity].
  destruct (Struct.unpack_from_16s buf offset);
    [|inversion H; reflexivity].
  destruct (Struct.unpack_from_16s buf _); [|inversion H; reflexivity].
  destruct (_ && _).
  - inversion H. apply create_second_header_keeps.
  - eapply IH. exact H.
Qed.

(** On the parse path the element window ends at the flash capacity. *)
Lemma parsed_element_window `{HB : Ffff.HeaderBlock}
    (filename : string) (s s' : State) :
  init_from_file filename s = Some (Ok true, s') ->
  element_location_min (self s') = 2 * get_header_block_size (self s')
  /\ element_location_max (self s') = flash_capacity (self s').
Proof.
  unfold init_from_file. intros H.
  destruct (negb (String.eqb filename "")); [|discriminate].
  destruct (read_first_header filename s) as [[buf|e] s1] eqn:Hread;
    [|discriminate].
  apply read_first_header_ok in Hread as (_ & _ & _ & Hmin & Hmax & _).
  destruct (scan_second_header _ _ _ _) as [[[[]|e] s2]|] eqn:Hscan;
    try discriminate.
  inversion H; subst s2; clear H.
  apply scan_keeps in Hscan. cbn [snd] in Hscan.
  apply (f_equal element_location_min) in Hscan as H1.
  apply (f_equal element_location_max) in Hscan as H2.
  apply (f_equal flash_capacity) in Hscan as H3.
  apply (f_equal erase_block_size) in Hscan as H4.
  apply (f_equal header_size) in Hscan as H5.
  cbn in H1, H2, H3, H4, H5. unfold get_header_block_size in *.
  rewrite H1, H2, H3, H4, H5. split; assumption.
Qed.

(** C2 on the parse path: a file whose first header records a flash
    capacity of 4096 and an image length of 2048 is parsed to an element
    window that ends at 4096, the capacity, not at the image length;
    the window starts at twice the header block size. *)
Theorem parsed_window_ends_at_capacity :
  exists s',
    init_from_file (HB := Ffff.plain_header) "image.ffff"
      (fresh_state "image.ffff" two_header_image)
    = Some (Ok true, s')
    /\ element_location_min (self s') = 2 * get_header_block_size (self s')
    /\ flash_image_length (self s') = 2048
    /\ flash_capacity (self s') = 4096
    /\ element_location_max (self s') = 4096
    /\ element_location_max (self s') <> flash_image_length (self s').
Proof.
  eexists. split; [vm_compute; reflexivity|].
  repeat split; vm_compute; congruence.
Qed.

End Parsed.

(** ** The theorems on sample inputs *)

Section Samples.
Import FfffElement FfffRomimage Spec.

(** [write_gate] on a ROM image as [init] builds it. *)
Lemma write_gate_witness :
  (reports_valid (ffff0 (self built_state))
   /\ reports_valid (ffff1 (self built_state))
   /\ ffff_buf (self built_state) = Some (replicate 8 x00)
   /\ written_name "out" ∉ readonly (world built_state))
  /\ fst (write "out" built_state) = Ok true
  /\ files (world (snd (write "out" built_state))) !! "out.ffff"
     = Some (replicate 8 x00).
Proof.
  assert (H0 : reports_valid (ffff0 (self built_state)))
    by (eexists; split; reflexivity).
  assert (H1 : reports_valid (ffff1 (self built_state)))
    by (eexists; split; reflexivity).
  assert (Hb : ffff_buf (self built_state) = Some (replicate 8 x00))
    by reflexivity.
  assert (Hw : written_name "out" ∉ readonly (world built_state))
    by (change (written_name "out" ∉ (∅ : gset string));
        apply not_elem_of_empty).
  split; [repeat split; assumption|].
  destruct (write_gate "out" built_state) as (_ & _ & _ & H).
  destruct (H H0 H1 (replicate 8 x00) Hb Hw) as (Hr & Hf & _).
  split; [exact Hr|exact Hf].
Defined.

(** [pack_unpack_roundtrip] on a stage-3 element packed at offset 4 of a
    buffer of 32 bytes. *)
Lemma pack_unpack_roundtrip_witness :
  (fits_widths sample_element
   /\ Struct.window (replicate 32 x00) 4 20 = Ok 4)
  /\ exists buf' e' eot,
      pack sample_element (replicate 32 x00) 4
      = Ok (buf', 4 + FFFF_ELT_LENGTH)
      /\ unpack sample_end_of_table buf' 4 = Ok (e', eot)
      /\ fields_of e' = fields_of sample_element.
Proof.
  assert (Hf : fits_widths sample_element)
    by (unfold fits_widths; repeat split; vm_compute; congruence).
  assert (Hw : Struct.window (replicate 32 x00) 4 20 = Ok 4)
    by reflexivity.
  split; [split; assumption|].
  exact (proj1 pack_unpack_roundtrip sample_element sample_end_of_table
           (replicate 32 x00) 4 4 Hf Hw).
Defined.

(** [validate_three_checks] on a stage-3 element. *)
Lemma validate_three_checks_witness :
  element_type sample_element <> FFFF_ELEMENT_END_OF_ELEMENT_TABLE
  /\ exists e' diagnostics,
      validate sample_element 0x2000 0x10000
      = (in_range e' && aligned e' && valid_type e', e', diagnostics)
      /\ (in_range e' = true
          <-> 0x2000 <= element_location sample_element < 0x10000).
Proof.
  assert (Hne : element_type sample_element
                <> FFFF_ELEMENT_END_OF_ELEMENT_TABLE) by discriminate.
  split; [exact Hne|].
  destruct (validate_three_checks sample_element 0x2000 0x10000 Hne)
    as (e' & d & Hv & Hr & _).
  exists e', d. split; [exact Hv|exact Hr].
Defined.

(** [validate_end_of_table] on a marker located at [0xFFFFFFFF]. *)
Lemma validate_end_of_table_witness :
  element_type sample_end_of_table = FFFF_ELEMENT_END_OF_ELEMENT_TABLE
  /\ element_location sample_end_of_table = 0xFFFFFFFF
  /\ exists e',
      validate sample_end_of_table 0x2000 0x10000 = (true, e', [])
      /\ in_range e' = true /\ aligned e' = true /\ valid_type e' = true
      /\ fields_of e' = fields_of sample_end_of_table.
Proof.
  split; [reflexivity|]. split; [reflexivity|].
  exact (validate_end_of_table sample_end_of_table 0x2000 0x10000 eq_refl).
Defined.

(** [collision_iff_spans_intersect] on the spans [[10, 20)] and
    [[15, 25)]. *)
Lemma collision_iff_spans_intersect_witness :
  (1 <= element_length (span_element 0 10 10)
   /\ 1 <= element_length (span_element 1 15 10)
   /\ spans_intersect (span_element 0 10 10) (span_element 1 15 10))
  /\ collisions (validate_against (span_element 0 10 10)
                   (span_element 1 15 10))
     = (collisions (span_element 0 10 10)
        ++ [index (span_element 1 15 10)])%list.
Proof.
  assert (Ha : 1 <= element_length (span_element 0 10 10)) by (cbn; lia).
  assert (Hb : 1 <= element_length (span_element 1 15 10)) by (cbn; lia).
  assert (Hi : spans_intersect (span_element 0 10 10)
                 (span_element 1 15 10))
    by (exists 15; unfold in_span; cbn; lia).
  split; [repeat split; assumption|].
  exact (proj2 (proj1 (proj2 collision_iff_spans_intersect)
                  (span_element 0 10 10) (span_element 1 15 10) Ha Hb) Hi).
Defined.

(** [duplicate_iff_same_identity] on two elements of one identity at
    different locations. *)
Lemma duplicate_iff_same_identity_witness :
  duplicates (validate_against (span_element 7 0x2000 16)
                (span_element 7 0x8000 16))
  = [7].
Proof.
  apply (proj1 (duplicate_iff_same_identity (span_element 7 0x2000 16)
                  (span_element 7 0x8000 16))).
  repeat split.
Defined.

(** [zero_length_never_collide] on two empty elements at one location. *)
Lemma zero_length_never_collide_witness :
  (element_length (span_element 0 10 0) = 0
   /\ element_length (span_element 1 10 0) = 0)
  /\ collisions (validate_against (span_element 0 10 0)
                   (span_element 1 10 0)) = [].
Proof.
  split; [split; reflexivity|].
  exact (zero_length_never_collide (span_element 0 10 0)
           (span_element 1 10 0) eq_refl eq_refl).
Defined.

(** [init_checks] on a machine with one mebibyte: an image of two blocks
    of 4096 bytes is built, and images of [2 ^ 21] and of [2 ^ 63] bytes,
    which pass the three checks, are not. *)
Lemma init_checks_witness :
  (is_ok (fst (init (HB := Ffff.plain_header) (MC := small_machine) "img"
                 8192 4096 8192 0 4096 (fresh_state "a" []))) = true
   /\ exists h0 h1,
       ffff0 (self (snd (init (HB := Ffff.plain_header)
                           (MC := small_machine) "img" 8192 4096 8192 0
                           4096 (fresh_state "a" [])))) = Some h0
       /\ ffff1 (self (snd (init (HB := Ffff.plain_header)
                              (MC := small_machine) "img" 8192 4096 8192
                              0 4096 (fresh_state "a" [])))) = Some h1
       /\ Ffff.header_offset h0 = 0
       /\ Ffff.header_offset h1 = Ffff.get_header_block_size 4096 4096
       /\ Ffff.elements h0 = [] /\ Ffff.elements h1 = [])
  /\ (~ allocatable (H := small_machine) (2 ^ 21)
      /\ is_ok (fst (init (HB := Ffff.plain_header) (MC := small_machine)
                       "img" (2 ^ 21) 4096 (2 ^ 21) 0 4096
                       (fresh_state "a" []))) = false)
  /\ (~ allocatable (H := small_machine) (2 ^ 63)
      /\ is_ok (fst (init (HB := Ffff.plain_header) (MC := small_machine)
                       "img" (2 ^ 63) 4096 (2 ^ 63) 0 4096
                       (fresh_state "a" []))) = false).
Proof.
  split; [split; [reflexivity|]|split].
  - destruct (init_checks (HB := Ffff.plain_header) (MC := small_machine)
                "img" 8192 4096 8192 0 4096 (fresh_state "a" []))
      as (_ & _ & _ & H).
    destruct (H eq_refl) as (_ & _ & _ & Hh). exact Hh.
  - assert (H : ~ allocatable (H := small_machine) (2 ^ 21))
      by (intros [_ H]; vm_compute in H; apply H; reflexivity).
    split; [exact H|].
    destruct (init_checks (HB := Ffff.plain_header) (MC := small_machine)
                "img" (2 ^ 21) 4096 (2 ^ 21) 0 4096 (fresh_state "a" []))
      as (_ & Hiff & _).
    apply Hiff. right. exact H.
  - assert (H : ~ allocatable (H := small_machine) (2 ^ 63))
      by (intros [[_ H] _]; vm_compute in H; apply H; reflexivity).
    split; [exact H|].
    destruct (init_checks (HB := Ffff.plain_header) (MC := small_machine)
                "img" (2 ^ 63) 4096 (2 ^ 63) 0 4096 (fresh_state "a" []))
      as (_ & Hiff & _).
    apply Hiff. right. exact H.
Defined.

(** [second_header_scan] on a file with its second header in the second
    header block. *)
Lemma second_header_scan_witness :
  exists s1,
    read_first_header (HB := Ffff.plain_header) "image.ffff"
      (fresh_state "image.ffff" two_header_image)
    = (Ok two_header_image, s1)
    /\ in_buffer two_header_image (header_size (self s1))
         (get_header_block_size (self s1) * 2 ^ 0)
    /\ accepted two_header_image (header_size (self s1))
         (get_header_block_size (self s1) * 2 ^ 0)
    /\ init_from_file (HB := Ffff.plain_header) "image.ffff"
         (fresh_state "image.ffff" two_header_image)
       = Some (finish (create_second_header (HB := Ffff.plain_header)
                         two_header_image
                         (get_header_block_size (self s1) * 2 ^ 0) s1)).
Proof.
  eexists.
  assert (Hread : read_first_header (HB := Ffff.plain_header) "image.ffff"
                    (fresh_state "image.ffff" two_header_image)
                  = (Ok two_header_image, _))
    by (vm_compute; reflexivity).
  split; [exact Hread|].
  match type of Hread with _ = (_, ?s1) =>
    assert (Hin : in_buffer two_header_image (header_size (self s1))
                    (get_header_block_size (self s1) * 2 ^ 0))
      by (vm_compute; repeat split; discriminate);
    assert (Hacc : accepted two_header_image (header_size (self s1))
                     (get_header_block_size (self s1) * 2 ^ 0))
      by (split; vm_compute; reflexivity)
  end.
  split; [exact Hin|]. split; [exact Hacc|].
  refine (proj1 (proj1 (second_header_scan (HB := Ffff.plain_header)
                          "image.ffff" _ _ _ _ Hread)
                   0 _ _ Hin Hacc _)).
  - discriminate.
  - lia.
  - vm_compute. reflexivity.
  - intros j Hj. lia.
Defined.

End Samples.

(** * Further properties of the element records *)

Section RecordBytes.
Import Struct FfffElement Spec Layout.

Lemma byte_of_Z_of_byte (b : byte) : byte_of_Z (Z_of_byte b) = b.
Proof.
unfold byte_of_Z. pose proof (Z_of_byte_range b) as Hr.
rewrite Z.mod_small by exact Hr. unfold Z_of_byte.
rewrite N2Z.id, Byte.of_to_N. reflexivity.
Qed.

Lemma byte_of_Z_mod (z : Z) : byte_of_Z (z mod 256) = byte_of_Z z.
Proof. unfold byte_of_Z. rewrite Z.mod_mod by lia. reflexivity. Qed.

Lemma byte_of_Z_eq (z : Z) (b : byte) :
  z mod 256 = Z_of_byte b -> byte_of_Z z = b.
Proof.
intros H. rewrite <- byte_of_Z_mod, H. apply byte_of_Z_of_byte.
Qed.

Lemma le_bytes4_le_uint (r : list byte) :
  length r = 4%nat -> le_bytes4 (le_uint r) = r.
Proof.
intros H.
destruct r as [|b0 [|b1 [|b2 [|b3 [|]]]]]; try discriminate.
unfold le_bytes4. cbn [le_uint].
pose proof (Z_of_byte_range b0). pose proof (Z_of_byte_range b1).
pose proof (Z_of_byte_range b2). pose proof (Z_of_byte_range b3).
rewrite !Z.shiftr_div_pow2 by lia.
change (2 ^ 8) with 256. change (2 ^ 16) with 65536.
change (2 ^ 24) with 16777216.
f_equal; [|f_equal; [|f_equal; [|f_equal]]]; apply byte_of_Z_eq;
  Z.to_euclidean_division_equations; lia.
Qed.

Lemma splice_read (buf : list byte) (off n : Z) :
  0 <= off -> 0 <= n -> off + n <= Z.of_nat (length buf) ->
  splice buf off (read buf off n) = buf.
Proof.
intros Ho Hn Hl. unfold splice.
rewrite length_read by lia. unfold read.
rewrite <- (drop_drop buf (Z.to_nat n) (Z.to_nat off)).
rewrite take_drop, take_drop. reflexivity.
Qed.

Lemma lookup_splice_outside (buf : list byte) (off : Z) (bs : list byte)
    (i : nat) :
  0 <= off -> off + Z.of_nat (length bs) <= Z.of_nat (length buf) ->
  Z.of_nat i < off \/ off + Z.of_nat (length bs) <= Z.of_nat i ->
  splice buf off bs !! i = buf !! i.
Proof.
intros Ho Hl Hi. unfold splice. destruct Hi as [Hi|Hi].
- rewrite lookup_app_l by (rewrite length_take; lia).
  apply lookup_take_lt. lia.
- rewrite lookup_app_r by (rewrite length_take; lia).
  rewrite lookup_app_r by (rewrite length_take; lia).
  rewrite lookup_drop, length_take. f_equal. lia.
Qed.

Lemma read_splice_outside (buf : list byte) (off : Z) (bs : list byte)
    (i n : Z) :
  0 <= off -> off + Z.of_nat (length bs) <= Z.of_nat (length buf) ->
  0 <= i -> 0 <= n ->
  i + n <= off \/ off + Z.of_nat (length bs) <= i ->
  read (splice buf off bs) i n = read buf i n.
Proof.
intros Ho Hl Hi Hn Hout. unfold read.
apply list_eq. intros j.
destruct (decide (j < Z.to_nat n)%nat) as [Hj|Hj].
- rewrite !lookup_take_lt by exact Hj. rewrite !lookup_drop.
  apply lookup_splice_outside; lia.
- rewrite !lookup_take_ge by lia. reflexivity.
Qed.

Lemma read_within (buf : list byte) (off i n m : Z) :
  0 <= off -> 0 <= i -> 0 <= n -> i + n <= m ->
  read buf (off + i) n = take (Z.to_nat n) (drop (Z.to_nat i) (read buf off m)).
Proof.
intros Ho Hi Hn Hm. unfold read.
replace (Z.to_nat m) with (Z.to_nat i + Z.to_nat (m - i))%nat by lia.
rewrite <- take_drop_commute, take_take, drop_drop.
rewrite Nat.min_l by lia. rewrite Z2Nat.inj_add by lia. reflexivity.
Qed.

Lemma length_record_bytes (e : FfffElement) :
  length (record_bytes e) = 20%nat.
Proof. reflexivity. Qed.

Lemma fits_widths_packable (e : FfffElement) :
  fits_widths e ->
  packable e /\ type_class e = element_class e * 256 + element_type e.
Proof.
intros (Hty & Hcl & Hid & Hlen & Hloc & Hgen).
assert (Htc : type_class e = element_class e * 256 + element_type e)
  by (apply type_class_word; lia).
split; [|exact Htc]. unfold packable. rewrite Htc.
change (2 ^ 24) with 16777216 in Hcl. change (2 ^ 32) with 4294967296 in *.
repeat split; lia.
Qed.

(** [pack] returns exactly when the record lies inside the buffer and its
    five words fit. *)
Lemma pack_inv (e : FfffElement) (buf buf' : list byte) (offset next : Z) :
  pack e buf offset = Ok (buf', next)
  <-> exists off,
      window buf offset 20 = Ok off /\ packable e
      /\ buf' = splice buf off (record_bytes e)
      /\ next = offset + 20.
Proof.
unfold pack, pack_into_5L. fold (type_class e).
destruct (window buf offset 20) as [off|err] eqn:Hw;
  cbn [mbind result_bind Py.bind].
- destruct (fits_L (type_class e) && fits_L (element_id e)
            && fits_L (element_length e) && fits_L (element_location e)
            && fits_L (element_generation e)) eqn:Hf.
  + rewrite !andb_true_iff, !fits_L_iff in Hf.
    destruct Hf as ((((H0 & H1) & H2) & H3) & H4). split.
    * intros [= <- <-]. exists off. repeat split; try assumption; lia.
    * intros (off' & [= <-] & _ & -> & ->). reflexivity.
  + split; [discriminate|].
    intros (off' & _ & (H0 & H1 & H2 & H3 & H4) & _).
    apply fits_L_iff in H0, H1, H2, H3, H4.
    rewrite H0, H1, H2, H3, H4 in Hf. discriminate.
- split; [discriminate|]. intros (off' & [=] & _).
Qed.

(** What [unpack] makes of a window that holds the bytes of a record. *)
Lemma unpack_record (e e0 : FfffElement) (buf : list byte) (offset off : Z) :
  window buf offset 20 = Ok off ->
  read buf off 20 = record_bytes e ->
  packable e ->
  exists e' eot,
    unpack e0 buf offset = Ok (e', eot)
    /\ fields_of e'
       = (type_class e mod 256, type_class e / 256, element_id e,
          element_length e, element_location e, element_generation e)
    /\ eot = (type_class e mod 256 =? FFFF_ELEMENT_END_OF_ELEMENT_TABLE).
Proof.
intros Hw Hrd (H0 & H1 & H2 & H3 & H4).
pose proof (window_ok _ _ _ _ Hw) as (Ho & Hl & _).
destruct (unpack_words e0 buf offset off Hw) as (e' & eot & Hu & Hf & He).
exists e', eot. split; [exact Hu|].
assert (Hg : forall i, 0 <= i -> i + 4 <= 20 ->
               read buf (off + i) 4
               = take 4 (drop (Z.to_nat i) (record_bytes e))).
{ intros i Hi Hi'. rewrite (read_within buf off i 4 20) by lia.
  rewrite Hrd. reflexivity. }
replace (read buf off 4) with (read buf (off + 0) 4) in Hf, He
  by (f_equal; lia).
rewrite (Hg 0), (Hg 4), (Hg 8), (Hg 12), (Hg 16) in Hf by lia.
rewrite (Hg 0) in He by lia.
change (take 4 (drop (Z.to_nat 0) (record_bytes e)))
  with (le_bytes4 (type_class e)) in Hf, He.
change (take 4 (drop (Z.to_nat 4) (record_bytes e)))
  with (le_bytes4 (element_id e)) in Hf.
change (take 4 (drop (Z.to_nat 8) (record_bytes e)))
  with (le_bytes4 (element_length e)) in Hf.
change (take 4 (drop (Z.to_nat 12) (record_bytes e)))
  with (le_bytes4 (element_location e)) in Hf.
change (take 4 (drop (Z.to_nat 16) (record_bytes e)))
  with (le_bytes4 (element_generation e)) in Hf.
rewrite !le_uint_bytes4 in Hf by assumption.
rewrite le_uint_bytes4 in He by assumption.
split; [|exact He]. rewrite Hf. repeat f_equal.
change (2 ^ 32) with 4294967296 in H0. change (2 ^ 24) with 16777216.
Z.to_euclidean_division_equations; lia.
Qed.

Lemma read_spliced (buf : list byte) (off : Z) (bs : list byte) :
  0 <= off -> off + Z.of_nat (length bs) <= Z.of_nat (length buf) ->
  read (splice buf off bs) off (Z.of_nat (length bs)) = bs.
Proof.
intros Ho Hl.
replace off with (off + 0) at 2 by lia.
rewrite read_splice by lia.
rewrite Nat2Z.id. cbn [Z.to_nat drop]. apply take_ge. lia.
Qed.

Lemma read_words (buf : list byte) (off : Z) :
  0 <= off ->
  read buf off 20
  = (read buf off 4 ++ read buf (off + 4) 4 ++ read buf (off + 8) 4
     ++ read buf (off + 12) 4 ++ read buf (off + 16) 4)%list.
Proof.
intros Ho.
change (read buf off 20) with (read buf off (4 + 16)).
rewrite read_split by lia. f_equal.
change (read buf (off + 4) 16) with (read buf (off + 4) (4 + 12)).
rewrite read_split by lia.
replace (off + 4 + 4) with (off + 8) by lia. f_equal.
change (read buf (off + 8) 12) with (read buf (off + 8) (4 + 8)).
rewrite read_split by lia.
replace (off + 8 + 4) with (off + 12) by lia. f_equal.
change (read buf (off + 12) 8) with (read buf (off + 12) (4 + 4)).
rewrite read_split by lia.
replace (off + 12 + 4) with (off + 16) by lia. reflexivity.
Qed.

End RecordBytes.

Section PackedRecords.
Import Struct FfffElement Spec Layout.

(** X1: packing the element that [unpack] has just read, into the same
    buffer at the same offset, succeeds and leaves the buffer byte for byte
    as it was. *)
Theorem unpack_pack_restores (e0 e' : FfffElement) (buf : list byte)
    (offset : Z) (eot : bool) :
  unpack e0 buf offset = Ok (e', eot) ->
  pack e' buf offset = Ok (buf, offset + FFFF_ELT_LENGTH).
Proof.
intros Hu.
destruct (window buf offset 20) as [off|err] eqn:Hw;
  [|unfold unpack, unpack_from_5L in Hu; rewrite Hw in Hu; discriminate].
pose proof (window_ok _ _ _ _ Hw) as (Ho & Hl & _).
destruct (unpack_words e0 buf offset off Hw) as (e1 & eot1 & Hu1 & Hf & _).
rewrite Hu in Hu1. injection Hu1 as <- <-.
unfold fields_of in Hf. injection Hf as Hty Hcl Hid Hlen Hloc Hgen.
assert (Hb : forall i, 0 <= i -> i + 4 <= 20 ->
               0 <= le_uint (read buf (off + i) 4) < 2 ^ 32
               /\ le_bytes4 (le_uint (read buf (off + i) 4))
                  = read buf (off + i) 4).
{ intros i Hi Hi'.
  assert (Hlen4 : length (read buf (off + i) 4) = 4%nat)
    by (rewrite length_read by lia; reflexivity).
  pose proof (le_uint_bound (read buf (off + i) 4)) as Hbd.
  rewrite Hlen4 in Hbd. split; [exact Hbd|].
  apply le_bytes4_le_uint. exact Hlen4. }
destruct (Hb 0) as [B0 R0]; [lia|lia|]. rewrite Z.add_0_r in B0, R0.
destruct (Hb 4) as [B1 R1]; [lia|lia|].
destruct (Hb 8) as [B2 R2]; [lia|lia|].
destruct (Hb 12) as [B3 R3]; [lia|lia|].
destruct (Hb 16) as [B4 R4]; [lia|lia|].
set (w0 := le_uint (read buf off 4)) in *.
assert (Htc : type_class e' = w0).
{ unfold type_class. rewrite type_class_word, Hty, Hcl.
  - change (2 ^ 32) with 4294967296 in B0. change (2 ^ 24) with 16777216.
    Z.to_euclidean_division_equations; lia.
  - rewrite Hty. apply Z.mod_pos_bound. lia. }
apply pack_inv. exists off.
split; [exact Hw|]. split.
{ unfold packable. rewrite Htc, Hid, Hlen, Hloc, Hgen.
  repeat split; lia. }
split; [|reflexivity].
unfold record_bytes. rewrite Htc, Hid, Hlen, Hloc, Hgen.
subst w0. rewrite R0, R1, R2, R3, R4.
rewrite <- read_words by lia.
symmetry. apply splice_read; lia.
Qed.

(** X2: a [pack] that returns has written only the twenty bytes of the
    record: the buffer keeps its length and every byte outside
    [[off, off + 20)] is as before, where [off] is the offset counted from
    the start of the buffer; the offset returned is twenty further. *)
Theorem pack_frame (e : FfffElement) (buf buf' : list byte)
    (offset next : Z) :
  pack e buf offset = Ok (buf', next) ->
  next = offset + FFFF_ELT_LENGTH
  /\ length buf' = length buf
  /\ exists off,
      off = (if offset <? 0 then offset + Z.of_nat (length buf) else offset)
      /\ 0 <= off /\ off + 20 <= Z.of_nat (length buf)
      /\ read buf' off 20 = record_bytes e
      /\ forall i : nat,
          Z.of_nat i < off \/ off + 20 <= Z.of_nat i ->
          buf' !! i = buf !! i.
Proof.
intros Hp. apply pack_inv in Hp as (off & Hw & _ & -> & ->).
pose proof (window_ok _ _ _ _ Hw) as (Ho & Hl & Hoff).
split; [reflexivity|]. split.
{ apply length_splice; [lia|]. rewrite length_record_bytes. lia. }
exists off. repeat split; try assumption.
- change 20 with (Z.of_nat (length (record_bytes e))).
  apply read_spliced; [lia|]. rewrite length_record_bytes. lia.
- intros i Hi. apply lookup_splice_outside; rewrite ?length_record_bytes; lia.
Qed.

(** X3: [pack] does not check the width of the type: whenever it returns,
    [unpack] of the packed record gives back the low byte of
    [(class << 8) | type] as the type and the rest of that word as the
    class, with id, length, location and generation unchanged; so a type
    above 0xff that still packs comes back truncated, its upper bits in the
    class. *)
Theorem pack_unpack_folds_type (e e0 : FfffElement) (buf buf' : list byte)
    (offset next : Z) :
  pack e buf offset = Ok (buf', next) ->
  exists e' eot,
    unpack e0 buf' offset = Ok (e', eot)
    /\ element_type e' = type_class e mod 256
    /\ element_class e' = type_class e / 256
    /\ element_id e' = element_id e
    /\ element_length e' = element_length e
    /\ element_location e' = element_location e
    /\ element_generation e' = element_generation e
    /\ (0xff < element_type e -> element_type e' <> element_type e).
Proof.
intros Hp. apply pack_inv in Hp as (off & Hw & Hpk & -> & ->).
pose proof (window_ok _ _ _ _ Hw) as (Ho & Hl & _).
assert (Hlen : length (splice buf off (record_bytes e)) = length buf).
{ apply length_splice; [lia|]. rewrite length_record_bytes. lia. }
assert (Hw' : window (splice buf off (record_bytes e)) offset 20 = Ok off).
{ rewrite (window_same_length buf) by exact Hlen. exact Hw. }
destruct (unpack_record e e0 _ offset off Hw') as (e' & eot & Hu & Hf & _).
{ change 20 with (Z.of_nat (length (record_bytes e))).
  apply read_spliced; [lia|]. rewrite length_record_bytes. lia. }
{ exact Hpk. }
exists e', eot. split; [exact Hu|].
unfold fields_of in Hf. injection Hf as Hty Hcl Hid Hlen' Hloc Hgen.
repeat (split; [assumption|]).
intros Hwide. rewrite Hty.
pose proof (Z.mod_pos_bound (type_class e) 256 ltac:(lia)). lia.
Qed.


End PackedRecords.

Section RecordTables.
Import Struct FfffElement Spec Layout.

Lemma fits_widths_fields (e : FfffElement) :
  fits_widths e ->
  (type_class e mod 256, type_class e / 256, element_id e,
   element_length e, element_location e, element_generation e)
  = fields_of e.
Proof.
intros Hf. destruct (fits_widths_packable e Hf) as [_ Htc].
destruct Hf as (Hty & _). rewrite Htc. unfold fields_of.
repeat f_equal; Z.to_euclidean_division_equations; lia.
Qed.

(** X5: two records that fit their widths, packed one after the other
    through the offset [pack] returns, are both read back by [unpack] at
    their offsets: the second [pack] does not disturb the first record. *)
Theorem pack_chain (e1 e2 e0 : FfffElement) (buf : list byte) (offset : Z) :
  fits_widths e1 -> fits_widths e2 ->
  0 <= offset -> offset + 40 <= Z.of_nat (length buf) ->
  exists buf1 buf2 next r1 r2 eot1 eot2,
    pack e1 buf offset = Ok (buf1, next)
    /\ pack e2 buf1 next = Ok (buf2, offset + 40)
    /\ unpack e0 buf2 offset = Ok (r1, eot1)
    /\ unpack e0 buf2 next = Ok (r2, eot2)
    /\ fields_of r1 = fields_of e1
    /\ fields_of r2 = fields_of e2.
Proof.
intros Hf1 Hf2 Ho Hl.
destruct (fits_widths_packable e1 Hf1) as [Hp1 _].
destruct (fits_widths_packable e2 Hf2) as [Hp2 _].
set (buf1 := splice buf offset (record_bytes e1)).
set (buf2 := splice buf1 (offset + 20) (record_bytes e2)).
assert (Hl1 : length buf1 = length buf).
{ apply length_splice; rewrite ?length_record_bytes; lia. }
assert (Hl2 : length buf2 = length buf).
{ unfold buf2. rewrite length_splice; rewrite ?length_record_bytes; lia. }
assert (Hpack1 : pack e1 buf offset = Ok (buf1, offset + 20)).
{ apply pack_inv. exists offset.
  split; [apply window_fits; lia|]. split; [exact Hp1|].
  split; reflexivity. }
assert (Hpack2 : pack e2 buf1 (offset + 20) = Ok (buf2, offset + 40)).
{ apply pack_inv. exists (offset + 20).
  split; [apply window_fits; lia|]. split; [exact Hp2|].
  split; [reflexivity|lia]. }
assert (Hr2 : read buf2 (offset + 20) 20 = record_bytes e2).
{ change 20 with (Z.of_nat (length (record_bytes e2))) at 2.
  apply read_spliced; rewrite ?length_record_bytes; lia. }
assert (Hr1 : read buf2 offset 20 = record_bytes e1).
{ unfold buf2. rewrite read_splice_outside;
    rewrite ?length_record_bytes; try lia.
  change 20 with (Z.of_nat (length (record_bytes e1))).
  apply read_spliced; rewrite ?length_record_bytes; lia. }
destruct (unpack_record e1 e0 buf2 offset offset)
  as (r1 & eot1 & Hu1 & Hfl1 & _);
  [apply window_fits; lia|exact Hr1|exact Hp1|].
destruct (unpack_record e2 e0 buf2 (offset + 20) (offset + 20))
  as (r2 & eot2 & Hu2 & Hfl2 & _);
  [apply window_fits; lia|exact Hr2|exact Hp2|].
exists buf1, buf2, (offset + 20), r1, r2, eot1, eot2.
rewrite Hfl1, Hfl2, !fits_widths_fields by assumption.
repeat split; assumption.
Qed.

Lemma same_as_iff (a b : FfffElement) :
  same_as a b = true <-> fields_of a = fields_of b.
Proof.
unfold same_as, fields_of. rewrite !andb_true_iff, !Z.eqb_eq. split.
- intros (((((-> & ->) & ->) & ->) & ->) & ->). reflexivity.
- intros [= -> -> -> -> -> ->]. repeat split.
Qed.

(** X6: [same_as] is equality of the six persisted fields, whatever the
    index, flags and lists are, hence an equivalence; two elements that are
    the same pack to the same bytes, and two elements within the field
    widths that pack to the same bytes are the same. *)
Theorem same_as_is_field_equality :
  (forall a b, same_as a b = true <-> fields_of a = fields_of b)
  /\ (forall a, same_as a a = true)
  /\ (forall a b, same_as a b = same_as b a)
  /\ (forall a b c,
        same_as a b = true -> same_as b c = true -> same_as a c = true)
  /\ (forall a b buf offset,
        same_as a b = true -> pack a buf offset = pack b buf offset)
  /\ (forall a b buf offset out,
        fits_widths a -> fits_widths b ->
        pack a buf offset = Ok out -> pack b buf offset = Ok out ->
        same_as a b = true).
Proof.
split; [exact same_as_iff|]. split; [|split; [|split; [|split]]].
- intros a. apply same_as_iff. reflexivity.
- intros a b. apply eq_true_iff_eq. rewrite !same_as_iff.
  split; congruence.
- intros a b c. rewrite !same_as_iff. congruence.
- intros a b buf offset H. apply same_as_iff in H.
  unfold fields_of in H. injection H as H1 H2 H3 H4 H5 H6.
  unfold pack. rewrite H1, H2, H3, H4, H5, H6. reflexivity.
- intros a b buf offset [buf' next] Hfa Hfb Ha Hb.
  apply same_as_iff.
  apply pack_inv in Ha as (off & Hw & Hpa & Hba & _).
  apply pack_inv in Hb as (off' & Hw' & Hpb & Hbb & _).
  rewrite Hw in Hw'. injection Hw' as <-.
  pose proof (window_ok _ _ _ _ Hw) as (Ho & Hl & _).
  assert (Hlen : length buf' = length buf).
  { rewrite Hba. apply length_splice; rewrite ?length_record_bytes; lia. }
  assert (Hwb : window buf' offset 20 = Ok off).
  { rewrite (window_same_length buf) by exact Hlen. exact Hw. }
  destruct (unpack_record a a buf' offset off Hwb) as (ra & ea & Hua & Hfla & _);
    [|exact Hpa|].
  { rewrite Hba. change 20 with (Z.of_nat (length (record_bytes a))).
    apply read_spliced; rewrite ?length_record_bytes; lia. }
  destruct (unpack_record b a buf' offset off Hwb) as (rb & eb & Hub & Hflb & _);
    [|exact Hpb|].
  { rewrite Hbb. change 20 with (Z.of_nat (length (record_bytes b))).
    apply read_spliced; rewrite ?length_record_bytes; lia. }
  rewrite Hua in Hub. injection Hub as <- <-.
  rewrite fits_widths_fields in Hfla, Hflb by assumption. congruence.
Qed.

End RecordTables.

Section CrossValidation.
Import FfffElement Spec Layout.

Lemma validate_against_duplicates (a b : FfffElement) :
  duplicates (validate_against a b)
  = if (element_type a =? element_type b)
       && (element_id a =? element_id b)
       && (element_generation a =? element_generation b)
    then (duplicates a ++ [index b])%list
    else duplicates a.
Proof.
unfold validate_against.
destruct ((_ >=? _) && (_ <=? _));
  cbn [element_type element_id element_generation set_collisions];
  destruct (_ && _); reflexivity.
Qed.

(** [validate_against] touches nothing but the two lists. *)
Lemma validate_against_keeps (a b : FfffElement) :
  fields_of (validate_against a b) = fields_of a
  /\ flags_of (validate_against a b) = flags_of a
  /\ index (validate_against a b) = index a
  /\ erase_block_size (validate_against a b) = erase_block_size a
  /\ tftf_blob (validate_against a b) = tftf_blob a.
Proof.
unfold validate_against.
destruct ((_ >=? _) && (_ <=? _));
  cbn [element_type element_id element_generation set_collisions];
  destruct (_ && _); repeat split.
Qed.

Lemma collisions_step (a b : FfffElement) :
  collisions (validate_against a b)
  = (collisions a ++ if decide (overlaps a b) then [index b] else [])%list.
Proof.
rewrite validate_against_collisions. unfold overlaps.
destruct (decide _) as [[H1 H2]|Hn].
- apply Z.geb_le in H1. apply Z.leb_le in H2. rewrite H1, H2. reflexivity.
- destruct (_ && _) eqn:E; [|rewrite app_nil_r; reflexivity].
  apply andb_true_iff in E as [E1 E2].
  apply Z.geb_le in E1. apply Z.leb_le in E2. tauto.
Qed.

Lemma duplicates_step (a b : FfffElement) :
  duplicates (validate_against a b)
  = (duplicates a
     ++ if decide (same_identity a b) then [index b] else [])%list.
Proof.
rewrite validate_against_duplicates. unfold same_identity.
destruct (decide _) as [(H1 & H2 & H3)|Hn].
- rewrite H1, H2, H3, !Z.eqb_refl. reflexivity.
- destruct (_ && _) eqn:E; [|rewrite app_nil_r; reflexivity].
  apply andb_true_iff in E as [E E3]. apply andb_true_iff in E as [E1 E2].
  apply Z.eqb_eq in E1, E2, E3. tauto.
Qed.

(** X7: both tests of [validate_against] are symmetric: [a] records [b] as
    a collision exactly when [b] records [a], and likewise for
    duplicates. *)
Theorem validate_against_symmetric (a b : FfffElement) :
  (collisions (validate_against a b) = (collisions a ++ [index b])%list
   <-> collisions (validate_against b a) = (collisions b ++ [index a])%list)
  /\ (duplicates (validate_against a b) = (duplicates a ++ [index b])%list
      <-> duplicates (validate_against b a)
          = (duplicates b ++ [index a])%list).
Proof.
rewrite !collisions_step, !duplicates_step.
assert (Ho : overlaps a b <-> overlaps b a) by (unfold overlaps; tauto).
assert (Hs : same_identity a b <-> same_identity b a)
  by (unfold same_identity; intuition congruence).
split.
- destruct (decide (overlaps a b)) as [H|H];
    destruct (decide (overlaps b a)) as [H'|H']; try tauto.
  rewrite !app_nil_r. split; intros E; symmetry in E;
    apply app_one_neq in E; contradiction.
- destruct (decide (same_identity a b)) as [H|H];
    destruct (decide (same_identity b a)) as [H'|H']; try tauto.
  rewrite !app_nil_r. split; intros E; symmetry in E;
    apply app_one_neq in E; contradiction.
Qed.

(** X8: an element checked against itself is always recorded as its own
    duplicate, and as colliding with itself exactly when its length is at
    least one. *)
Theorem validate_against_itself (a : FfffElement) :
  duplicates (validate_against a a) = (duplicates a ++ [index a])%list
  /\ (1 <= element_length a ->
      collisions (validate_against a a) = (collisions a ++ [index a])%list)
  /\ (element_length a < 1 ->
      collisions (validate_against a a) = collisions a).
Proof.
rewrite collisions_step, duplicates_step. split; [|split].
- destruct (decide (same_identity a a)) as [H|H]; [reflexivity|].
  exfalso. apply H. repeat split.
- intros Hl. destruct (decide (overlaps a a)) as [H|H]; [reflexivity|].
  exfalso. apply H. unfold overlaps. lia.
- intros Hl. destruct (decide (overlaps a a)) as [H|H].
  + unfold overlaps in H. lia.
  + apply app_nil_r.
Qed.

(** X9: checking an element against a list of others in turn extends its
    two lists, in the order of the calls, by the indices of exactly the
    others that overlap it and of exactly those with its type, id and
    generation; what was recorded before stays in front, and the fields,
    flags and index are untouched. *)
Theorem validate_against_each_lists (a : FfffElement)
    (others : list FfffElement) :
  collisions (validate_against_each a others)
  = (collisions a ++ (index <$> filter (overlaps a) others))%list
  /\ duplicates (validate_against_each a others)
     = (duplicates a ++ (index <$> filter (same_identity a) others))%list
  /\ fields_of (validate_against_each a others) = fields_of a
  /\ flags_of (validate_against_each a others) = flags_of a
  /\ index (validate_against_each a others) = index a.
Proof.
revert a. induction others as [|b l IH]; intros a.
- cbn. rewrite !app_nil_r. repeat split.
- change (validate_against_each a (b :: l))
    with (validate_against_each (validate_against a b) l).
  destruct (IH (validate_against a b)) as (Hc & Hd & Hf & Hg & Hi).
  destruct (validate_against_keeps a b) as (Kf & Kg & Ki & _).
  unfold fields_of in Kf. injection Kf as Kty Kcl Kid Klen Kloc Kgen.
  rewrite Hc, Hd, Hf, Hg, Hi, collisions_step, duplicates_step.
  rewrite (list_filter_iff (overlaps (validate_against a b)) (overlaps a)),
    (list_filter_iff (same_identity (validate_against a b))
       (same_identity a)).
  + rewrite !filter_cons.
    split; [|split; [|split; [|split]]].
    * destruct (decide (overlaps a b));
        rewrite <- ?app_assoc; reflexivity.
    * destruct (decide (same_identity a b));
        rewrite <- ?app_assoc; reflexivity.
    * unfold fields_of. congruence.
    * exact Kg.
    * exact Ki.
  + intros c. unfold same_identity. rewrite Kty, Kid, Kgen. reflexivity.
  + intros c. unfold overlaps. rewrite Kloc, Klen. reflexivity.
Qed.

End CrossValidation.

Section ValidateMore.
Import FfffElement Spec Layout.

(** X10: [validate] emits one diagnostic for a location out of range and
    one for a misaligned location, and none for an invalid type: whenever
    it returns true nothing is emitted, and a record that is in range and
    aligned but of an invalid type is rejected without any diagnostic. *)
Theorem validate_diagnostics (e : FfffElement) (range_low range_high : Z) :
  exists ok e' diagnostics,
    validate e range_low range_high = (ok, e', diagnostics)
    /\ length diagnostics
       = ((if in_range e' then 0 else 1) + (if aligned e' then 0 else 1))%nat
    /\ (ok = true -> diagnostics = [])
    /\ (in_range e' = true -> aligned e' = true -> valid_type e' = false ->
        ok = false /\ diagnostics = []).
Proof.
unfold validate.
destruct (element_type e =? FFFF_ELEMENT_END_OF_ELEMENT_TABLE).
- eexists. eexists. eexists. split; [reflexivity|].
  cbn. repeat split; try discriminate.
- eexists. eexists. eexists. split; [reflexivity|].
  cbn [set_valid_type set_aligned set_in_range in_range aligned valid_type
         element_location element_type erase_block_size].
  destruct ((element_location e >=? range_low)
            && (element_location e <? range_high));
    destruct (Util.block_aligned (element_location e) (erase_block_size e));
    cbn [negb andb app length Util.error];
    repeat split; try reflexivity; try discriminate;
    intros; try discriminate; subst; auto.
Qed.

(** X11: [validate] is idempotent: validating again the element it
    returned, against the same range, gives the same flag, the same element
    and the same diagnostics, whatever the flags were before the first
    call. *)
Theorem validate_idempotent (e e' : FfffElement) (range_low range_high : Z)
    (ok : bool) (diagnostics : list string) :
  validate e range_low range_high = (ok, e', diagnostics) ->
  validate e' range_low range_high = (ok, e', diagnostics).
Proof.
unfold validate.
destruct (element_type e =? FFFF_ELEMENT_END_OF_ELEMENT_TABLE) eqn:E.
- intros [= <- <- <-]. cbn [mark_valid set_valid_type set_aligned
    set_in_range element_type]. rewrite E. reflexivity.
- intros [= <- <- <-].
  cbn [set_valid_type set_aligned set_in_range in_range aligned valid_type
         element_location element_type erase_block_size].
  rewrite E. reflexivity.
Qed.

End ValidateMore.

(** * Further properties of the ROM image *)

Section InitMore.
Import FfffElement FfffRomimage Spec Layout.
Context `{HB : Ffff.HeaderBlock} `{MC : Machine}.

(** A run of [init] that returns: the checks passed, the buffer could be
    allocated, and the state is the one built. *)
Lemma init_returns_inv (name : string)
    (capacity erase_block_size image_length generation header_size : Z)
    (s s' : State) (r : bool) :
  init name capacity erase_block_size image_length generation header_size s
  = (Ok r, s') ->
  init_rejects erase_block_size image_length header_size = false
  /\ allocatable image_length
  /\ init name capacity erase_block_size image_length generation
       header_size s = (Ok true, s').
Proof.
intros H.
destruct (init_rejects erase_block_size image_length header_size) eqn:E.
- destruct (init_rejected name capacity erase_block_size image_length
              generation header_size s E) as [msg Hr].
  rewrite Hr in H. discriminate.
- split; [reflexivity|].
  pose proof (bytearray_ok_iff image_length) as Hok.
  rewrite (init_passed name capacity erase_block_size image_length
             generation header_size s E) in H |- *.
  destruct (bytearray image_length); [|discriminate].
  split; [apply Hok; reflexivity|].
  injection H as _ <-. reflexivity.
Qed.

(** X12: when [init] returns, the buffer is [image_length] bytes long, the
    element window is [[2 * header_block_size, image_length)], and neither
    the file system, the output nor the module-level offsets have been
    touched; [init] does not ask the image to hold its two header blocks,
    and for an image no longer than them [validate] rejects every element
    that is not the end-of-table marker. *)
Theorem init_window (name : string)
    (capacity erase_block_size image_length generation header_size : Z)
    (s s' : State) (r : bool) :
  init name capacity erase_block_size image_length generation header_size s
  = (Ok r, s') ->
  let hbs := Ffff.get_header_block_size erase_block_size header_size in
  r = true
  /\ (exists buf,
        ffff_buf (self s') = Some buf
        /\ Z.of_nat (length buf) = image_length)
  /\ element_location_min (self s') = 2 * hbs
  /\ element_location_max (self s') = image_length
  /\ world s' = world s /\ globals s' = globals s
  /\ (image_length <= 2 * hbs ->
      forall e,
        element_type e <> FFFF_ELEMENT_END_OF_ELEMENT_TABLE ->
        (validate e (element_location_min (self s'))
           (element_location_max (self s'))).1.1 = false).
Proof.
intros H hbs.
destruct (init_returns_inv _ _ _ _ _ _ _ _ _ H) as (E & Hpos & H').
rewrite H' in H. injection H as <-.
rewrite (init_accepted name capacity erase_block_size image_length
           generation header_size s E Hpos) in H'.
injection H' as <-.
cbn [self world globals ffff_buf element_location_min element_location_max].
split; [reflexivity|]. split.
{ eexists. split; [reflexivity|]. rewrite length_replicate.
  destruct Hpos. lia. }
repeat (split; [reflexivity|]).
intros Hshort e Hne. unfold validate.
destruct (element_type e =? _) eqn:Et;
  [apply Z.eqb_eq in Et; contradiction|].
cbn [fst set_valid_type set_aligned set_in_range in_range aligned
       valid_type element_location].
assert (Hr : (element_location e >=? 2 * hbs)
             && (element_location e <? image_length) = false).
{ apply andb_false_iff.
  destruct (Z.lt_ge_cases (element_location e) image_length).
  - left. apply not_true_iff_false. rewrite Z.geb_le. fold hbs in Hshort. lia.
  - right. apply Z.ltb_ge. lia. }
fold hbs. rewrite Hr. reflexivity.
Qed.

(** X13: an image length of zero passes the checks of [init] for every
    header size from 512 to 32768 and every power-of-two erase-block size:
    [init] returns true with an empty buffer and both headers created, the
    second at an offset past the end of the buffer. *)
Theorem init_accepts_empty_image (name : string)
    (capacity erase_block_size generation header_size : Z) (s : State) :
  512 <= header_size <= 32768 ->
  power_of_two erase_block_size ->
  exists s' h0 h1,
    init name capacity erase_block_size 0 generation header_size s
    = (Ok true, s')
    /\ ffff_buf (self s') = Some []
    /\ ffff0 (self s') = Some h0 /\ ffff1 (self s') = Some h1
    /\ Ffff.header_offset h0 = 0
    /\ 0 < Ffff.header_offset h1.
Proof.
intros Hhs Hp.
assert (E : init_rejects erase_block_size 0 header_size = false).
{ apply not_true_iff_false. rewrite init_rejects_iff.
  intros [H|[H|[H|H]]]; try lia; try contradiction.
  apply H. apply Z.divide_0_r. }
rewrite (init_accepted name capacity erase_block_size 0 generation
           header_size s E ltac:(unfold allocatable, maxsize; lia)).
eexists. eexists. eexists. split; [reflexivity|].
cbn [self ffff_buf ffff0 ffff1]. repeat split.
cbn [Ffff.__init__ Ffff.header_offset].
pose proof (get_header_block_size_pos erase_block_size header_size
              (power_of_two_pos _ Hp)). lia.
Qed.

(** X14: [init] reports the first check that fails, in the order header
    size, power of two, multiple, as a [ValueError] with that check's
    message, and leaves the state untouched. *)
Theorem init_first_failure (name : string)
    (capacity erase_block_size image_length generation header_size : Z)
    (s : State) :
  let out := init name capacity erase_block_size image_length generation
               header_size s in
  (header_size < 512 \/ header_size > 32768 ->
   out = (Raise (ValueError "header_size is out of range"), s))
  /\ (512 <= header_size <= 32768 -> ~ power_of_two erase_block_size ->
      out = (Raise (ValueError "Erase block size must be 2**n"), s))
  /\ (512 <= header_size <= 32768 -> power_of_two erase_block_size ->
      ~ (erase_block_size | image_length) ->
      out = (Raise (ValueError
                      "Image length must be a multiple of erase bock size"),
             s)).
Proof.
cbv zeta. unfold init, FFFF_HEADER_SIZE_MIN, FFFF_HEADER_SIZE_MAX.
split; [|split].
- intros Hhs.
  assert (E : (header_size <? 512) || (header_size >? 32768) = true).
  { apply orb_true_iff. rewrite Z.ltb_lt, Z.gtb_gt. exact Hhs. }
  rewrite E. reflexivity.
- intros Hhs Hp.
  assert (E : (header_size <? 512) || (header_size >? 32768) = false).
  { apply orb_false_iff. rewrite Z.ltb_ge.
    split; [lia|]. apply not_true_iff_false. rewrite Z.gtb_gt. lia. }
  rewrite E.
  destruct (Util.is_power_of_2 erase_block_size) eqn:Ep;
    [apply is_power_of_2_iff in Ep; contradiction|].
  reflexivity.
- intros Hhs Hp Hd.
  assert (E : (header_size <? 512) || (header_size >? 32768) = false).
  { apply orb_false_iff. rewrite Z.ltb_ge.
    split; [lia|]. apply not_true_iff_false. rewrite Z.gtb_gt. lia. }
  rewrite E.
  pose proof (power_of_two_pos _ Hp) as Hpos.
  apply is_power_of_2_iff in Hp. rewrite Hp. cbn [negb].
  unfold py_mod.
  destruct (erase_block_size =? 0) eqn:E0; [apply Z.eqb_eq in E0; lia|].
  run_method.
  destruct (image_length mod erase_block_size =? 0) eqn:Em.
  + apply Z.eqb_eq in Em. apply Z.mod_divide in Em; [contradiction|lia].
  + reflexivity.
Qed.

End InitMore.

Section CharacteristicsMore.
Import FfffElement FfffRomimage Spec Layout Parsing.

(** [get_romimage_characteristics] on a buffer long enough for the fixed
    part: the fixed part is stored first, the checks come after. *)
Lemma characteristics_run (s : State) (buf : list byte)
    (fp : Struct.fixed_part) :
  ffff_buf (self s) = Some buf ->
  Struct.unpack_from_fixed_part buf = Ok fp ->
  let s1 := characteristics_stored s fp in
  get_romimage_characteristics s
  = match Struct.unpack_from_16s buf (Struct.fp_header_size fp - 16) with
    | Raise e => (Raise e, s1)
    | Ok tail_sentinel =>
        if negb (String.eqb (Struct.fp_sentinel fp) FFFF_SENTINEL)
        then (Raise (ValueError "invalid sentinel"), s1)
        else if negb (String.eqb (Struct.fp_sentinel fp) tail_sentinel)
                && negb (String.eqb tail_sentinel FFFF_SENTINEL)
        then (Raise (ValueError
                       ("invalid tail sentinel '" +:+ tail_sentinel
                        +:+ "'")), s1)
        else if negb (Util.is_power_of_2 (Struct.fp_erase_block_size fp))
        then (Raise (ValueError "Erase block size must be 2**n"), s1)
        else if negb (Struct.fp_flash_image_length fp
                      mod Struct.fp_erase_block_size fp =? 0)
        then (Raise (ValueError
                       "Image length must be a multiple of erase bock size"),
              s1)
        else (Ok tt,
              mkState
                (set_element_location (self s1)
                   (2 * get_header_block_size (self s1))
                   (Struct.fp_flash_capacity fp))
                (globals s1) (world s1))
    end.
Proof.
intros Hb Hf. cbv zeta.
unfold get_romimage_characteristics, the_buffer,
  recalculate_header_offsets.
run_method. rewrite Hb, Hf.
cbn [self globals world set_timestamp set_characteristics set_reserved
       header_size erase_block_size flash_image_length].
change (Struct.fp_header_size fp - FFFF_HDR_LEN_TAIL_SENTINEL)
  with (Struct.fp_header_size fp - 16).
destruct (Struct.unpack_from_16s buf _) as [tail|e]; [|reflexivity].
destruct (negb (String.eqb (Struct.fp_sentinel fp) FFFF_SENTINEL));
  [reflexivity|].
destruct (negb (String.eqb (Struct.fp_sentinel fp) tail) && _);
  [reflexivity|].
cbv beta.
cbn [self globals world set_timestamp set_characteristics set_reserved
       header_size erase_block_size flash_image_length].
destruct (Util.is_power_of_2 (Struct.fp_erase_block_size fp)) eqn:Ep;
  cbn [negb]; [|reflexivity].
apply is_power_of_2_iff, power_of_two_pos in Ep.
unfold py_mod.
destruct (Struct.fp_erase_block_size fp =? 0) eqn:E0;
  [apply Z.eqb_eq in E0; lia|].
destruct (negb (_ =? 0)); reflexivity.
Qed.

Lemma characteristics_ok_inv (s s' : State) :
  get_romimage_characteristics s = (Ok tt, s') ->
  exists buf fp,
    ffff_buf (self s) = Some buf /\ header_accepted buf fp
    /\ s' = characteristics_done s fp.
Proof.
intros H.
destruct (ffff_buf (self s)) as [buf|] eqn:Hb.
2:{ revert H. unfold get_romimage_characteristics, the_buffer.
    run_method. rewrite Hb. discriminate. }
destruct (Struct.unpack_from_fixed_part buf) as [fp|e] eqn:Hf.
2:{ revert H. unfold get_romimage_characteristics, the_buffer.
    run_method. rewrite Hb, Hf. discriminate. }
rewrite (characteristics_run s buf fp Hb Hf) in H.
exists buf, fp. split; [reflexivity|]. unfold header_accepted.
destruct (Struct.unpack_from_16s buf _) as [tail|e]; [|discriminate].
destruct (String.eqb (Struct.fp_sentinel fp) FFFF_SENTINEL) eqn:E1;
  cbn [negb] in H; [|discriminate].
apply String.eqb_eq in E1.
destruct (String.eqb tail FFFF_SENTINEL) eqn:E2.
2:{ rewrite E1, String.eqb_sym, E2 in H. discriminate. }
apply String.eqb_eq in E2. subst tail.
rewrite andb_false_r in H.
destruct (Util.is_power_of_2 _) eqn:Ep; cbn [negb] in H; [|discriminate].
apply is_power_of_2_iff in Ep.
destruct (_ mod _ =? 0) eqn:Em; cbn [negb] in H; [|discriminate].
apply Z.eqb_eq in Em.
apply Z.mod_divide in Em; [|pose proof (power_of_two_pos _ Ep); lia].
injection H as <-. repeat split; assumption.
Qed.

Lemma characteristics_accepted (s : State) (buf : list byte)
    (fp : Struct.fixed_part) :
  ffff_buf (self s) = Some buf -> header_accepted buf fp ->
  get_romimage_characteristics s = (Ok tt, characteristics_done s fp).
Proof.
intros Hb (Hf & Hs & Ht & Hp & Hd).
rewrite (characteristics_run s buf fp Hb Hf), Ht, Hs.
rewrite String.eqb_refl. cbn [negb andb].
pose proof (power_of_two_pos _ Hp) as Hpos.
apply is_power_of_2_iff in Hp. rewrite Hp. cbn [negb].
apply Z.mod_divide in Hd; [|lia]. rewrite Hd. reflexivity.
Qed.

(** X15: [get_romimage_characteristics] returns exactly when the buffer
    holds the hundred bytes of the fixed part, the sentinel at its start,
    the sentinel again at [header_size - 16], a power-of-two erase-block
    size and an image length that is a multiple of it; unlike [init] it
    puts no bound on the header size read from the file. *)
Theorem characteristics_accepts_iff (s : State) :
  (exists s', get_romimage_characteristics s = (Ok tt, s'))
  <-> exists buf fp,
      ffff_buf (self s) = Some buf /\ header_accepted buf fp.
Proof.
split.
- intros [s' H].
  destruct (characteristics_ok_inv s s' H) as (buf & fp & Hb & Ha & _).
  exists buf, fp. split; assumption.
- intros (buf & fp & Hb & Ha).
  exists (characteristics_done s fp).
  apply characteristics_accepted with buf; assumption.
Qed.

(** X16: [get_romimage_characteristics] stores what it reads before it
    checks it: once the hundred bytes of the fixed part could be read, a run
    that raises has nevertheless overwritten the header size, capacity,
    erase-block size, image length and generation of the ROM image and the
    module-level tail-sentinel offset, while the element window, the
    headers and the buffer are as before; a buffer too short for the fixed
    part raises with nothing changed. *)
Theorem characteristics_failure_keeps_fields (s s' : State) (e : exn)
    (buf : list byte) :
  get_romimage_characteristics s = (Raise e, s') ->
  ffff_buf (self s) = Some buf ->
  match Struct.unpack_from_fixed_part buf with
  | Raise _ => s' = s
  | Ok fp =>
      header_size (self s') = Struct.fp_header_size fp
      /\ flash_capacity (self s') = Struct.fp_flash_capacity fp
      /\ erase_block_size (self s') = Struct.fp_erase_block_size fp
      /\ flash_image_length (self s') = Struct.fp_flash_image_length fp
      /\ header_generation_number (self s')
         = Struct.fp_header_generation_number fp
      /\ g_FFFF_HDR_OFF_TAIL_SENTINEL (globals s')
         = Struct.fp_header_size fp - 16
      /\ element_location_min (self s') = element_location_min (self s)
      /\ element_location_max (self s') = element_location_max (self s)
      /\ ffff0 (self s') = ffff0 (self s)
      /\ ffff1 (self s') = ffff1 (self s)
      /\ ffff_buf (self s') = ffff_buf (self s)
  end.
Proof.
intros H Hb.
destruct (Struct.unpack_from_fixed_part buf) as [fp|err] eqn:Hf.
- rewrite (characteristics_run s buf fp Hb Hf) in H.
  assert (Hs : s' = characteristics_stored s fp).
  { destruct (Struct.unpack_from_16s buf _) as [tail|e1];
      [|congruence].
    destruct (negb (String.eqb (Struct.fp_sentinel fp) FFFF_SENTINEL));
      [congruence|].
    destruct (negb (String.eqb (Struct.fp_sentinel fp) tail) && _);
      [congruence|].
    destruct (negb (Util.is_power_of_2 _)); [congruence|].
    destruct (negb (_ =? 0)); [congruence|discriminate]. }
  subst s'. repeat split.
- revert H. unfold get_romimage_characteristics, the_buffer.
  run_method. rewrite Hb, Hf. congruence.
Qed.

End CharacteristicsMore.

Section ScanMore.
Import FfffElement FfffRomimage Spec Layout Parsing.
Context `{HB : Ffff.HeaderBlock}.

Lemma window_raises (buf : list byte) (offset size : Z) :
  0 <= offset -> Z.of_nat (length buf) < offset + size ->
  Struct.window buf offset size
  = Raise (StructError "requires a buffer of at least the struct size").
Proof.
intros Ho Hl. unfold Struct.window.
destruct (offset <? 0) eqn:E; [apply Z.ltb_lt in E; lia|].
assert (E' : (Z.of_nat (length buf) - offset <? size) = true)
  by (apply Z.ltb_lt; lia).
rewrite E', orb_true_r. reflexivity.
Qed.

(** The test of a candidate one of whose reads leaves the buffer. *)
Lemma candidate_raises (buf : list byte) (hs off : Z) :
  1 <= off -> 16 <= hs -> ~ in_buffer buf hs off ->
  Struct.unpack_from_16s buf off
  = Raise (StructError "requires a buffer of at least the struct size")
  \/ (exists nose, Struct.unpack_from_16s buf off = Ok nose)
     /\ Struct.unpack_from_16s buf (off + (hs - 16))
        = Raise (StructError "requires a buffer of at least the struct size").
Proof.
intros Ho Hhs Hn. unfold Struct.unpack_from_16s.
destruct (Z.lt_ge_cases (Z.of_nat (length buf)) (off + 16)) as [Hl|Hl].
- left. rewrite window_raises by lia. reflexivity.
- right. rewrite window_fits by lia. split; [eexists; reflexivity|].
  rewrite window_raises; [reflexivity|lia|].
  unfold in_buffer in Hn. lia.
Qed.

Lemma create_second_header_frame (buf : list byte) (offset : Z) (s : State) :
  let out := create_second_header buf offset s in
  set_ffff1 (self out.2) None = set_ffff1 (self s) None
  /\ globals out.2 = globals s /\ world out.2 = world s
  /\ match Ffff.unpack buf (header_at (self s) offset) with
     | Ok h =>
         out = (Ok tt,
                mkState (set_ffff1 (self s) (Some h)) (globals s) (world s))
     | Raise e =>
         out = (Raise e,
                mkState
                  (set_ffff1 (self s) (Some (header_at (self s) offset)))
                  (globals s) (world s))
     end.
Proof.
unfold create_second_header, header_at. run_method.
cbn [self globals world ffff1 set_ffff1 flash_image_name flash_capacity
       erase_block_size flash_image_length header_generation_number].
destruct (Ffff.unpack buf _); repeat split.
Qed.

Section Loop.
Variables (buf : list byte) (hs : Z) (s : State).
Hypothesis tail_offset : g_FFFF_HDR_OFF_TAIL_SENTINEL (globals s) = hs - 16.

Lemma classic_in_buffer (off : Z) :
  in_buffer buf hs off \/ ~ in_buffer buf hs off.
Proof. unfold in_buffer. lia. Qed.

(** With enough rounds the scan leaves the loop. *)
Lemma scan_returns (fuel : nat) :
  forall off : Z,
    1 <= off ->
    FFFF_MAX_HEADER_BLOCK_OFFSET <= off * 2 ^ Z.of_nat fuel ->
    exists out, scan_second_header (S fuel) buf off s = Some out.
Proof.
induction fuel as [|fuel IH]; intros off Hoff Hmax; rewrite scan_round.
- change (2 ^ Z.of_nat 0) with 1 in Hmax. rewrite Z.mul_1_r in Hmax.
  apply Z.ltb_ge in Hmax. rewrite Hmax. eexists; reflexivity.
- destruct (off <? _); [|eexists; reflexivity].
  destruct (Struct.unpack_from_16s buf off); [|eexists; reflexivity].
  destruct (Struct.unpack_from_16s buf _); [|eexists; reflexivity].
  destruct (_ && _); [eexists; reflexivity|].
  rewrite Z.shiftl_mul_pow2 by lia. change (2 ^ 1) with 2.
  apply IH; [lia|].
  rewrite Nat2Z.inj_succ, Z.pow_succ_r in Hmax by lia. lia.
Qed.

(** Every way the scan can leave the loop. *)
Lemma scan_cases (fuel : nat) :
  forall (off : Z) (out : result unit * State),
    1 <= off -> 16 <= hs ->
    scan_second_header fuel buf off s = Some out ->
    (out = (Ok tt, s)
     /\ forall j, 0 <= j ->
          off * 2 ^ j < FFFF_MAX_HEADER_BLOCK_OFFSET ->
          in_buffer buf hs (off * 2 ^ j)
          /\ ~ accepted buf hs (off * 2 ^ j))
    \/ (exists k,
          0 <= k /\ off * 2 ^ k < FFFF_MAX_HEADER_BLOCK_OFFSET
          /\ in_buffer buf hs (off * 2 ^ k)
          /\ accepted buf hs (off * 2 ^ k)
          /\ (forall j, 0 <= j < k ->
                in_buffer buf hs (off * 2 ^ j)
                /\ ~ accepted buf hs (off * 2 ^ j))
          /\ out = create_second_header buf (off * 2 ^ k) s)
    \/ (exists k msg,
          0 <= k /\ off * 2 ^ k < FFFF_MAX_HEADER_BLOCK_OFFSET
          /\ ~ in_buffer buf hs (off * 2 ^ k)
          /\ (forall j, 0 <= j < k ->
                in_buffer buf hs (off * 2 ^ j)
                /\ ~ accepted buf hs (off * 2 ^ j))
          /\ out = (Raise (StructError msg), s)).
Proof.
induction fuel as [|fuel IH]; intros off out Hoff Hhs H; [discriminate|].
rewrite scan_round in H.
destruct (off <? FFFF_MAX_HEADER_BLOCK_OFFSET) eqn:Hlt.
2:{ left. apply Z.ltb_ge in Hlt. injection H as <-.
    split; [reflexivity|]. intros j Hj Hjm. exfalso.
    assert (1 <= 2 ^ j) by (apply Z.lt_pred_le, Z.pow_pos_nonneg; lia).
    nia. }
apply Z.ltb_lt in Hlt.
destruct (classic_in_buffer off) as [Hin|Hout].
2:{ right. right.
    destruct (candidate_raises buf hs off Hoff Hhs Hout)
      as [Hn|[[nose Hn] Ht]].
    - rewrite Hn in H. injection H as <-.
      exists 0. eexists. change (2 ^ 0) with 1. rewrite Z.mul_1_r.
      split; [lia|]. split; [exact Hlt|]. split; [exact Hout|].
      split; [intros j Hj; lia|reflexivity].
    - rewrite Hn, tail_offset, Ht in H. injection H as <-.
      exists 0. eexists. change (2 ^ 0) with 1. rewrite Z.mul_1_r.
      split; [lia|]. split; [exact Hlt|]. split; [exact Hout|].
      split; [intros j Hj; lia|reflexivity]. }
destruct (candidate_reads buf hs off Hin) as [Hn Ht].
rewrite Hn, tail_offset, Ht in H.
destruct (_ && _) eqn:E.
- apply accepted_test in E. injection H as <-.
  right. left. exists 0. change (2 ^ 0) with 1. rewrite Z.mul_1_r.
  split; [lia|]. split; [exact Hlt|]. split; [exact Hin|].
  split; [exact E|]. split; [intros j Hj; lia|reflexivity].
- assert (Hno : ~ accepted buf hs off).
  { intros Ha. apply accepted_test in Ha. congruence. }
  rewrite Z.shiftl_mul_pow2 in H by lia. change (2 ^ 1) with 2 in H.
  assert (Hshift : forall j, 0 <= j ->
                     off * 2 * 2 ^ j = off * 2 ^ (j + 1)).
  { intros j Hj. rewrite Z.pow_add_r by lia. change (2 ^ 1) with 2. lia. }
  assert (Hfirst : forall P : Z -> Prop,
            P off -> forall k, 0 <= k ->
            (forall j, 0 <= j < k -> P (off * 2 * 2 ^ j)) ->
            forall j, 0 <= j < k + 1 -> P (off * 2 ^ j)).
  { intros P P0 k Hk Hall j Hj.
    destruct (Z.eq_dec j 0) as [->|Hj0].
    - change (2 ^ 0) with 1. rewrite Z.mul_1_r. exact P0.
    - replace j with (j - 1 + 1) by lia. rewrite <- Hshift by lia.
      apply Hall. lia. }
  destruct (IH (off * 2) out ltac:(lia) Hhs H)
    as [[-> Hall]|[(k & Hk & Hm & Hi & Ha & Hb & ->)
                  |(k & msg & Hk & Hm & Hi & Hb & ->)]].
  + left. split; [reflexivity|]. intros j Hj Hjm.
    destruct (Z.eq_dec j 0) as [->|Hj0].
    * change (2 ^ 0) with 1. rewrite Z.mul_1_r. split; assumption.
    * replace j with (j - 1 + 1) in * by lia.
      rewrite <- Hshift in * by lia. apply Hall; lia.
  + right. left. exists (k + 1). rewrite <- Hshift by lia.
    split; [lia|]. split; [exact Hm|]. split; [exact Hi|].
    split; [exact Ha|]. split; [|reflexivity].
    apply (Hfirst (fun c => in_buffer buf hs c /\ ~ accepted buf hs c));
      [split; assumption|lia|exact Hb].
  + right. right. exists (k + 1), msg. rewrite <- Hshift by lia.
    split; [lia|]. split; [exact Hm|]. split; [exact Hi|].
    split; [|reflexivity].
    apply (Hfirst (fun c => in_buffer buf hs c /\ ~ accepted buf hs c));
      [split; assumption|lia|exact Hb].
Qed.

End Loop.

End ScanMore.

Section ParseMore.
Import FfffElement FfffRomimage Spec Layout Parsing.
Context `{HB : Ffff.HeaderBlock}.

Lemma read_file_run (filename : string) (s : State) :
  read_file filename s
  = match files (world s) !! filename with
    | Some content => (Ok content, s)
    | None =>
        match files (world s) !! (filename +:+ FFFF_FILE_EXTENSION) with
        | Some content => (Ok content, s)
        | None => (Raise (IOError (" can't find FFFF file" +:+ filename)), s)
        end
    end.
Proof.
unfold read_file. run_method.
destruct (files (world s) !! filename); [reflexivity|].
destruct (files (world s) !! _); reflexivity.
Qed.

(** Whatever [get_romimage_characteristics] does, the buffer, the headers
    and the world stay. *)
Lemma characteristics_frame (s s' : State) (r : result unit) :
  get_romimage_characteristics s = (r, s') ->
  ffff_buf (self s') = ffff_buf (self s)
  /\ ffff0 (self s') = ffff0 (self s)
  /\ ffff1 (self s') = ffff1 (self s)
  /\ world s' = world s.
Proof.
intros H.
destruct (ffff_buf (self s)) as [buf|] eqn:Hb.
2:{ revert H. unfold get_romimage_characteristics, the_buffer.
    run_method. rewrite Hb. intros [= <- <-]. rewrite Hb. repeat split. }
destruct (Struct.unpack_from_fixed_part buf) as [fp|e] eqn:Hf.
2:{ revert H. unfold get_romimage_characteristics, the_buffer.
    run_method. rewrite Hb, Hf. intros [= <- <-]. rewrite Hb.
    repeat split. }
rewrite (characteristics_run s buf fp Hb Hf) in H.
assert (Hs : s' = characteristics_stored s fp
             \/ s' = characteristics_done s fp).
{ destruct (Struct.unpack_from_16s buf _) as [tail|e1];
    [|left; congruence].
  destruct (negb (String.eqb (Struct.fp_sentinel fp) FFFF_SENTINEL));
    [left; congruence|].
  destruct (negb (String.eqb (Struct.fp_sentinel fp) tail) && _);
    [left; congruence|].
  destruct (negb (Util.is_power_of_2 _)); [left; congruence|].
  destruct (negb (_ =? 0)); [left; congruence|right].
  injection H as _ <-. reflexivity. }
destruct Hs as [-> | ->]; rewrite <- Hb; repeat split.
Qed.

(** [read_first_header] once the file has been read. *)
Lemma header_after_read (content : list byte) (s s' : State)
    (r : result (list byte)) :
  (update (fun r => set_ffff_buf r (Some content));;
   get_romimage_characteristics;;
   update (fun r => set_ffff0 r (Some (header_at r 0)));;
   s0 ← get;
   match ffff0 (self s0) with
   | Some h0 =>
       h ← lift (Ffff.unpack content h0);
       update (fun r => set_ffff0 r (Some h));;
       ret content
   | None =>
       raise (AttributeError "'NoneType' object has no attribute 'unpack'")
   end) s = (r, s') ->
  ffff_buf (self s') = Some content
  /\ ffff1 (self s') = ffff1 (self s)
  /\ world s' = world s
  /\ forall buf,
      r = Ok buf ->
      buf = content
      /\ exists fp h0,
          header_accepted content fp
          /\ self s'
             = set_ffff0
                 (self (characteristics_done
                          (mkState (set_ffff_buf (self s) (Some content))
                             (globals s) (world s)) fp))
                 (Some h0)
          /\ globals s'
             = globals (characteristics_done
                          (mkState (set_ffff_buf (self s) (Some content))
                             (globals s) (world s)) fp).
Proof.
run_method.
set (s2 := mkState (set_ffff_buf (self s) (Some content)) (globals s)
             (world s)).
destruct (get_romimage_characteristics s2) as [[[]|e] s3] eqn:Hc.
- destruct (characteristics_ok_inv s2 s3 Hc) as (b & fp & Hb & Hacc & ->).
  cbn [s2 self ffff_buf set_ffff_buf] in Hb. injection Hb as <-.
  cbn [self ffff0 set_ffff0].
  destruct (Ffff.unpack content _) as [h|e]; intros [= <- <-];
    repeat (split; [reflexivity|]); intros buf [= <-].
  split; [reflexivity|]. exists fp, h.
  split; [exact Hacc|]. split; reflexivity.
- apply characteristics_frame in Hc as (Hb & _ & H1 & Hw).
  intros [= <- <-]. rewrite Hb, H1, Hw.
  repeat (split; [reflexivity|]). discriminate.
Qed.

(** Every way [read_first_header] can end. *)
Lemma read_first_header_cases (filename : string) (s s' : State)
    (r : result (list byte)) :
  read_first_header filename s = (r, s') ->
  (files (world s) !! filename = None
   /\ files (world s) !! (filename +:+ FFFF_FILE_EXTENSION) = None
   /\ r = Raise (IOError (" can't find FFFF file" +:+ filename))
   /\ s' = s)
  \/ exists content,
      resolved s filename content
      /\ ffff_buf (self s') = Some content
      /\ ffff1 (self s') = ffff1 (self s)
      /\ world s' = world s
      /\ forall buf,
          r = Ok buf ->
          buf = content
          /\ exists fp h0,
              header_accepted content fp
              /\ self s'
                 = set_ffff0
                     (self (characteristics_done
                              (mkState (set_ffff_buf (self s) (Some content))
                                 (globals s) (world s)) fp))
                     (Some h0)
              /\ globals s'
                 = globals (characteristics_done
                              (mkState (set_ffff_buf (self s) (Some content))
                                 (globals s) (world s)) fp).
Proof.
unfold read_first_header, mbind at 1, M_bind at 1, seq at 1.
rewrite read_file_run. intros H.
destruct (files (world s) !! filename) as [c|] eqn:E1.
- right. exists c. split; [left; exact E1|].
  apply header_after_read. exact H.
- destruct (files (world s) !! (filename +:+ FFFF_FILE_EXTENSION))
    as [c|] eqn:E2.
  + right. exists c. split; [right; split; assumption|].
    apply header_after_read. exact H.
  + left. injection H as <- <-. repeat split.
Qed.

End ParseMore.

Section ParseOutcomes.
Import FfffElement FfffRomimage Spec Layout Parsing.
Context `{HB : Ffff.HeaderBlock}.

Lemma scan_frame (fuel : nat) (buf : list byte) :
  forall (offset : Z) (s : State) (out : result unit * State),
    scan_second_header fuel buf offset s = Some out ->
    set_ffff1 (self out.2) None = set_ffff1 (self s) None
    /\ globals out.2 = globals s /\ world out.2 = world s.
Proof.
induction fuel as [|fuel IH]; intros offset s out H; [discriminate|].
rewrite scan_round in H.
destruct (offset <? _); [|injection H as <-; repeat split].
destruct (Struct.unpack_from_16s buf offset);
  [|injection H as <-; repeat split].
destruct (Struct.unpack_from_16s buf _); [|injection H as <-; repeat split].
destruct (_ && _).
- injection H as <-.
  destruct (create_second_header_frame buf offset s) as (H1 & H2 & H3 & _).
  repeat split; assumption.
- eapply IH. exact H.
Qed.

Lemma fixed_part_words (buf : list byte) (fp : Struct.fixed_part) :
  Struct.unpack_from_fixed_part buf = Ok fp ->
  100 <= Z.of_nat (length buf)
  /\ Struct.fp_flash_capacity fp = Struct.le_uint (Struct.read buf 80 4)
  /\ Struct.fp_erase_block_size fp = Struct.le_uint (Struct.read buf 84 4)
  /\ Struct.fp_header_size fp = Struct.le_uint (Struct.read buf 88 4)
  /\ Struct.fp_flash_image_length fp
     = Struct.le_uint (Struct.read buf 92 4)
  /\ Struct.fp_header_generation_number fp
     = Struct.le_uint (Struct.read buf 96 4).
Proof.
unfold Struct.unpack_from_fixed_part.
destruct (Struct.window buf 0 100) as [off|e] eqn:Hw;
  cbn [mbind result_bind Py.bind]; [|discriminate].
apply window_ok in Hw as (_ & Hl & Hoff). cbn in Hoff. subst off.
intros [= <-]. cbn. split; [lia|]. repeat split.
Qed.


(** [init_from_file] ends as its scan ends. *)
Lemma init_from_file_run (filename : string) (s : State) :
  filename <> "" ->
  init_from_file filename s
  = match read_first_header filename s with
    | (Raise e, s1) => Some (Raise e, s1)
    | (Ok buf, s1) =>
        option_map finish
          (scan_second_header scan_rounds buf
             (get_header_block_size (self s1)) s1)
    end.
Proof.
intros Hname. unfold init_from_file.
apply String.eqb_neq in Hname. rewrite Hname. cbn [negb].
destruct (read_first_header filename s) as [[buf|e] s1]; [|reflexivity].
destruct (scan_second_header _ _ _ _) as [[[[]|e] s2]|]; reflexivity.
Qed.

(** X17: when [init_from_file] returns, the buffer is the content of the
    file and the element window is read off its first header: it ends at
    the flash-capacity word (bytes 80 to 83), whatever the image-length word
    (bytes 92 to 95) is, and starts at twice the header block size of the
    erase-block-size and header-size words. *)
Theorem parsed_window_from_file (filename : string) (s s' : State) :
  init_from_file filename s = Some (Ok true, s') ->
  exists buf,
    resolved s filename buf
    /\ ffff_buf (self s') = Some buf
    /\ 100 <= Z.of_nat (length buf)
    /\ element_location_max (self s')
       = Struct.le_uint (Struct.read buf 80 4)
    /\ element_location_min (self s')
       = 2 * Ffff.get_header_block_size
               (Struct.le_uint (Struct.read buf 84 4))
               (Struct.le_uint (Struct.read buf 88 4))
    /\ flash_image_length (self s')
       = Struct.le_uint (Struct.read buf 92 4).
Proof.
intros H.
assert (Hname : filename <> "").
{ intros ->. discriminate. }
rewrite (init_from_file_run filename s Hname) in H.
destruct (read_first_header filename s) as [[buf|e] s1] eqn:Hread;
  [|discriminate].
destruct (read_first_header_cases filename s s1 _ Hread)
  as [(_ & _ & [=] & _)|(c & Hres & Hb & _ & _ & Hok)].
destruct (Hok buf eq_refl) as (-> & fp & h0 & Hacc & Hself & _).
destruct (scan_second_header _ _ _ _) as [[r s2]|] eqn:Hscan;
  [|discriminate].
apply scan_frame in Hscan as (Hf & _ & _). cbn [snd] in Hf.
assert (Hs2 : s2 = s').
{ destruct r; cbn in H; congruence. }
subst s2.
destruct Hacc as (Hfp & _).
apply fixed_part_words in Hfp as (Hlen & Hcap & Hebs & Hhs & Himg & _).
exists c. split; [exact Hres|].
apply (f_equal ffff_buf) in Hf as F1.
apply (f_equal element_location_max) in Hf as F2.
apply (f_equal element_location_min) in Hf as F3.
apply (f_equal flash_image_length) in Hf as F4.
cbn in F1, F2, F3, F4.
rewrite F1, F2, F3, F4, Hb, Hself. cbn.
unfold get_header_block_size. cbn.
rewrite <- Hcap, <- Hebs, <- Hhs, <- Himg. repeat split. exact Hlen.
Qed.

(** X18: [init_from_file] with an empty name raises [ValueError], and with
    a name for which neither the file nor the file with the default
    extension exists raises [IOError] naming it; the ROM image is untouched
    in both cases. *)
Theorem init_from_file_no_file (filename : string) (s : State) :
  (filename = "" ->
   init_from_file filename s
   = Some (Raise (ValueError "no file specified"), s))
  /\ (filename <> "" ->
      files (world s) !! filename = None ->
      files (world s) !! (filename +:+ FFFF_FILE_EXTENSION) = None ->
      init_from_file filename s
      = Some (Raise (IOError (" can't find FFFF file" +:+ filename)), s)).
Proof.
split.
- intros ->. reflexivity.
- intros Hname H1 H2. rewrite (init_from_file_run filename s Hname).
  unfold read_first_header, mbind at 1, M_bind at 1, seq at 1.
  rewrite read_file_run, H1, H2. reflexivity.
Qed.



(** X20: [init_from_file] always ends: the scan for the second header
    leaves its loop within twenty-one rounds, because it starts from a
    header block size of at least one, which the power-of-two check on the
    erase-block size has secured. *)
Theorem init_from_file_returns (filename : string) (s : State) :
  exists out, init_from_file filename s = Some out.
Proof.
destruct (String.eqb filename "") eqn:En.
- unfold init_from_file. rewrite En. eexists; reflexivity.
- apply String.eqb_neq in En. rewrite (init_from_file_run filename s En).
  destruct (read_first_header filename s) as [[buf|e] s1] eqn:Hread;
    [|eexists; reflexivity].
  apply read_first_header_ok in Hread as (_ & Htail & Hpow & _).
  destruct (scan_returns buf s1 20 (get_header_block_size (self s1)))
    as [out Hout].
  + apply get_header_block_size_pos, power_of_two_pos, Hpow.
  + pose proof (get_header_block_size_pos _ (header_size (self s1))
                  (power_of_two_pos _ Hpow)) as Hpos.
    unfold get_header_block_size, FFFF_MAX_HEADER_BLOCK_OFFSET.
    change (2 ^ Z.of_nat 20) with 1048576. lia.
  + unfold scan_rounds. rewrite Hout. eexists; reflexivity.
Qed.

(** X21: in the scan of [init_from_file], with a header size of at least
    sixteen, the first candidate below 512 KiB one of whose two sentinel
    reads leaves the buffer, when no candidate before it was accepted, makes
    [init_from_file] raise [struct.error]; header 1 is then as it was. *)
Theorem second_header_scan_raises (filename : string) (s s1 : State)
    (buf : list byte) (k : Z) :
  filename <> "" ->
  read_first_header filename s = (Ok buf, s1) ->
  16 <= header_size (self s1) ->
  let hs := header_size (self s1) in
  let candidate j := get_header_block_size (self s1) * 2 ^ j in
  0 <= k ->
  candidate k < FFFF_MAX_HEADER_BLOCK_OFFSET ->
  ~ in_buffer buf hs (candidate k) ->
  (forall j, 0 <= j < k ->
             in_buffer buf hs (candidate j)
             /\ ~ accepted buf hs (candidate j)) ->
  (exists msg,
      init_from_file filename s = Some (Raise (StructError msg), s1))
  /\ ffff1 (self s1) = ffff1 (self s).
Proof.
intros Hname Hread Hhs hs candidate Hk Hmax Hout Hbefore.
pose proof (read_first_header_ok filename s s1 buf Hread)
  as (_ & Htail & Hpow & _ & _ & Hf1 & _).
split; [|exact Hf1].
assert (Hhbs : 1 <= get_header_block_size (self s1)).
{ apply get_header_block_size_pos, power_of_two_pos, Hpow. }
rewrite (init_from_file_run filename s Hname), Hread.
destruct (scan_returns buf s1 20 (get_header_block_size (self s1)))
  as [out Hscan]; [exact Hhbs| |].
{ unfold FFFF_MAX_HEADER_BLOCK_OFFSET.
  change (2 ^ Z.of_nat 20) with 1048576. lia. }
unfold scan_rounds. rewrite Hscan.
destruct (scan_cases buf hs s1 Htail _ _ out Hhbs Hhs Hscan)
  as [[-> Hall]|[(k' & Hk' & Hm & Hi & Ha & Hb & ->)
                |(k' & msg & Hk' & Hm & Hi & Hb & ->)]].
- exfalso. apply Hout. apply Hall; assumption.
- exfalso. destruct (Z.lt_trichotomy k k') as [Hlt|[->|Hgt]].
  + apply Hout. apply Hb. lia.
  + apply Hout. exact Hi.
  + destruct (Hbefore k') as [_ Hn]; [lia|]. apply Hn. exact Ha.
- exists msg. reflexivity.
Qed.

(** X22: with a header size of at least sixteen, [init_from_file] returns
    true only in two ways: no candidate below 512 KiB is accepted and the
    ROM image is as the first header left it, or header 1 is the header
    unpacked at the first accepted candidate; it never creates header 1 at
    an offset whose sentinels do not match. *)
Theorem second_header_only_where_accepted (filename : string)
    (s s1 s' : State) (buf : list byte) :
  filename <> "" ->
  read_first_header filename s = (Ok buf, s1) ->
  16 <= header_size (self s1) ->
  init_from_file filename s = Some (Ok true, s') ->
  let hs := header_size (self s1) in
  let candidate j := get_header_block_size (self s1) * 2 ^ j in
  (s' = s1
   /\ forall j, 0 <= j -> candidate j < FFFF_MAX_HEADER_BLOCK_OFFSET ->
        ~ accepted buf hs (candidate j))
  \/ exists k h,
      0 <= k /\ candidate k < FFFF_MAX_HEADER_BLOCK_OFFSET
      /\ accepted buf hs (candidate k)
      /\ (forall j, 0 <= j < k -> ~ accepted buf hs (candidate j))
      /\ Ffff.unpack buf (header_at (self s1) (candidate k)) = Ok h
      /\ s' = mkState (set_ffff1 (self s1) (Some h)) (globals s1) (world s1).
Proof.
intros Hname Hread Hhs H hs candidate.
pose proof (read_first_header_ok filename s s1 buf Hread)
  as (_ & Htail & Hpow & _).
assert (Hhbs : 1 <= get_header_block_size (self s1)).
{ apply get_header_block_size_pos, power_of_two_pos, Hpow. }
rewrite (init_from_file_run filename s Hname), Hread in H.
destruct (scan_second_header _ _ _ _) as [out|] eqn:Hscan; [|discriminate].
cbn [option_map] in H. injection H as H.
destruct (scan_cases buf hs s1 Htail _ _ out Hhbs Hhs Hscan)
  as [[-> Hall]|[(k & Hk & Hm & Hi & Ha & Hb & ->)
                |(k & msg & Hk & Hm & Hi & Hb & ->)]].
- left. cbn in H. injection H as <-. split; [reflexivity|].
  intros j Hj Hjm. apply Hall; assumption.
- right.
  destruct (create_second_header_frame buf
              (get_header_block_size (self s1) * 2 ^ k) s1)
    as (_ & _ & _ & Hout).
  destruct (Ffff.unpack buf _) as [h|e] eqn:Hun.
  + rewrite Hout in H. cbn in H. injection H as <-.
    exists k, h. repeat split; try assumption.
    * apply Ha.
    * apply Ha.
    * intros j Hj. apply Hb. exact Hj.
  + rewrite Hout in H. discriminate.
- discriminate.
Qed.

End ParseOutcomes.

Section ShortImages.
Import FfffElement FfffRomimage Spec Layout Parsing.
Context `{HB : Ffff.HeaderBlock}.

(** Doubling from a first candidate below 512 KiB reaches a candidate
    below 512 KiB that is at least 256 KiB. *)
Lemma last_candidate (first : Z) :
  1 <= first < FFFF_MAX_HEADER_BLOCK_OFFSET ->
  exists j,
    0 <= j /\ first * 2 ^ j < FFFF_MAX_HEADER_BLOCK_OFFSET
    /\ 2 ^ 18 <= first * 2 ^ j.
Proof.
unfold FFFF_MAX_HEADER_BLOCK_OFFSET. change (512 * 1024) with 524288.
change (2 ^ 18) with 262144. intros [H1 H2].
set (q := 524287 / first).
assert (Hq : 1 <= q).
{ unfold q. apply Z.div_le_lower_bound; lia. }
assert (Hdiv : first * q <= 524287 < first * (q + 1)).
{ unfold q. pose proof (Z.mul_div_le 524287 first ltac:(lia)).
  pose proof (Z.mul_succ_div_gt 524287 first ltac:(lia)).
  unfold Z.succ in *. lia. }
destruct (Z.log2_spec q ltac:(lia)) as [Hlo Hhi].
exists (Z.log2 q). split; [apply Z.log2_nonneg|].
rewrite Z.pow_succ_r in Hhi by apply Z.log2_nonneg.
split; nia.
Qed.

(** An image shorter than 256 KiB and a header cannot be parsed without a
    second header: when [init_from_file] returns for it, a candidate has
    been accepted, and otherwise it raises, never returning with header 1
    absent. *)
Lemma short_image_needs_second_header (filename : string)
    (s s1 s' : State) (buf : list byte) :
  filename <> "" ->
  read_first_header filename s = (Ok buf, s1) ->
  16 <= header_size (self s1) ->
  get_header_block_size (self s1) < FFFF_MAX_HEADER_BLOCK_OFFSET ->
  Z.of_nat (length buf) < 2 ^ 18 + header_size (self s1) ->
  init_from_file filename s = Some (Ok true, s') ->
  exists k,
    0 <= k
    /\ get_header_block_size (self s1) * 2 ^ k
       < FFFF_MAX_HEADER_BLOCK_OFFSET
    /\ accepted buf (header_size (self s1))
         (get_header_block_size (self s1) * 2 ^ k).
Proof.
intros Hname Hread Hhs Hlow Hshort H.
pose proof (read_first_header_ok filename s s1 buf Hread)
  as (_ & Htail & Hpow & _).
assert (Hhbs : 1 <= get_header_block_size (self s1)).
{ apply get_header_block_size_pos, power_of_two_pos, Hpow. }
rewrite (init_from_file_run filename s Hname), Hread in H.
destruct (scan_second_header _ _ _ _) as [out|] eqn:Hscan; [|discriminate].
cbn [option_map] in H. injection H as H.
destruct (scan_cases buf _ s1 Htail _ _ out Hhbs Hhs Hscan)
  as [[-> Hall]|[(k & Hk & Hm & Hi & Ha & Hb & ->)
                |(k & msg & Hk & Hm & Hi & Hb & ->)]].
- exfalso.
  destruct (last_candidate (get_header_block_size (self s1))
              ltac:(lia)) as (j & Hj & Hjm & Hbig).
  destruct (Hall j Hj Hjm) as [(_ & _ & _ & Hin) _]. lia.
- exists k. split; [exact Hk|]. split; [exact Hm|exact Ha].
- discriminate.
Qed.

End ShortImages.

Section WriteMore.
Import FfffElement FfffRomimage Spec Layout Parsing.

Lemma rfind_from_absent (s : string) (c : ascii) :
  forall i found,
    ~ In c (list_ascii_of_string s) -> rfind_from i s c found = found.
Proof.
induction s as [|a s IH]; intros i found Hn; [reflexivity|].
cbn [rfind_from]. cbn [list_ascii_of_string In] in Hn.
destruct (Ascii.eqb a c) eqn:E.
- apply Ascii.eqb_eq in E. tauto.
- apply IH. tauto.
Qed.

Lemma rfind_from_present (s : string) (c : ascii) :
  forall i found,
    In c (list_ascii_of_string s) -> i <= rfind_from i s c found.
Proof.
induction s as [|a s IH]; intros i found Hin; [destruct Hin|].
cbn [rfind_from].
destruct (in_dec ascii_dec c (list_ascii_of_string s)) as [Hs|Hs].
- specialize (IH (i + 1) (if Ascii.eqb a c then i else found) Hs). lia.
- rewrite rfind_from_absent by exact Hs.
  cbn [list_ascii_of_string In] in Hin. destruct Hin as [->|Hin]; [|tauto].
  rewrite Ascii.eqb_refl. lia.
Qed.

(** [rfind] finds nothing exactly in a string without the character. *)
Lemma rfind_none_iff (s : string) (c : ascii) :
  rfind s c = -1 <-> ~ In c (list_ascii_of_string s).
Proof.
unfold rfind. split.
- intros H Hin. pose proof (rfind_from_present s c 0 (-1) Hin). lia.
- apply rfind_from_absent.
Qed.

Lemma written_name_cases (path : string) :
  (In "."%char (list_ascii_of_string path) -> written_name path = path)
  /\ (~ In "."%char (list_ascii_of_string path) ->
      written_name path = path +:+ FFFF_FILE_EXTENSION).
Proof.
unfold written_name. split; intros H.
- destruct (rfind path "." =? -1) eqn:E; [|reflexivity].
  apply Z.eqb_eq, rfind_none_iff in E. contradiction.
- apply rfind_none_iff, Z.eqb_eq in H. rewrite H. reflexivity.
Qed.

(** A run of [write] that returns. *)
Lemma write_returns_inv (path : string) (s s' : State) (r : bool) :
  write path s = (Ok r, s') ->
  exists buf,
    r = true
    /\ ffff_buf (self s) = Some buf
    /\ (written_name path ∉ readonly (world s))
    /\ s' = mkState (self s) (globals s)
              (mkWorld
                 (<[written_name path := buf]>
                    (<[written_name path := []]> (files (world s))))
                 (readonly (world s))
                 (stdout (world s) ++ ["Wrote " +:+ written_name path])).
Proof.
intros H.
destruct (validity_gate (ffff0 (self s))) as [V0|V0];
  [destruct (validity_gate (ffff1 (self s))) as [V1|V1]|].
- rewrite (write_passed path s V0 V1) in H. cbv zeta in H.
  destruct (bool_decide (written_name path ∈ readonly (world s))) eqn:Eb;
    [discriminate|].
  apply bool_decide_eq_false in Eb.
  destruct (ffff_buf (self s)) as [buf|]; [|discriminate].
  injection H as <- <-. exists buf. repeat split. exact Eb.
- destruct (write_refused path s) as [e He]; [tauto|].
  rewrite He in H. discriminate.
- destruct (write_refused path s) as [e He]; [tauto|].
  rewrite He in H. discriminate.
Qed.



(** X23: the default extension is added exactly when the path has no '.'
    anywhere, a dot of a directory part included: a [write] that returns
    has stored the whole buffer under the path itself when the path holds a
    '.', and under the path followed by ".ffff" when it holds none; no
    other file has changed, one line has been printed, and the ROM image is
    as before. *)
Theorem write_target (path : string) (s s' : State) (r : bool) :
  write path s = (Ok r, s') ->
  exists buf name,
    ffff_buf (self s) = Some buf
    /\ (In "."%char (list_ascii_of_string path) -> name = path)
    /\ (~ In "."%char (list_ascii_of_string path) ->
        name = path +:+ ".ffff")
    /\ files (world s') !! name = Some buf
    /\ (forall other, other <> name ->
          files (world s') !! other = files (world s) !! other)
    /\ stdout (world s') = (stdout (world s) ++ ["Wrote " +:+ name])%list
    /\ self s' = self s.
Proof.
intros H. apply write_returns_inv in H as (buf & _ & Hb & _ & ->).
exists buf, (written_name path). split; [exact Hb|].
destruct (written_name_cases path) as [Hd Hn].
split; [exact Hd|]. split; [exact Hn|].
cbn [world files stdout self]. split; [apply lookup_insert_eq|].
split; [|split; reflexivity].
intros other Hne. rewrite !lookup_insert_ne by congruence. reflexivity.
Qed.

End WriteMore.

Section WriteThenRead.
Import FfffElement FfffRomimage Spec Layout Parsing.
Context `{HB : Ffff.HeaderBlock}.


(** X25: [recalculate_header_offsets] always returns; the element table of
    the capacity it computes, starting at offset 116, ends at or before the
    tail sentinel at [header_size - 16], and one more record would overlap
    it; the four reserved words are reset to zero and nothing else of the
    ROM image changes. *)
Theorem recalculate_table_fits (s : State) :
  exists s' n,
    recalculate_header_offsets s = (Ok tt, s')
    /\ g_FFFF_HDR_NUM_ELEMENTS (globals s') = Some n
    /\ g_FFFF_HDR_LEN_ELEMENT_TBL (globals s') = Some (n * FFFF_ELT_LENGTH)
    /\ g_FFFF_HDR_OFF_TAIL_SENTINEL (globals s')
       = header_size (self s) - 16
    /\ FFFF_HDR_OFF_ELEMENT_TBL + n * FFFF_ELT_LENGTH
       <= header_size (self s) - 16
       < FFFF_HDR_OFF_ELEMENT_TBL + (n + 1) * FFFF_ELT_LENGTH
    /\ self s' = set_reserved (self s) (Some [0; 0; 0; 0])
    /\ world s' = world s.
Proof.
unfold recalculate_header_offsets. run_method.
eexists. eexists. split; [reflexivity|].
cbn [globals self world g_FFFF_HDR_NUM_ELEMENTS g_FFFF_HDR_LEN_ELEMENT_TBL
       g_FFFF_HDR_OFF_TAIL_SENTINEL].
repeat (split; [reflexivity|]).
split; [|split; reflexivity].
change FFFF_HDR_OFF_ELEMENT_TBL with 116.
change FFFF_HDR_LEN_FIXED_PART with 132.
change FFFF_ELT_LENGTH with 20.
Z.to_euclidean_division_equations; lia.
Qed.

End WriteThenRead.

(** * The further properties on sample inputs *)

Section MoreSamples.
Import Struct FfffElement FfffRomimage Spec Layout Parsing Inputs.

(** [unpack_pack_restores] on the stage-3 record at offset 4 of a buffer of
    32 bytes. *)
Lemma unpack_pack_restores_witness :
  exists e',
    unpack sample_end_of_table packed_buffer 4 = Ok (e', false)
    /\ pack e' packed_buffer 4 = Ok (packed_buffer, 4 + FFFF_ELT_LENGTH).
Proof.
  eexists.
  assert (H : unpack sample_end_of_table packed_buffer 4 = Ok (_, false))
    by (vm_compute; reflexivity).
  split; [exact H|].
  exact (unpack_pack_restores _ _ _ _ _ H).
Defined.

(** [pack_frame] on the stage-3 element packed at offset 4 of 32 zero
    bytes. *)
Lemma pack_frame_witness :
  pack sample_element (replicate 32 x00) 4 = Ok (packed_buffer, 24)
  /\ length packed_buffer = length (replicate 32 x00)
  /\ read packed_buffer 4 20 = record_bytes sample_element
  /\ forall i : nat,
      Z.of_nat i < 4 \/ 24 <= Z.of_nat i ->
      packed_buffer !! i = replicate 32 x00 !! i.
Proof.
  assert (H : pack sample_element (replicate 32 x00) 4
              = Ok (packed_buffer, 24)) by reflexivity.
  split; [exact H|].
  destruct (pack_frame _ _ _ _ _ H) as (_ & Hl & off & Hoff & _ & _ & Hr & Ho).
  change (off = 4) in Hoff. subst off.
  split; [exact Hl|]. split; [exact Hr|exact Ho].
Defined.

(** [pack_unpack_folds_type] on a type of 0x102: it comes back as type 2,
    class 1. *)
Lemma pack_unpack_folds_type_witness :
  exists buf' e' eot,
    pack sample_wide_type (replicate 32 x00) 4 = Ok (buf', 24)
    /\ unpack sample_end_of_table buf' 4 = Ok (e', eot)
    /\ element_type e' = 2 /\ element_class e' = 1
    /\ element_type e' <> element_type sample_wide_type.
Proof.
  eexists.
  assert (H : pack sample_wide_type (replicate 32 x00) 4 = Ok (_, 24))
    by (vm_compute; reflexivity).
  destruct (pack_unpack_folds_type sample_wide_type sample_end_of_table
              _ _ _ _ H) as (e' & eot & Hu & Ht & Hc & _ & _ & _ & _ & Hne).
  exists e', eot.
  split; [exact H|]. split; [exact Hu|]. split; [exact Ht|].
  split; [exact Hc|]. apply Hne. reflexivity.
Defined.

(** [pack_chain] on the stage-3 element followed by an end-of-table marker,
    from offset 4 of 64 zero bytes. *)
Lemma pack_chain_witness :
  (fits_widths sample_element /\ fits_widths sample_end_of_table
   /\ 0 <= 4 /\ 4 + 40 <= Z.of_nat (length (replicate 64 x00)))
  /\ exists buf1 buf2 next r1 r2 eot1 eot2,
      pack sample_element (replicate 64 x00) 4 = Ok (buf1, next)
      /\ pack sample_end_of_table buf1 next = Ok (buf2, 4 + 40)
      /\ unpack sample_copy buf2 4 = Ok (r1, eot1)
      /\ unpack sample_copy buf2 next = Ok (r2, eot2)
      /\ fields_of r1 = fields_of sample_element
      /\ fields_of r2 = fields_of sample_end_of_table.
Proof.
  assert (H1 : fits_widths sample_element)
    by (unfold fits_widths; repeat split; vm_compute; congruence).
  assert (H2 : fits_widths sample_end_of_table)
    by (unfold fits_widths; repeat split; vm_compute; congruence).
  assert (H3 : 0 <= 4) by lia.
  assert (H4 : 4 + 40 <= Z.of_nat (length (replicate 64 x00)))
    by (vm_compute; congruence).
  split; [repeat split; assumption|].
  exact (pack_chain sample_element sample_end_of_table sample_copy
           (replicate 64 x00) 4 H1 H2 H3 H4).
Defined.

(** [same_as_is_field_equality] on the stage-3 element and its copy under
    another index. *)
Lemma same_as_is_field_equality_witness :
  same_as sample_element sample_copy = true
  /\ pack sample_element (replicate 32 x00) 4
     = pack sample_copy (replicate 32 x00) 4.
Proof.
  assert (H : same_as sample_element sample_copy = true) by reflexivity.
  split; [exact H|].
  destruct same_as_is_field_equality as (_ & _ & _ & _ & Hp & _).
  exact (Hp sample_element sample_copy (replicate 32 x00) 4 H).
Defined.

(** [validate_against_itself] on an element of ten bytes. *)
Lemma validate_against_itself_witness :
  1 <= element_length (span_element 3 10 10)
  /\ collisions (validate_against (span_element 3 10 10)
                   (span_element 3 10 10)) = [3]
  /\ duplicates (validate_against (span_element 3 10 10)
                   (span_element 3 10 10)) = [3].
Proof.
  assert (H : 1 <= element_length (span_element 3 10 10)) by (cbn; lia).
  split; [exact H|].
  destruct (validate_against_itself (span_element 3 10 10))
    as (Hd & Hc & _).
  split; [exact (Hc H)|exact Hd].
Defined.

(** [validate_idempotent] on the stage-3 element. *)
Lemma validate_idempotent_witness :
  exists e',
    validate sample_element 0x2000 0x10000 = (true, e', [])
    /\ validate e' 0x2000 0x10000 = (true, e', []).
Proof.
  eexists.
  assert (H : validate sample_element 0x2000 0x10000 = (true, _, []))
    by (vm_compute; reflexivity).
  split; [exact H|].
  exact (validate_idempotent _ _ _ _ _ _ H).
Defined.

(** [init_window] on an image of eight bytes, shorter than its two header
    blocks. *)
Lemma init_window_witness :
  init (HB := Ffff.plain_header) (MC := small_machine) "img" 8 4 8 0 512
    (fresh_state "a" [])
  = (Ok true, built_state)
  /\ (exists buf,
        ffff_buf (self built_state) = Some buf
        /\ Z.of_nat (length buf) = 8)
  /\ element_location_min (self built_state)
     = 2 * Ffff.get_header_block_size 4 512
  /\ element_location_max (self built_state) = 8
  /\ (validate sample_element (element_location_min (self built_state))
        (element_location_max (self built_state))).1.1 = false.
Proof.
  assert (H : init (HB := Ffff.plain_header) (MC := small_machine) "img"
                8 4 8 0 512 (fresh_state "a" []) = (Ok true, built_state))
    by reflexivity.
  split; [exact H|].
  destruct (init_window (HB := Ffff.plain_header) (MC := small_machine)
              _ _ _ _ _ _ _ _ _ H)
    as (_ & Hb & Hmin & Hmax & _ & _ & Hv).
  split; [exact Hb|]. split; [exact Hmin|]. split; [exact Hmax|].
  apply Hv.
  - vm_compute. discriminate.
  - discriminate.
Defined.

(** [init_accepts_empty_image] on a header of 512 bytes and blocks of 4096
    bytes. *)
Lemma init_accepts_empty_image_witness :
  (512 <= 512 <= 32768 /\ power_of_two 4096)
  /\ exists s' h0 h1,
      init (HB := Ffff.plain_header) (MC := small_machine) "img" 8192 4096
        0 0 512 (fresh_state "a" [])
      = (Ok true, s')
      /\ ffff_buf (self s') = Some []
      /\ ffff0 (self s') = Some h0 /\ ffff1 (self s') = Some h1
      /\ Ffff.header_offset h0 = 0
      /\ 0 < Ffff.header_offset h1.
Proof.
  assert (H1 : 512 <= 512 <= 32768) by lia.
  assert (H2 : power_of_two 4096) by (exists 12; split; [lia|reflexivity]).
  split; [split; assumption|].
  exact (init_accepts_empty_image (HB := Ffff.plain_header)
           (MC := small_machine) "img" 8192 4096 0 512 (fresh_state "a" [])
           H1 H2).
Defined.

(** [init_first_failure] on a header size of 100. *)
Lemma init_first_failure_witness :
  (100 < 512 \/ 100 > 32768)
  /\ init (HB := Ffff.plain_header) (MC := small_machine) "img" 8192 4096
       8192 0 100 (fresh_state "a" [])
     = (Raise (ValueError "header_size is out of range"),
        fresh_state "a" []).
Proof.
  assert (H : 100 < 512 \/ 100 > 32768) by (left; lia).
  split; [exact H|].
  exact (proj1 (init_first_failure (HB := Ffff.plain_header)
                  (MC := small_machine) "img" 8192 4096 8192 0 100
                  (fresh_state "a" [])) H).
Defined.

End MoreSamples.

Section MoreSamplesImage.
Import Struct FfffElement FfffRomimage Spec Layout Parsing Inputs.

(** [characteristics_accepts_iff] on a buffer with both headers. *)
Lemma characteristics_accepts_iff_witness :
  (exists fp, header_accepted two_header_image fp)
  /\ exists s',
      get_romimage_characteristics (buffered_state two_header_image)
      = (Ok tt, s').
Proof.
  assert (H : exists fp, header_accepted two_header_image fp).
  { eexists. unfold header_accepted.
    split; [vm_compute; reflexivity|].
    split; [reflexivity|].
    split; [vm_compute; reflexivity|].
    split; [exists 9; split; [lia|reflexivity]|].
    exists 4. reflexivity. }
  split; [exact H|].
  destruct H as (fp & Hfp).
  apply (proj2 (characteristics_accepts_iff
                  (buffered_state two_header_image))).
  exists two_header_image, fp. split; [reflexivity|exact Hfp].
Defined.

(** [characteristics_failure_keeps_fields] on a header whose erase-block
    size is 3: the run raises, and the ROM image holds the 3 and the header
    size of 512 all the same. *)
Lemma characteristics_failure_keeps_fields_witness :
  exists s',
    get_romimage_characteristics (buffered_state odd_block_image)
    = (Raise (ValueError "Erase block size must be 2**n"), s')
    /\ ffff_buf (self (buffered_state odd_block_image))
       = Some odd_block_image
    /\ erase_block_size (self s') = 3
    /\ header_size (self s') = 512
    /\ g_FFFF_HDR_OFF_TAIL_SENTINEL (globals s') = 496
    /\ element_location_max (self s') = 0.
Proof.
  eexists.
  assert (H : get_romimage_characteristics (buffered_state odd_block_image)
              = (Raise (ValueError "Erase block size must be 2**n"), _))
    by (vm_compute; reflexivity).
  assert (Hb : ffff_buf (self (buffered_state odd_block_image))
               = Some odd_block_image) by reflexivity.
  split; [exact H|]. split; [exact Hb|].
  pose proof (characteristics_failure_keeps_fields _ _ _ _ H Hb) as Hk.
  vm_compute in Hk.
  destruct Hk as (Hhs & _ & Hebs & _ & _ & Htail & _ & Hmax & _).
  split; [exact Hebs|]. split; [exact Hhs|].
  split; [exact Htail|exact Hmax].
Defined.

(** [parsed_window_from_file] on a file of 2048 bytes for a flash of 4096
    bytes. *)
Lemma parsed_window_from_file_witness :
  exists s' buf,
    init_from_file (HB := Ffff.plain_header) "image.ffff"
      (fresh_state "image.ffff" two_header_image)
    = Some (Ok true, s')
    /\ ffff_buf (self s') = Some buf
    /\ element_location_max (self s') = le_uint (read buf 80 4)
    /\ element_location_max (self s') = 4096
    /\ flash_image_length (self s') = le_uint (read buf 92 4)
    /\ flash_image_length (self s') = 2048.
Proof.
  eexists.
  assert (H : init_from_file (HB := Ffff.plain_header) "image.ffff"
                (fresh_state "image.ffff" two_header_image)
              = Some (Ok true, _))
    by (vm_compute; reflexivity).
  destruct (parsed_window_from_file (HB := Ffff.plain_header) _ _ _ H)
    as (buf & _ & Hb & _ & Hmax & _ & Hlen).
  exists buf.
  split; [exact H|]. split; [exact Hb|]. split; [exact Hmax|].
  split; [reflexivity|]. split; [exact Hlen|reflexivity].
Defined.

(** [init_from_file_no_file] on a name that no file has. *)
Lemma init_from_file_no_file_witness :
  ("missing" <> ""
   /\ files (world (fresh_state "a" [])) !! "missing" = None
   /\ files (world (fresh_state "a" []))
      !! ("missing" +:+ FFFF_FILE_EXTENSION) = None)
  /\ init_from_file (HB := Ffff.plain_header) "missing" (fresh_state "a" [])
     = Some (Raise (IOError " can't find FFFF filemissing"),
             fresh_state "a" []).
Proof.
  assert (H1 : "missing" <> "") by discriminate.
  assert (H2 : files (world (fresh_state "a" [])) !! "missing" = None)
    by (vm_compute; reflexivity).
  assert (H3 : files (world (fresh_state "a" []))
               !! ("missing" +:+ FFFF_FILE_EXTENSION) = None)
    by (vm_compute; reflexivity).
  split; [repeat split; assumption|].
  exact (proj2 (init_from_file_no_file (HB := Ffff.plain_header) "missing"
                  (fresh_state "a" [])) H1 H2 H3).
Defined.


(** [init_from_file_returns] on a file with both headers. *)
Lemma init_from_file_returns_witness :
  exists out,
    init_from_file (HB := Ffff.plain_header) "image.ffff"
      (fresh_state "image.ffff" two_header_image) = Some out.
Proof.
  exact (init_from_file_returns (HB := Ffff.plain_header) "image.ffff"
           (fresh_state "image.ffff" two_header_image)).
Defined.

(** [second_header_scan_raises] on a file of 1024 bytes whose second header
    block is blank: the candidate 1024 lies at the end of the buffer. *)
Lemma second_header_scan_raises_witness :
  exists s1,
    read_first_header (HB := Ffff.plain_header) "image.ffff"
      (fresh_state "image.ffff" one_header_image)
    = (Ok one_header_image, s1)
    /\ 16 <= header_size (self s1)
    /\ get_header_block_size (self s1) * 2 ^ 1 < FFFF_MAX_HEADER_BLOCK_OFFSET
    /\ ~ in_buffer one_header_image (header_size (self s1))
           (get_header_block_size (self s1) * 2 ^ 1)
    /\ exists msg,
        init_from_file (HB := Ffff.plain_header) "image.ffff"
          (fresh_state "image.ffff" one_header_image)
        = Some (Raise (StructError msg), s1).
Proof.
  eexists.
  assert (Hread : read_first_header (HB := Ffff.plain_header) "image.ffff"
                    (fresh_state "image.ffff" one_header_image)
                  = (Ok one_header_image, _))
    by (vm_compute; reflexivity).
  split; [exact Hread|].
  match type of Hread with _ = (_, ?s1) =>
    assert (Hhs : 16 <= header_size (self s1))
      by (vm_compute; discriminate);
    assert (Hlt : get_header_block_size (self s1) * 2 ^ 1
                  < FFFF_MAX_HEADER_BLOCK_OFFSET)
      by (vm_compute; reflexivity);
    assert (Hout : ~ in_buffer one_header_image (header_size (self s1))
                       (get_header_block_size (self s1) * 2 ^ 1))
      by (intros (_ & Hx & _); vm_compute in Hx; apply Hx; reflexivity);
    assert (Hbefore : forall j, 0 <= j < 1 ->
              in_buffer one_header_image (header_size (self s1))
                (get_header_block_size (self s1) * 2 ^ j)
              /\ ~ accepted one_header_image (header_size (self s1))
                     (get_header_block_size (self s1) * 2 ^ j))
  end.
  { intros j Hj. assert (j = 0) by lia. subst j. split.
    - vm_compute. repeat split; discriminate.
    - intros (Hx & _). vm_compute in Hx. discriminate. }
  split; [exact Hhs|]. split; [exact Hlt|]. split; [exact Hout|].
  refine (proj1 (second_header_scan_raises (HB := Ffff.plain_header)
                   "image.ffff" _ _ _ 1 _ Hread Hhs _ Hlt Hout Hbefore)).
  - discriminate.
  - lia.
Defined.

(** [second_header_only_where_accepted] on a file with both headers. *)
Lemma second_header_only_where_accepted_witness :
  exists s1 s',
    read_first_header (HB := Ffff.plain_header) "image.ffff"
      (fresh_state "image.ffff" two_header_image)
    = (Ok two_header_image, s1)
    /\ 16 <= header_size (self s1)
    /\ init_from_file (HB := Ffff.plain_header) "image.ffff"
         (fresh_state "image.ffff" two_header_image)
       = Some (Ok true, s')
    /\ ((s' = s1
         /\ forall j, 0 <= j ->
              get_header_block_size (self s1) * 2 ^ j
              < FFFF_MAX_HEADER_BLOCK_OFFSET ->
              ~ accepted two_header_image (header_size (self s1))
                  (get_header_block_size (self s1) * 2 ^ j))
        \/ exists k h,
            0 <= k
            /\ get_header_block_size (self s1) * 2 ^ k
               < FFFF_MAX_HEADER_BLOCK_OFFSET
            /\ accepted two_header_image (header_size (self s1))
                 (get_header_block_size (self s1) * 2 ^ k)
            /\ (forall j, 0 <= j < k ->
                  ~ accepted two_header_image (header_size (self s1))
                      (get_header_block_size (self s1) * 2 ^ j))
            /\ @Ffff.unpack Ffff.plain_header two_header_image
                 (header_at (HB := Ffff.plain_header) (self s1)
                    (get_header_block_size (self s1) * 2 ^ k)) = Ok h
            /\ s' = mkState (set_ffff1 (self s1) (Some h)) (globals s1)
                      (world s1)).
Proof.
  eexists. eexists.
  assert (Hread : read_first_header (HB := Ffff.plain_header) "image.ffff"
                    (fresh_state "image.ffff" two_header_image)
                  = (Ok two_header_image, _))
    by (vm_compute; reflexivity).
  assert (Hinit : init_from_file (HB := Ffff.plain_header) "image.ffff"
                    (fresh_state "image.ffff" two_header_image)
                  = Some (Ok true, _))
    by (vm_compute; reflexivity).
  match type of Hread with _ = (_, ?s1) =>
    assert (Hhs : 16 <= header_size (self s1))
      by (vm_compute; discriminate)
  end.
  split; [exact Hread|]. split; [exact Hhs|]. split; [exact Hinit|].
  refine (second_header_only_where_accepted (HB := Ffff.plain_header)
            "image.ffff" _ _ _ _ _ Hread Hhs Hinit).
  discriminate.
Defined.

(** [write_target] on a path without a '.'. *)
Lemma write_target_witness :
  exists s',
    write "out" built_state = (Ok true, s')
    /\ files (world s') !! "out.ffff" = Some (replicate 8 x00)
    /\ stdout (world s') = ["Wrote out.ffff"]
    /\ self s' = self built_state.
Proof.
  eexists.
  assert (H : write "out" built_state = (Ok true, _))
    by (vm_compute; reflexivity).
  split; [exact H|].
  destruct (write_target _ _ _ _ H)
    as (buf & name & Hb & _ & Hn & Hf & _ & Hp & Hs).
  assert (Hname : name = "out.ffff").
  { apply Hn. intros [Hx|[Hx|[Hx|[]]]]; discriminate. }
  subst name.
  assert (Hbuf : buf = replicate 8 x00).
  { change (Some (replicate 8 x00) = Some buf) in Hb.
    injection Hb as <-. reflexivity. }
  subst buf.
  split; [exact Hf|]. split; [exact Hp|exact Hs].
Defined.


End MoreSamplesImage.

(** * Further properties of the elements: names, loading, writing and
    display *)

Section ElementNames.
Import FfffElement Spec Layout PyText FfffElementIO.

Lemma element_short_name_cases (t : Z) :
  element_short_name t
  = if t =? 0xfe then Some "eot"
    else if t =? 1 then Some "2fw"
    else if t =? 2 then Some "3fw"
    else if t =? 3 then Some "ims_cert"
    else if t =? 4 then Some "cms_cert"
    else if t =? 5 then Some "data"
    else None.
Proof.
unfold element_short_name, element_short_names.
cbv [FFFF_ELEMENT_END_OF_ELEMENT_TABLE FFFF_ELEMENT_STAGE2_FIRMWARE_PACKAGE
     FFFF_ELEMENT_STAGE3_FIRMWARE_PACKAGE FFFF_ELEMENT_IMS_CERTIFICATE
     FFFF_ELEMENT_CMS_CERTIFICATE FFFF_ELEMENT_DATA].
repeat match goal with
       | |- context [t =? ?k] =>
           destruct (Z.eqb_spec t k) as [->|?]; [vm_compute; reflexivity|]
       end.
rewrite !lookup_insert_ne by congruence.
apply lookup_singleton_ne. congruence.
Qed.

Lemma element_name_cases (t : Z) :
  element_name t
  = if t =? 0xfe then "end of elements"
    else if t =? 1 then "stage 2 firmware"
    else if t =? 2 then "stage 3 firmware"
    else if t =? 3 then "IMS certificate"
    else if t =? 4 then "CMS certificate"
    else if t =? 5 then "data"
    else "?".
Proof.
unfold element_name, element_names.
cbv [FFFF_ELEMENT_END_OF_ELEMENT_TABLE FFFF_ELEMENT_STAGE2_FIRMWARE_PACKAGE
     FFFF_ELEMENT_STAGE3_FIRMWARE_PACKAGE FFFF_ELEMENT_IMS_CERTIFICATE
     FFFF_ELEMENT_CMS_CERTIFICATE FFFF_ELEMENT_DATA].
repeat match goal with
       | |- context [t =? ?k] =>
           destruct (Z.eqb_spec t k) as [->|?]; [vm_compute; reflexivity|]
       end.
rewrite !lookup_insert_ne by congruence.
rewrite lookup_singleton_ne by congruence. reflexivity.
Qed.

(** X26: the types that have a name are exactly the types [validate]
    marks as valid, the five payload types and the end-of-table marker:
    for every other type [element_short_name] gives [None] and
    [element_name] gives "?"; no two types share a short name or a
    name. *)
Theorem names_of_valid_types :
  (forall e range_low range_high,
     valid_type (validate e range_low range_high).1.2 = true
     <-> is_Some (element_short_name (element_type e)))
  /\ (forall t, is_Some (element_short_name t) <-> element_name t <> "?")
  /\ (forall t u name,
        element_short_name t = Some name ->
        element_short_name u = Some name -> t = u)
  /\ (forall t u,
        element_name t = element_name u -> element_name t <> "?" -> t = u).
Proof.
split; [|split; [|split]].
- intros e lo hi. rewrite element_short_name_cases. unfold validate.
  destruct (Z.eqb_spec (element_type e) FFFF_ELEMENT_END_OF_ELEMENT_TABLE)
    as [->|Hne].
  + cbn. split; [eauto|reflexivity].
  + cbn [fst snd valid_type set_valid_type set_aligned set_in_range
         element_type].
    change FFFF_ELEMENT_END_OF_ELEMENT_TABLE with 254 in Hne.
    change FFFF_ELEMENT_STAGE2_FIRMWARE_PACKAGE with 1.
    change FFFF_ELEMENT_DATA with 5.
    destruct (Z.eqb_spec (element_type e) 254); [contradiction|].
    repeat match goal with
           | |- context [element_type e =? ?k] =>
               destruct (Z.eqb_spec (element_type e) k) as [->|?];
               [split; [eauto|reflexivity]|]
           end.
    split; [|intros [x Hx]; discriminate].
    intros H. apply andb_true_iff in H as [H1 H2].
    apply Z.geb_le in H1. apply Z.leb_le in H2. lia.
- intros t. rewrite element_short_name_cases, element_name_cases.
  repeat match goal with
         | |- context [t =? ?k] =>
             destruct (Z.eqb_spec t k); [split; [discriminate|eauto]|]
         end.
  split; [intros [x Hx]; discriminate|congruence].
- intros t u name. rewrite !element_short_name_cases.
  repeat match goal with
         | |- context [t =? ?k] => destruct (Z.eqb_spec t k) as [->|?]
         end;
    repeat match goal with
           | |- context [u =? ?k] => destruct (Z.eqb_spec u k) as [->|?]
           end;
    intros H1 H2; cbn in H1, H2; congruence.
- intros t u. rewrite !element_name_cases.
  repeat match goal with
         | |- context [t =? ?k] => destruct (Z.eqb_spec t k) as [->|?]
         end;
    repeat match goal with
           | |- context [u =? ?k] => destruct (Z.eqb_spec u k) as [->|?]
           end;
    intros H1 H2; cbn in H1, H2; congruence.
Qed.

End ElementNames.

Section ElementWrite.
Import Struct FfffElement FfffRomimage Spec Layout PyText FfffElementIO.

(** A slice from a non-negative start over a non-negative length is the
    read of that length, cut at the end of the sequence. *)
Lemma py_slice_read (l : list byte) (a n : Z) :
  0 <= a -> 0 <= n -> py_slice l a (a + n) = read l a n.
Proof.
intros Ha Hn. unfold py_slice, slice_bound, read.
destruct (Z.ltb_spec a 0); [lia|]. destruct (Z.ltb_spec (a + n) 0); [lia|].
destruct (Z.le_gt_cases a (Z.of_nat (length l))) as [Hin|Hout].
- rewrite (Z.min_l a) by lia.
  destruct (Z.le_gt_cases (a + n) (Z.of_nat (length l))) as [Hfit|Hcut].
  + rewrite Z.min_l by lia. f_equal. lia.
  + rewrite Z.min_r by lia.
    rewrite !take_ge; [reflexivity| |]; rewrite length_drop; lia.
- rewrite !drop_ge by lia. rewrite !take_nil. reflexivity.
Qed.

Lemma length_read_cut (l : list byte) (a n : Z) :
  0 <= a -> 0 <= n ->
  Z.of_nat (length (read l a n))
  = Z.min n (Z.max 0 (Z.of_nat (length l) - a)).
Proof.
intros Ha Hn. unfold read. rewrite length_take, length_drop. lia.
Qed.

(** A record that [unpack] has read and that is no end-of-table marker:
    its span starts and ends at unsigned words, and the payload attached
    is the slice of the buffer over it. *)
Lemma unpack_payload (e0 e' : FfffElement) (buf : list byte) (offset : Z) :
  unpack e0 buf offset = Ok (e', false) ->
  0 <= element_location e' /\ 0 <= element_length e'
  /\ tftf_blob e'
     = Some (Tftf.load_tftf_from_buffer
               (py_slice buf (element_location e')
                  (element_location e' + element_length e'))).
Proof.
unfold unpack, unpack_from_5L.
destruct (window buf offset 20) as [off|err];
  cbn [mbind result_bind Py.bind]; [|discriminate].
cbn [set_fields element_type].
destruct (negb _); intros [= <-]; cbn.
pose proof (le_uint_bound (read buf (off + 8) 4)).
pose proof (le_uint_bound (read buf (off + 12) 4)).
repeat split; lia.
Qed.

(** A run of the element's [write]. *)
Lemma element_write_run (self : Stored) (name : string) (heap : Buffers)
    (s : State) :
  write self name heap s
  = if bool_decide (name ∈ readonly (world s))
    then (Raise (IOError ("cannot open " +:+ name)), s)
    else
      match buf self with
      | Some b =>
          (Ok tt,
           mkState (FfffRomimage.self s) (globals s)
             (mkWorld
                (<[name := py_slice (heap b)
                             (element_location (element self))
                             (element_location (element self)
                              + element_length (element self))]>
                   (<[name := []]> (files (world s))))
                (readonly (world s))
                (stdout (world s) ++ ["Wrote " +:+ name])))
      | None =>
          (Raise (TypeError
                    "'NoneType' object has no attribute '__getitem__'"),
           mkState (FfffRomimage.self s) (globals s)
             (mkWorld (<[name := []]> (files (world s)))
                (readonly (world s)) (stdout (world s))))
      end.
Proof.
unfold write, open_wb, file_write, print. run_method.
destruct (bool_decide (name ∈ readonly (world s))); [reflexivity|].
destruct (buf self); reflexivity.
Qed.

(** X27: [write] exports the element's own buffer, the one its
    constructor was given, as it is when [write] is called, and not the
    payload [unpack] attached, which is a view of the buffer [unpack] was
    handed.  For an element whose record [unpack] has read, the file holds
    the bytes of the own buffer from the location on, [element_length] of
    them when the span lies inside that buffer and fewer, without any
    error, when the span leaves it; it is the attached payload exactly when
    the own buffer then agrees with the buffer of [unpack] over the span.
    No other file changes, one line is printed and the ROM image is
    untouched.  An element without a buffer raises [TypeError] and leaves
    the file empty; a file that cannot be opened raises [IOError] with
    nothing changed. *)
Theorem element_write_exports_payload (e0 : FfffElement) (self : Stored)
    (given : list byte) (offset : Z) (name : string) (heap : Buffers)
    (s : State) :
  unpack e0 given offset = Ok (element self, false) ->
  let location := element_location (element self) in
  let length_ := element_length (element self) in
  (forall b,
     buf self = Some b -> name ∉ readonly (world s) ->
     exists s' blob,
       write self name heap s = (Ok tt, s')
       /\ files (world s') !! name = Some (read (heap b) location length_)
       /\ Z.of_nat (length (read (heap b) location length_))
          = Z.min length_
              (Z.max 0 (Z.of_nat (length (heap b)) - location))
       /\ tftf_blob (element self) = Some blob
       /\ Tftf.tftf_buf blob = read given location length_
       /\ (files (world s') !! name = Some (Tftf.tftf_buf blob)
           <-> read (heap b) location length_
               = read given location length_)
       /\ (forall other, other <> name ->
             files (world s') !! other = files (world s) !! other)
       /\ stdout (world s') = (stdout (world s) ++ ["Wrote " +:+ name])%list
       /\ FfffRomimage.self s' = FfffRomimage.self s)
  /\ (buf self = None -> name ∉ readonly (world s) ->
      exists msg s',
        write self name heap s = (Raise (TypeError msg), s')
        /\ files (world s') !! name = Some []
        /\ FfffRomimage.self s' = FfffRomimage.self s)
  /\ (name ∈ readonly (world s) ->
      exists msg, write self name heap s = (Raise (IOError msg), s)).
Proof.
intros Hu location length_.
destruct (unpack_payload _ _ _ _ Hu) as (Hloc & Hlen & Hblob).
fold location length_ in Hloc, Hlen, Hblob.
rewrite py_slice_read in Hblob by assumption.
rewrite element_write_run. split; [|split].
- intros b Hb Hro.
  rewrite bool_decide_eq_false_2 by exact Hro. rewrite Hb.
  fold location length_. rewrite py_slice_read by assumption.
  eexists. eexists. split; [reflexivity|].
  cbn [world files stdout FfffRomimage.self].
  rewrite lookup_insert_eq.
  split; [reflexivity|].
  split; [apply length_read_cut; assumption|].
  split; [exact Hblob|].
  cbn [Tftf.tftf_buf Tftf.load_tftf_from_buffer].
  split; [reflexivity|].
  split; [split; [intros [= H]; exact H|intros ->; reflexivity]|].
  split; [|split; reflexivity].
  intros other Hne. rewrite !lookup_insert_ne by congruence. reflexivity.
- intros Hb Hro.
  rewrite bool_decide_eq_false_2 by exact Hro. rewrite Hb.
  eexists. eexists. split; [reflexivity|].
  cbn [world files FfffRomimage.self].
  split; [apply lookup_insert_eq|reflexivity].
- intros Hro.
  rewrite bool_decide_eq_true_2 by exact Hro. eexists. reflexivity.
Qed.

End ElementWrite.

Section ElementInit.
Import FfffElement Spec Layout PyText FfffElementIO.
Context `{TF : TftfFile}.

(** X28: the element's [init] never returns false: it returns true or
    raises [ValueError].  When it returns, either nothing was loaded and
    the element is as before, or the blob loaded is well-formed, is
    attached, and its total length has replaced the element length.  When
    it raises, the message is the one of the failed format of the file
    name, not "Bad TFTF file"; the blob that failed stays attached, so that
    a second [init] returns true without loading anything. *)
Theorem element_init_outcome (self : FfffElement) :
  exists out self',
    init self = (out, self')
    /\ out <> Ok false
    /\ (out = Ok true ->
        self' = self
        \/ exists blob,
            is_good blob = true
            /\ self' = set_element_length (set_tftf_blob self (Some blob))
                         (tftf_length blob))
    /\ (forall e, out = Raise e ->
          e = ValueError "Unknown format code 'x' for object of type 'str'"
          /\ (exists blob, self' = set_tftf_blob self (Some blob))
          /\ init self' = (Ok true, self')).
Proof.
unfold init at 1.
destruct (filename self) as [name|] eqn:Ename;
  [destruct (tftf_blob self) as [blob0|] eqn:Eblob|].
- exists (Ok true), self. split; [reflexivity|].
  split; [discriminate|]. split; [left; reflexivity|discriminate].
- destruct (String.eqb name "") eqn:Eempty; cbn [negb].
  + exists (Ok true), self. split; [reflexivity|].
    split; [discriminate|]. split; [left; reflexivity|discriminate].
  + destruct (load_tftf_file (Tftf_of_file name) name) as [success blob].
    destruct (success && is_good blob) eqn:Egood.
    * eexists. eexists. split; [reflexivity|].
      split; [discriminate|]. split; [|discriminate].
      intros _. right. exists blob.
      apply andb_true_iff in Egood as [_ Egood].
      split; [exact Egood|reflexivity].
    * eexists. eexists. split; [reflexivity|].
      split; [discriminate|]. split; [discriminate|].
      intros e [= <-]. split; [reflexivity|].
      split; [exists blob; reflexivity|].
      unfold init. cbn [filename tftf_blob set_tftf_blob]. rewrite Ename.
      reflexivity.
- exists (Ok true), self. split; [reflexivity|].
  split; [discriminate|]. split; [left; reflexivity|discriminate].
Qed.

End ElementInit.

Section ElementDisplay.
Import FfffElement Spec Layout PyText FfffElementIO.

Lemma length_pos_iff {A} (l : list A) :
  (0 <? Z.of_nat (length l)) = true <-> l <> [].
Proof.
destruct l; cbn [length]; split; intros H.
- discriminate.
- contradiction.
- discriminate.
- apply Z.ltb_lt. lia.
Qed.

Lemma element_string_fields (a b : FfffElement) (expand_type : bool) :
  index a = index b -> fields_of a = fields_of b ->
  element_string a expand_type = element_string b expand_type.
Proof.
unfold fields_of, element_string. intros -> [= -> -> -> -> -> ->].
reflexivity.
Qed.

Lemma flags_string_empty (self : FfffElement) :
  flags_string self = "" <-> flags_of self = (true, true, true).
Proof.
unfold flags_string, flags_of.
destruct (in_range self), (aligned self), (valid_type self); cbn;
  split; intros H; first [reflexivity|discriminate H].
Qed.

(** [display] on an element with something recorded. *)
Lemma display_raises (self : FfffElement) (expand_type : bool) :
  collisions self <> [] \/ duplicates self <> [] ->
  exists e,
    display self expand_type
    = ([element_string self expand_type], [], Some e).
Proof.
intros H. unfold display.
destruct (0 <? Z.of_nat (length (collisions self))) eqn:Ec;
  [eexists; reflexivity|].
destruct (0 <? Z.of_nat (length (duplicates self))) eqn:Ed;
  [eexists; reflexivity|].
exfalso. destruct H as [H|H]; apply length_pos_iff in H; congruence.
Qed.

(** X29: [display] cannot show a collision or a duplicate: for an element
    with either list non-empty, and so for an element on which
    [validate_against] has just found an overlap or a shared identity, it
    prints the line of the element and then raises, from the subscript and
    the loop over the list, without the line of the findings and without
    the diagnostic of the flags.  With both lists empty it prints that one
    line, raises nothing, and emits at most one diagnostic, none exactly
    when the three flags are set. *)
Theorem display_raises_on_findings (self other : FfffElement)
    (expand_type : bool) :
  (collisions self <> [] \/ duplicates self <> [] ->
   exists e,
     display self expand_type
     = ([element_string self expand_type], [], Some e))
  /\ (overlaps self other \/ same_identity self other ->
      exists e,
        display (validate_against self other) expand_type
        = ([element_string self expand_type], [], Some e))
  /\ (collisions self = [] -> duplicates self = [] ->
      exists diagnostics,
        display self expand_type
        = ([element_string self expand_type], diagnostics, None)
        /\ (length diagnostics <= 1)%nat
        /\ (diagnostics = [] <-> flags_of self = (true, true, true))).
Proof.
split; [apply display_raises|]. split.
- intros H.
  destruct (validate_against_keeps self other) as (Hf & _ & Hi & _).
  rewrite <- (element_string_fields _ _ expand_type Hi Hf).
  apply display_raises.
  rewrite collisions_step, duplicates_step.
  destruct H as [H|H]; [left|right]; rewrite decide_True by exact H;
    intros E; apply app_eq_nil in E as [_ E]; discriminate.
- intros Hc Hd. unfold display. rewrite Hc, Hd. cbn [length Z.of_nat Z.ltb
    Z.compare].
  eexists. split; [reflexivity|].
  destruct (flags_string self) eqn:E.
  + change (0 <? Z.of_nat (String.length "")) with false. cbn [length].
    split; [lia|]. split; [intros _|reflexivity].
    apply flags_string_empty. exact E.
  + rewrite (proj2 (Z.ltb_lt 0 _)) by (cbn [String.length]; lia).
    cbn. split; [lia|]. split; [discriminate|].
    intros H. apply flags_string_empty in H. congruence.
Qed.

End ElementDisplay.

(** * Further properties of the ROM image: the map file *)

Section MapFile.
Import FfffElement FfffRomimage Spec Layout PyText FfffRomimageHeaders.
Context `{HM : HeaderMethods}.

Lemma rfind_from_last (s1 s2 : string) (c : ascii) :
  ~ In c (list_ascii_of_string s2) ->
  forall i found,
    rfind_from i (s1 +:+ String c s2) c found
    = i + Z.of_nat (String.length s1).
Proof.
intros Hn. induction s1 as [|a s1 IH]; intros i found.
- change ("" +:+ String c s2) with (String c s2).
  cbn [rfind_from String.length].
  rewrite Ascii.eqb_refl, rfind_from_absent by exact Hn.
  change (Z.of_nat 0) with 0. lia.
- change (String a s1 +:+ String c s2) with (String a (s1 +:+ String c s2)).
  cbn [rfind_from String.length]. rewrite IH. lia.
Qed.

Lemma list_ascii_of_string_append (s1 s2 : string) :
  list_ascii_of_string (s1 +:+ s2)
  = (list_ascii_of_string s1 ++ list_ascii_of_string s2)%list.
Proof.
induction s1 as [|a s1 IH]; [reflexivity|].
change (String a s1 +:+ s2) with (String a (s1 +:+ s2)).
cbn [list_ascii_of_string]. rewrite IH. reflexivity.
Qed.

Lemma length_list_ascii_of_string (s : string) :
  length (list_ascii_of_string s) = String.length s.
Proof.
induction s as [|a s IH]; [reflexivity|].
cbn [list_ascii_of_string length String.length]. rewrite IH. reflexivity.
Qed.

Lemma str_prefix_append (s1 s2 : string) :
  str_prefix (s1 +:+ s2) (Z.of_nat (String.length s1)) = s1.
Proof.
unfold str_prefix, py_slice, slice_bound.
rewrite list_ascii_of_string_append, length_app,
  !length_list_ascii_of_string.
destruct (Z.ltb_spec 0 0); [lia|].
destruct (Z.ltb_spec (Z.of_nat (String.length s1)) 0); [lia|].
rewrite Z.min_l, Z.min_l by lia.
rewrite Z.sub_0_r, Nat2Z.id. change (Z.to_nat 0) with 0%nat.
rewrite drop_0, take_app_length'
  by (symmetry; apply length_list_ascii_of_string).
apply string_of_list_ascii_of_string.
Qed.

(** The name of the map file, for a base name with a '.'. *)
Lemma rindex_last (stem ext : string) :
  ~ In "."%char (list_ascii_of_string ext) ->
  rindex (stem +:+ "." +:+ ext) "."
  = Ok (Z.of_nat (String.length stem)).
Proof.
intros Hn. unfold rindex, rfind.
change ("." +:+ ext) with (String "." ext).
rewrite rfind_from_last by exact Hn.
destruct (Z.eqb_spec (0 + Z.of_nat (String.length stem)) (-1)); [lia|].
f_equal.
Qed.

(** X30: [create_map_file] replaces the extension but does not add one: a
    base name without any '.' raises [ValueError] from [rindex] before a
    file is opened.  For a base name [stem.ext] whose extension holds no
    '.', the map file is [stem.map]: it is created, or emptied, before the
    headers are looked at, so that with a header missing the call raises
    [ValueError] and leaves an empty map file; with both headers the file
    holds the map of header 0, the map of header 1 at the header block
    size, and the elements once when the headers are the same and once per
    header otherwise, whatever [base_offset] is; the ROM image is
    untouched. *)
Theorem create_map_file_name (base_name stem ext : string)
    (base_offset : Z) (s : State) :
  (~ In "."%char (list_ascii_of_string base_name) ->
   create_map_file base_name base_offset s
   = (Raise (ValueError "substring not found"), s))
  /\ (base_name = stem +:+ "." +:+ ext ->
      ~ In "."%char (list_ascii_of_string ext) ->
      (stem +:+ ".map") ∉ readonly (world s) ->
      (ffff0 (self s) = None \/ ffff1 (self s) = None ->
       create_map_file base_name base_offset s
       = (Raise (ValueError "No FFFF to display"),
          mkState (self s) (globals s)
            (mkWorld (<[stem +:+ ".map" := []]> (files (world s)))
               (readonly (world s)) (stdout (world s)))))
      /\ (forall h0 h1,
            ffff0 (self s) = Some h0 -> ffff1 (self s) = Some h1 ->
            exists s',
              create_map_file base_name base_offset s = (Ok tt, s')
              /\ files (world s') !! (stem +:+ ".map")
                 = Some (Ffff_write_map h0 0 "ffff[0]"
                         ++ Ffff_write_map h1
                              (get_header_block_size (self s)) "ffff[1]"
                         ++ if Ffff_same_as h0 h1
                            then Ffff_write_map_elements h0 0 "ffff"
                            else Ffff_write_map_elements h0 0 "ffff[0]"
                                 ++ Ffff_write_map_elements h1 0
                                      "ffff[1]")%list
              /\ (forall other, other <> stem +:+ ".map" ->
                    files (world s') !! other = files (world s) !! other)
              /\ self s' = self s /\ globals s' = globals s
              /\ stdout (world s') = stdout (world s))).
Proof.
split.
- intros Hn. unfold create_map_file, rindex.
  rewrite (proj2 (rfind_none_iff base_name ".") Hn). reflexivity.
- intros -> Hn Hro.
  assert (Hrun : create_map_file (stem +:+ "." +:+ ext) base_offset s
                 = write_map (stem +:+ ".map") base_offset
                     (mkState (self s) (globals s)
                        (mkWorld
                           (<[stem +:+ ".map" := []]> (files (world s)))
                           (readonly (world s)) (stdout (world s))))).
  { unfold create_map_file. rewrite (rindex_last stem ext Hn).
    unfold open_wb. run_method.
    destruct (Z.eqb_spec (Z.of_nat (String.length stem)) (-1)); [lia|].
    cbn [negb]. rewrite str_prefix_append.
    rewrite bool_decide_eq_false_2 by exact Hro. reflexivity. }
  rewrite Hrun. clear Hrun.
  unfold write_map, file_append. run_method. cbn [self globals world].
  split.
  + intros [H|H]; rewrite H; [reflexivity|].
    destruct (ffff0 (self s)); reflexivity.
  + intros h0 h1 -> ->.
    destruct (Ffff_same_as h0 h1); eexists;
      (split; [reflexivity|]); cbn [self globals world files stdout];
      rewrite !lookup_insert_eq; cbn [default from_option id];
      (split; [rewrite app_nil_l, <- !app_assoc; reflexivity|]);
      (split; [|repeat split]);
      intros other Hne; rewrite !lookup_insert_ne by congruence;
      reflexivity.
Qed.

End MapFile.

Section MoreSamplesOutput.
Import Struct FfffElement FfffRomimage Spec Layout Parsing Inputs PyText
  FfffElementIO FfffRomimageHeaders.

(** [names_of_valid_types] on the stage-3 element. *)
Lemma names_of_valid_types_witness :
  valid_type (validate sample_element 0x2000 0x10000).1.2 = true
  /\ is_Some (element_short_name (element_type sample_element)).
Proof.
  assert (H : valid_type (validate sample_element 0x2000 0x10000).1.2
              = true) by reflexivity.
  split; [exact H|].
  exact (proj1 (proj1 names_of_valid_types sample_element 0x2000 0x10000)
           H).
Defined.

(** [element_write_exports_payload] on the data element of six bytes,
    read from one buffer of 32 bytes and created with another: the file
    holds six bytes of the element's own buffer, not the payload that was
    read. *)
Lemma element_write_exports_payload_witness :
  exists e' s',
    unpack sample_end_of_table payload_buffer 4 = Ok (e', false)
    /\ ("data.bin" ∉ readonly (world (fresh_state "a" [])))
    /\ write (mkStored e' (Some 0%nat)) "data.bin"
         (fun _ => replicate 32 xff) (fresh_state "a" [])
       = (Ok tt, s')
    /\ files (world s') !! "data.bin" = Some (replicate 6 xff)
    /\ tftf_blob e'
       = Some (Tftf.load_tftf_from_buffer [x01; x02; x03; x04; x05; x06]).
Proof.
  eexists.
  assert (Hu : unpack sample_end_of_table payload_buffer 4 = Ok (_, false))
    by (vm_compute; reflexivity).
  assert (Hro : "data.bin" ∉ readonly (world (fresh_state "a" [])))
    by (change ("data.bin" ∉ (∅ : gset string)); apply not_elem_of_empty).
  match type of Hu with _ = Ok (?e', _) =>
    destruct (proj1 (element_write_exports_payload sample_end_of_table
                       (mkStored e' (Some 0%nat)) payload_buffer 4
                       "data.bin" (fun _ => replicate 32 xff)
                       (fresh_state "a" []) Hu) 0%nat eq_refl Hro)
      as (s' & blob & Hw & Hf & _)
  end.
  exists s'.
  split; [exact Hu|]. split; [exact Hro|]. split; [exact Hw|].
  split; [exact Hf|reflexivity].
Defined.

(** [element_init_outcome] on an element with a file name when no file can
    be loaded. *)
Lemma element_init_outcome_witness :
  exists self',
    init (H := bad_files) sample_copy
    = (Raise (ValueError
                "Unknown format code 'x' for object of type 'str'"),
       self')
    /\ init (H := bad_files) self' = (Ok true, self').
Proof.
  destruct (element_init_outcome (TF := bad_files) sample_copy)
    as (out & self' & Hi & _ & _ & Hr).
  exists self'.
  assert (Hout : out = Raise (ValueError
                   "Unknown format code 'x' for object of type 'str'")).
  { vm_compute in Hi. injection Hi as <- _. reflexivity. }
  subst out. split; [exact Hi|].
  exact (proj2 (proj2 (Hr _ eq_refl))).
Defined.

(** [display_raises_on_findings] on two spans that overlap. *)
Lemma display_raises_on_findings_witness :
  overlaps (span_element 0 10 10) (span_element 1 15 10)
  /\ exists e,
      display (validate_against (span_element 0 10 10)
                 (span_element 1 15 10)) false
      = (["   0 05   000000 00000000 0000000a 0000000a 00000000"], [],
         Some e).
Proof.
  assert (H : overlaps (span_element 0 10 10) (span_element 1 15 10))
    by (unfold overlaps; cbn; lia).
  split; [exact H|].
  exact (proj1 (proj2 (display_raises_on_findings (span_element 0 10 10)
                         (span_element 1 15 10) false)) (or_introl H)).
Defined.

(** [create_map_file_name] on the ROM image of eight bytes and the base
    names "image" and "image.ffff". *)
Lemma create_map_file_name_witness :
  create_map_file (HM := one_line_maps) "image" 0 built_state
  = (Raise (ValueError "substring not found"), built_state)
  /\ exists s',
      create_map_file (HM := one_line_maps) "image.ffff" 0 built_state
      = (Ok tt, s')
      /\ files (world s') !! "image.map"
         = Some (list_byte_of_string
                   ("ffff[0] 00000000" +:+ "ffff[1] 00000200"
                    +:+ "ffff.elements")).
Proof.
  split.
  - apply (proj1 (create_map_file_name (HM := one_line_maps) "image" "" ""
                    0 built_state)).
    intros [H|[H|[H|[H|[H|[]]]]]]; discriminate.
  - destruct (proj2 (create_map_file_name (HM := one_line_maps)
                       "image.ffff" "image" "ffff" 0 built_state)
                eq_refl) as (_ & Hm).
    + intros [H|[H|[H|[H|[]]]]]; discriminate.
    + change ("image.map" ∉ (∅ : gset string)). apply not_elem_of_empty.
    + destruct (Hm _ _ eq_refl eq_refl) as (s' & Hc & Hf & _).
      exists s'. split; [exact Hc|].
      etransitivity; [exact Hf|]. vm_compute. reflexivity.
Defined.

End MoreSamplesOutput.
